(** * The Ollama provider of prodigy-code

    A shallow embedding of
    [packages/core/src/providers/ollama/OllamaProvider.ts]: the provider
    object with its bearer-token cache, the tool-format resolution, the model
    listing with its fallback catalogue, and the streaming chat completion
    that turns the newline-delimited JSON body of [/api/chat] into the
    sequence of messages handed to the caller.

    Conventions of the embedding.
    - Values that come out of [JSON.parse] or [response.json()] are untyped at
      run time; they are modelled by [JsValue], with the JavaScript notions
      the provider relies on ([||], truthiness, property access, [+],
      template-literal conversion) written out.  Numbers are the
      integer-valued ones (token counts, seconds, milliseconds), plus [NaN];
      their sums and products are written in [Z], which is what the doubles
      of the code give on safe integers.
    - Text is a [string]; characters outside ASCII appear in their UTF-8
      encoding.  A response body is the sequence of byte arrays its reader
      delivers, read to its end or cut short by a read that rejects.
    - [JSON.parse], the conversion of strings to numbers, the [TextDecoder],
      the clock and the network are the run time's, not the provider's:
      they are variables of the section the provider lives in.
    - A method is a computation over the provider's fields and the outside
      world (clock, log of requests sent, console, messages yielded so far)
      that completes normally or throws. *)

From Stdlib Require Import ZArith List String Ascii Bool Lia QArith.
From Stdlib Require Import Strings.Byte.
From Stdlib Require Import DecimalString.
Import ListNotations.

#[local] Set Warnings "-register-all".
#[local] Open Scope string_scope.
#[local] Open Scope Z_scope.
#[local] Open Scope list_scope.

(** ** Strings *)

Module Str.

(** [needle] occurs in [hay] ([String.prototype.includes]). *)
Fixpoint includes (needle hay : string) : bool :=
  match hay with
  | EmptyString => prefix needle EmptyString
  | String _ rest => prefix needle hay || includes needle rest
  end.

(** [part] is a run of consecutive characters of [whole]. *)
Definition contains (part whole : string) : Prop :=
  exists before after, whole = (before ++ part ++ after)%string.

(** Decimal rendering of an integer, as a template literal renders it. *)
Definition of_Z (z : Z) : string := NilZero.string_of_int (Z.to_int z).

Definition nl : ascii := "010"%char.

(** [s.split('\n')]: the pieces between line feeds; never empty. *)
Fixpoint split_nl (s : string) : list string :=
  match s with
  | EmptyString => [EmptyString]
  | String c rest =>
      if Ascii.eqb c nl then EmptyString :: split_nl rest
      else match split_nl rest with
           | piece :: pieces => String c piece :: pieces
           | [] => [String c EmptyString]
           end
  end.

Definition is_ascii_space (c : ascii) : bool :=
  let n := nat_of_ascii c in
  ((9 <=? n) && (n <=? 13) || (n =? 32))%nat.

(** [s.trim() === '']: [s] consists of white space and line terminators
    only.  Besides the ASCII ones these are U+00A0, U+1680, U+2000..U+200A,
    U+2028, U+2029, U+202F, U+205F, U+3000 and U+FEFF, read here in UTF-8. *)
Fixpoint is_blank (s : string) : bool :=
  match s with
  | EmptyString => true
  | String c rest =>
      if is_ascii_space c then is_blank rest
      else
        match nat_of_ascii c, rest with
        | 194%nat, String d rest' =>
            (nat_of_ascii d =? 160)%nat && is_blank rest'
        | 225%nat, String d (String e rest') =>
            (nat_of_ascii d =? 154)%nat && (nat_of_ascii e =? 128)%nat
            && is_blank rest'
        | 226%nat, String d (String e rest') =>
            let d := nat_of_ascii d in
            let e := nat_of_ascii e in
            (((d =? 128) && ((128 <=? e) && (e <=? 138)
                             || (e =? 168) || (e =? 169) || (e =? 175)))
             || ((d =? 129) && (e =? 159)))%nat
            && is_blank rest'
        | 227%nat, String d (String e rest') =>
            (nat_of_ascii d =? 128)%nat && (nat_of_ascii e =? 128)%nat
            && is_blank rest'
        | 239%nat, String d (String e rest') =>
            (nat_of_ascii d =? 187)%nat && (nat_of_ascii e =? 191)%nat
            && is_blank rest'
        | _, _ => false
        end
  end.

(** No line feed occurs in [s]. *)
Fixpoint no_nl (s : string) : bool :=
  match s with
  | EmptyString => true
  | String c rest => negb (Ascii.eqb c nl) && no_nl rest
  end.

End Str.

(** ** JavaScript values *)

(** The numbers the provider meets: [Int z] is the double whose value is
    the integer [z], and [NaN]. *)
Inductive number : Type :=
| Int (z : Z)
| NaN.

Inductive JsValue : Type :=
| JUndefined
| JNull
| JBool (b : bool)
| JNum (n : number)
| JStr (s : string)
| JArr (items : list JsValue)
| JObj (fields : list (string * JsValue)).

(** What a computation can throw. *)
Inductive Exn : Type :=
| Error (message : string)
| TypeError
| SyntaxError
| NetworkError (cause : string).

Module Js.

Definition truthy (v : JsValue) : bool :=
  match v with
  | JUndefined | JNull => false
  | JBool b => b
  | JNum (Int z) => negb (z =? 0)
  | JNum NaN => false
  | JStr s => negb (String.eqb s "")
  | JArr _ | JObj _ => true
  end.

(** [a || b] *)
Definition or (a b : JsValue) : JsValue := if truthy a then a else b.

Fixpoint assoc {A : Type} (key : string) (fields : list (string * A))
  : option A :=
  match fields with
  | [] => None
  | (k, v) :: rest => if String.eqb k key then Some v else assoc key rest
  end.

(** [v.key] for the property names the provider reads ([done], [message],
    [content], [tool_calls], [prompt_eval_count], [eval_count], [models],
    [name], [access_token], [token], [expires_in]): none of them is
    inherited, so the read finds an own property of an object or nothing;
    reading a property of [null] or [undefined] throws. *)
Definition field (key : string) (fields : list (string * JsValue)) : JsValue :=
  match assoc key fields with
  | Some x => x
  | None => JUndefined
  end.

Definition get (key : string) (v : JsValue) : Exn + JsValue :=
  match v with
  | JUndefined | JNull => inl TypeError
  | JObj fields => inr (field key fields)
  | _ => inr JUndefined
  end.

Definition number_to_string (n : number) : string :=
  match n with
  | Int z => Str.of_Z z
  | NaN => "NaN"
  end.

(** [String(v)], as a template literal or a property key converts: arrays
    join their elements with commas, a plain object is [[object Object]]
    unless a data property shadows [toString], in which case the conversion
    throws. *)
Fixpoint to_string (v : JsValue) : Exn + string :=
  match v with
  | JUndefined => inr "undefined"
  | JNull => inr "null"
  | JBool true => inr "true"
  | JBool false => inr "false"
  | JNum n => inr (number_to_string n)
  | JStr s => inr s
  | JArr items =>
      (fix join (l : list JsValue) : Exn + string :=
         match l with
         | [] => inr ""
         | x :: rest =>
             let piece :=
               match x with
               | JUndefined | JNull => inr ""
               | _ => to_string x
               end in
             match piece with
             | inl e => inl e
             | inr p =>
                 match rest with
                 | [] => inr p
                 | _ :: _ =>
                     match join rest with
                     | inl e => inl e
                     | inr q => inr (p ++ "," ++ q)%string
                     end
                 end
             end
         end) items
  | JObj fields =>
      match assoc "toString" fields with
      | Some _ => inl TypeError
      | None => inr "[object Object]"
      end
  end.

(** [ToPrimitive]: objects and arrays become their string. *)
Definition to_primitive (v : JsValue) : Exn + JsValue :=
  match v with
  | JArr _ | JObj _ =>
      match to_string v with
      | inl e => inl e
      | inr s => inr (JStr s)
      end
  | _ => inr v
  end.

Section Numbers.

(** [Number(s)] for a string [s]. *)
Variable StringToNumber : string -> number.

Definition to_number (v : JsValue) : Exn + number :=
  match to_primitive v with
  | inl e => inl e
  | inr JUndefined => inr NaN
  | inr JNull => inr (Int 0)
  | inr (JBool true) => inr (Int 1)
  | inr (JBool false) => inr (Int 0)
  | inr (JNum n) => inr n
  | inr (JStr s) => inr (StringToNumber s)
  | inr _ => inr NaN
  end.

End Numbers.

(** [Number.isSafeInteger]: the integers a double holds exactly, each
    neighbour included.  The sums and products below are those of the
    doubles whenever the operands and the result are safe integers; the
    theorems about numbers are stated within that range. *)
Definition safe_integer (z : Z) : Prop :=
  - 9007199254740991 <= z <= 9007199254740991.

Definition num_add (a b : number) : number :=
  match a, b with
  | Int x, Int y => Int (x + y)
  | _, _ => NaN
  end.

Definition num_mul (a b : number) : number :=
  match a, b with
  | Int x, Int y => Int (x * y)
  | _, _ => NaN
  end.

(** The numeric reading of a primitive that is not a string. *)
Definition prim_to_number (v : JsValue) : number :=
  match v with
  | JNull => Int 0
  | JBool true => Int 1
  | JBool false => Int 0
  | JNum n => n
  | _ => NaN
  end.

(** [a + b]: concatenation as soon as one side is a string after
    [ToPrimitive], addition of numbers otherwise. *)
Definition add (a b : JsValue) : Exn + JsValue :=
  match to_primitive a with
  | inl e => inl e
  | inr pa =>
      match to_primitive b with
      | inl e => inl e
      | inr pb =>
          match pa, pb with
          | JStr _, _ | _, JStr _ =>
              match to_string pa, to_string pb with
              | inr sa, inr sb => inr (JStr (sa ++ sb)%string)
              | inl e, _ | _, inl e => inl e
              end
          | _, _ => inr (JNum (num_add (prim_to_number pa) (prim_to_number pb)))
          end
      end
  end.

End Js.

(** ** Data of the provider *)

(** [ToolFormat] is a union of string literals; at run time a string. *)
Definition ToolFormat : Type := string.

(** The part of [IProviderConfig] the provider reads. *)
Record IProviderConfig : Type := {
  providerToolFormatOverrides : option (list (string * ToolFormat))
}.

Record Usage : Type := {
  prompt_tokens : JsValue;
  completion_tokens : JsValue;
  total_tokens : JsValue
}.

Record IMessage : Type := {
  role : string;
  content : JsValue;
  tool_calls : JsValue;
  usage : option Usage
}.

Record ITool : Type := {
  tool_name : string;
  tool_description : option string;
  tool_parameters : JsValue
}.

(** [contextWindows[modelName] || 4096] is a number, or a member every
    object inherits when the name happens to be one of those. *)
Inductive ContextWindow : Type :=
| Tokens (n : Z)
| Inherited (member : string).

Record IModel : Type := {
  id : JsValue;
  name : JsValue;
  provider : string;
  supportedToolFormats : list ToolFormat;
  contextWindow : ContextWindow;
  maxOutputTokens : Z
}.

Record ChatOptions : Type := {
  temperature : Q;
  top_p : Q;
  num_predict : Z
}.

Record OllamaChatRequest : Type := {
  model : string;
  messages : list (string * JsValue);
  stream : bool;
  options : ChatOptions;
  tools : option (list ITool);
  tool_choice : option string
}.

Record Request : Type := {
  url : string;
  method : option string;
  headers : list (string * string);
  body : option OllamaChatRequest
}.

Definition Uint8Array : Type := list byte.

(** A response of [fetch]; [chunks] is what the reader of [response.body]
    delivers read after read, [None] when the response has no body.
    Whether the body then ends or fails is said by the [FetchResult] the
    response comes in. *)
Record Response : Type := {
  status : Z;
  statusText : string;
  chunks : option (list Uint8Array)
}.

(** How [fetch] settles: it rejects; or it resolves with a response whose
    body, if it has one, delivers its reads and ends; or it resolves with a
    response whose body delivers some reads and then fails, the read after
    them rejecting (the connection is lost while the body streams). *)
Inductive FetchResult : Type :=
| Rejected (e : Exn)
| Resolved (r : Response)
| Interrupted (code : Z) (reason : string) (delivered : list Uint8Array)
    (e : Exn).

(** The response of an interrupted body. *)
Definition cut_response (code : Z) (reason : string)
  (delivered : list Uint8Array) : Response :=
  {| status := code; statusText := reason; chunks := Some delivered |}.

Module Resp.

(** [response.ok] *)
Definition ok (r : Response) : bool :=
  (200 <=? status r) && (status r <=? 299).

End Resp.

Inductive ConsoleEntry : Type :=
| console_warn (label : string) (line : option string) (e : Exn)
| console_error (label : string) (e : Exn).

(** The fields of [OllamaProvider]; [name] is the constant below. *)
Record Provider : Type := {
  baseURL : string;
  currentModel : string;
  config : option IProviderConfig;
  toolFormatOverride : option ToolFormat;
  apiKey : option string;
  tokenUrl : option string;
  cachedToken : JsValue;
  tokenExpiry : option number
}.

(** [name: string = 'ollama']; no method assigns it. *)
Definition provider_name : string := "ollama".

(** [new OllamaProvider(baseURL, config, apiKey)] *)
Definition new_OllamaProvider (base : option string)
  (cfg : option IProviderConfig) (key : option string) : Provider :=
  {| baseURL := match base with
                | Some b => if String.eqb b "" then "http://localhost:11434" else b
                | None => "http://localhost:11434"
                end;
     currentModel := "llama2";
     config := cfg;
     toolFormatOverride := None;
     apiKey := key;
     tokenUrl := None;
     cachedToken := JUndefined;
     tokenExpiry := None |}.

(** The world outside the provider: the clock [Date.now()] reads, the
    requests handed to [fetch] so far, the console, and the messages the
    running generator has yielded. *)
Record World : Type := {
  now : Z;
  requests : list Request;
  console : list ConsoleEntry;
  emitted : list IMessage
}.

(** ** Computations *)

Record Outcome (A : Type) : Type := Out {
  value : Exn + A;
  self : Provider;
  world : World
}.
Arguments Out {A} value self world.
Arguments value {A} o.
Arguments self {A} o.
Arguments world {A} o.

Definition M (A : Type) : Type := Provider -> World -> Outcome A.

Definition ret {A} (a : A) : M A := fun p w => Out (inr a) p w.

Definition throw {A} (e : Exn) : M A := fun p w => Out (inl e) p w.

Definition bind {A B} (m : M A) (k : A -> M B) : M B :=
  fun p w =>
    let o := m p w in
    match value o with
    | inl e => Out (inl e) (self o) (world o)
    | inr a => k a (self o) (world o)
    end.

(** [try { body } catch (e) { handler }]: what [body] did to the provider
    and the world before it threw stays done. *)
Definition try_catch {A} (body : M A) (handler : Exn -> M A) : M A :=
  fun p w =>
    let o := body p w in
    match value o with
    | inl e => handler e (self o) (world o)
    | inr a => o
    end.

Declare Scope js_scope.
Delimit Scope js_scope with js.
Notation "x <- m ;; k" := (bind m (fun x => k))
  (at level 61, m at next level, right associativity) : js_scope.
Notation "m ;;; k" := (bind m (fun _ => k))
  (at level 61, right associativity) : js_scope.
#[local] Open Scope js_scope.

(** A value or an exception of the pure part, inside a computation. *)
Definition lift {A} (r : Exn + A) : M A :=
  match r with
  | inl e => throw e
  | inr a => ret a
  end.

Definition this : M Provider := fun p w => Out (inr p) p w.

Definition assign (f : Provider -> Provider) : M unit :=
  fun p w => Out (inr tt) (f p) w.

Definition Date_now : M Z := fun p w => Out (inr (now w)) p w.

(** The world with more messages yielded and more entries on the console. *)
Definition extend (ms : list IMessage) (es : list ConsoleEntry) (w : World)
  : World :=
  {| now := now w; requests := requests w;
     console := console w ++ es; emitted := emitted w ++ ms |}.

(** The world once a request has gone out and [fetch] has settled. *)
Definition sent (elapsed : Z) (rq : Request) (w : World) : World :=
  {| now := now w + elapsed; requests := requests w ++ [rq];
     console := console w; emitted := emitted w |}.

Definition log (entry : ConsoleEntry) : M unit :=
  fun p w => Out (inr tt) p (extend [] [entry] w).

(** [yield message], the caller asking for the next one. *)
Definition yield (message : IMessage) : M unit :=
  fun p w => Out (inr tt) p (extend [message] [] w).

Definition set_cachedToken (v : JsValue) (p : Provider) : Provider :=
  {| baseURL := baseURL p; currentModel := currentModel p; config := config p;
     toolFormatOverride := toolFormatOverride p; apiKey := apiKey p;
     tokenUrl := tokenUrl p; cachedToken := v; tokenExpiry := tokenExpiry p |}.

Definition set_tokenExpiry (e : option number) (p : Provider) : Provider :=
  {| baseURL := baseURL p; currentModel := currentModel p; config := config p;
     toolFormatOverride := toolFormatOverride p; apiKey := apiKey p;
     tokenUrl := tokenUrl p; cachedToken := cachedToken p; tokenExpiry := e |}.

Definition set_tokenUrl (u : option string) (p : Provider) : Provider :=
  {| baseURL := baseURL p; currentModel := currentModel p; config := config p;
     toolFormatOverride := toolFormatOverride p; apiKey := apiKey p;
     tokenUrl := u; cachedToken := cachedToken p; tokenExpiry := tokenExpiry p |}.

(** A field of type [string | undefined] read as a value. *)
Definition of_option (o : option string) : JsValue :=
  match o with
  | Some s => JStr s
  | None => JUndefined
  end.

Definition truthy_number (o : option number) : bool :=
  match o with
  | Some n => Js.truthy (JNum n)
  | None => false
  end.

(** ** A JSON reader

    [JSON.parse] is a variable of the development; this reader stands in for
    it where a statement is run on concrete text.  It reads the JSON grammar
    (objects, arrays, strings with their escapes, the three literals,
    numerals); a numeral is accepted when its value is an integer. *)

Module Json.

Definition is_ws (c : ascii) : bool :=
  match nat_of_ascii c with
  | 32%nat | 9%nat | 10%nat | 13%nat => true
  | _ => false
  end.

Fixpoint skip_ws (s : string) : string :=
  match s with
  | String c rest => if is_ws c then skip_ws rest else s
  | EmptyString => s
  end.

Definition digit (c : ascii) : option Z :=
  let n := Z.of_nat (nat_of_ascii c) in
  if (48 <=? n) && (n <=? 57) then Some (n - 48) else None.

Definition hex (c : ascii) : option Z :=
  let n := Z.of_nat (nat_of_ascii c) in
  if (48 <=? n) && (n <=? 57) then Some (n - 48)
  else if (65 <=? n) && (n <=? 70) then Some (n - 55)
  else if (97 <=? n) && (n <=? 102) then Some (n - 87)
  else None.

Definition byte (z : Z) : ascii := ascii_of_nat (Z.to_nat z).

(** The UTF-8 encoding of a code point. *)
Definition utf8 (cp : Z) : string :=
  if cp <? 128 then String (byte cp) ""
  else if cp <? 2048 then
    String (byte (192 + cp / 64)) (String (byte (128 + cp mod 64)) "")
  else if cp <? 65536 then
    String (byte (224 + cp / 4096))
      (String (byte (128 + (cp / 64) mod 64))
         (String (byte (128 + cp mod 64)) ""))
  else
    String (byte (240 + cp / 262144))
      (String (byte (128 + (cp / 4096) mod 64))
         (String (byte (128 + (cp / 64) mod 64))
            (String (byte (128 + cp mod 64)) ""))).

Definition hex4 (s : string) : option (Z * string) :=
  match s with
  | String a (String b (String c (String d rest))) =>
      match hex a, hex b, hex c, hex d with
      | Some x, Some y, Some z, Some t =>
          Some (((x * 16 + y) * 16 + z) * 16 + t, rest)
      | _, _, _, _ => None
      end
  | _ => None
  end.

(** The characters of a string literal after its opening quote. *)
Fixpoint read_string (fuel : nat) (s : string) : option (string * string) :=
  match fuel with
  | O => None
  | S fuel =>
      match s with
      | EmptyString => None
      | String c rest =>
          match nat_of_ascii c with
          | 34%nat => Some ("", rest)
          | 92%nat =>
              match rest with
              | String e rest' =>
                  let simple (x : Z) :=
                    match read_string fuel rest' with
                    | Some (str, r) => Some (String (byte x) str, r)
                    | None => None
                    end in
                  match nat_of_ascii e with
                  | 34%nat => simple 34
                  | 92%nat => simple 92
                  | 47%nat => simple 47
                  | 98%nat => simple 8
                  | 102%nat => simple 12
                  | 110%nat => simple 10
                  | 114%nat => simple 13
                  | 116%nat => simple 9
                  | 117%nat =>
                      match hex4 rest' with
                      | Some (hi, r1) =>
                          let paired :=
                            if (55296 <=? hi) && (hi <=? 56319) then
                              match r1 with
                              | String b (String u r2) =>
                                  if ((nat_of_ascii b =? 92)
                                      && (nat_of_ascii u =? 117))%nat then
                                    match hex4 r2 with
                                    | Some (lo, r3) =>
                                        if (56320 <=? lo) && (lo <=? 57343)
                                        then Some (65536 + (hi - 55296) * 1024
                                                   + (lo - 56320), r3)
                                        else None
                                    | None => None
                                    end
                                  else None
                              | _ => None
                              end
                            else None in
                          let (cp, r) :=
                            match paired with
                            | Some found => found
                            | None => (hi, r1)
                            end in
                          match read_string fuel r with
                          | Some (str, r') => Some ((utf8 cp ++ str)%string, r')
                          | None => None
                          end
                      | None => None
                      end
                  | _ => None
                  end
              | EmptyString => None
              end
          | n =>
              if (n <? 32)%nat then None
              else
                match read_string fuel rest with
                | Some (str, r) => Some (String c str, r)
                | None => None
                end
          end
      end
  end.

(** A run of digits: their value, how many, and the rest. *)
Fixpoint read_digits (s : string) (acc : Z) (count : nat) : Z * nat * string :=
  match s with
  | String c rest =>
      match digit c with
      | Some d => read_digits rest (acc * 10 + d) (S count)
      | None => (acc, count, s)
      end
  | EmptyString => (acc, count, s)
  end.

Definition leading_zero (s : string) : bool :=
  match s with
  | String a (String b _) =>
      (nat_of_ascii a =? 48)%nat
      && match digit b with Some _ => true | None => false end
  | _ => false
  end.

(** A numeral without its sign: mantissa, decimal exponent, rest. *)
Definition read_unsigned (s : string) : option (Z * Z * string) :=
  if leading_zero s then None
  else
    match read_digits s 0 0 with
    | (_, O, _) => None
    | (whole, _, r) =>
        let after_fraction :=
          match r with
          | String dot r1 =>
              if (nat_of_ascii dot =? 46)%nat then
                match read_digits r1 whole 0 with
                | (_, O, _) => None
                | (m, k, r2) => Some (m, - Z.of_nat k, r2)
                end
              else Some (whole, 0, r)
          | EmptyString => Some (whole, 0, r)
          end in
        match after_fraction with
        | None => None
        | Some (m, e, r2) =>
            match r2 with
            | String x r3 =>
                if ((nat_of_ascii x =? 101) || (nat_of_ascii x =? 69))%nat then
                  let (negative, r4) :=
                    match r3 with
                    | String sg r' =>
                        if (nat_of_ascii sg =? 45)%nat then (true, r')
                        else if (nat_of_ascii sg =? 43)%nat then (false, r')
                        else (false, r3)
                    | EmptyString => (false, r3)
                    end in
                  match read_digits r4 0 0 with
                  | (_, O, _) => None
                  | (ex, _, r5) =>
                      Some (m, e + (if negative then - ex else ex), r5)
                  end
                else Some (m, e, r2)
            | EmptyString => Some (m, e, r2)
            end
        end
    end.

(** The integer [m * 10 ^ e], when it is one. *)
Definition scale (m e : Z) : option Z :=
  if 0 <=? e then Some (m * 10 ^ e)
  else if m mod 10 ^ (- e) =? 0 then Some (m / 10 ^ (- e))
  else None.

Definition read_number (s : string) : option (JsValue * string) :=
  let (negative, r) :=
    match s with
    | String c rest => if (nat_of_ascii c =? 45)%nat then (true, rest) else (false, s)
    | EmptyString => (false, s)
    end in
  match read_unsigned r with
  | Some (m, e, rest) =>
      match scale m e with
      | Some z => Some (JNum (Int (if negative then - z else z)), rest)
      | None => None
      end
  | None => None
  end.

(** A later member of the same name replaces the earlier value. *)
Fixpoint define (key : string) (v : JsValue) (fields : list (string * JsValue))
  : list (string * JsValue) :=
  match fields with
  | [] => [(key, v)]
  | (k, x) :: rest =>
      if String.eqb k key then (k, v) :: rest else (k, x) :: define key v rest
  end.

Definition expect (word : string) (v : JsValue) (s : string)
  : option (JsValue * string) :=
  if prefix word s
  then Some (v, substring (String.length word)
                          (String.length s - String.length word) s)
  else None.

Fixpoint read_value (fuel : nat) (s : string) : option (JsValue * string) :=
  match fuel with
  | O => None
  | S fuel =>
      match skip_ws s with
      | EmptyString => None
      | String c rest as s' =>
          match nat_of_ascii c with
          | 123%nat =>
              match skip_ws rest with
              | String c' rest' =>
                  if (nat_of_ascii c' =? 125)%nat then Some (JObj [], rest')
                  else read_members fuel rest []
              | EmptyString => None
              end
          | 91%nat =>
              match skip_ws rest with
              | String c' rest' =>
                  if (nat_of_ascii c' =? 93)%nat then Some (JArr [], rest')
                  else read_items fuel rest []
              | EmptyString => None
              end
          | 34%nat =>
              match read_string (String.length rest) rest with
              | Some (str, r) => Some (JStr str, r)
              | None => None
              end
          | 116%nat => expect "true" (JBool true) s'
          | 102%nat => expect "false" (JBool false) s'
          | 110%nat => expect "null" JNull s'
          | _ => read_number s'
          end
      end
  end

with read_members (fuel : nat) (s : string) (acc : list (string * JsValue))
  : option (JsValue * string) :=
  match fuel with
  | O => None
  | S fuel =>
      match skip_ws s with
      | String q rest =>
          if (nat_of_ascii q =? 34)%nat then
            match read_string (String.length rest) rest with
            | Some (key, r1) =>
                match skip_ws r1 with
                | String colon r2 =>
                    if (nat_of_ascii colon =? 58)%nat then
                      match read_value fuel r2 with
                      | Some (v, r3) =>
                          match skip_ws r3 with
                          | String sep r4 =>
                              if (nat_of_ascii sep =? 44)%nat
                              then read_members fuel r4 (define key v acc)
                              else if (nat_of_ascii sep =? 125)%nat
                              then Some (JObj (define key v acc), r4)
                              else None
                          | EmptyString => None
                          end
                      | None => None
                      end
                    else None
                | EmptyString => None
                end
            | None => None
            end
          else None
      | EmptyString => None
      end
  end

with read_items (fuel : nat) (s : string) (acc : list JsValue)
  : option (JsValue * string) :=
  match fuel with
  | O => None
  | S fuel =>
      match read_value fuel s with
      | Some (v, r1) =>
          match skip_ws r1 with
          | String sep r2 =>
              if (nat_of_ascii sep =? 44)%nat
              then read_items fuel r2 (acc ++ [v])
              else if (nat_of_ascii sep =? 93)%nat
              then Some (JArr (acc ++ [v]), r2)
              else None
          | EmptyString => None
          end
      | None => None
      end
  end.

Definition parse (s : string) : option JsValue :=
  match read_value (S (String.length s)) s with
  | Some (v, rest) =>
      match skip_ws rest with
      | EmptyString => Some v
      | String _ _ => None
      end
  | None => None
  end.

(** A stand-in for [Number(s)] on strings, exact where [s] is a JSON numeral
    of integer value and where [s] holds something other than white space
    that is no numeral in any notation ([NaN]); the sample sessions convert
    no other string. *)
Definition to_number (s : string) : number :=
  match parse s with
  | Some (JNum n) => n
  | _ => NaN
  end.

End Json.

(** ** The provider *)

Inductive Control : Type :=
| Continue
| Return.

(** The table of [getContextWindowForModel]. *)
Definition contextWindows : list (string * Z) :=
  [ ("llama2", 4096); ("llama2:7b", 4096); ("llama2:13b", 4096);
    ("llama2:70b", 4096);
    ("codellama", 100000); ("codellama:7b", 100000);
    ("codellama:13b", 100000); ("codellama:34b", 100000);
    ("deepseek-coder", 16384); ("deepseek-coder:6.7b", 16384);
    ("deepseek-coder:33b", 16384);
    ("qwen2.5-coder", 32768); ("qwen2.5-coder:7b", 32768);
    ("qwen2.5-coder:32b", 32768);
    ("hermes-coder", 8192); ("gemma2-coder", 8192) ].

(** The members an object literal inherits from [Object.prototype]. *)
Definition inherited_members : list string :=
  [ "constructor"; "__proto__"; "hasOwnProperty"; "isPrototypeOf";
    "propertyIsEnumerable"; "toLocaleString"; "toString"; "valueOf";
    "__defineGetter__"; "__defineSetter__"; "__lookupGetter__";
    "__lookupSetter__" ].

Definition getContextWindowForModel (modelName : string) : ContextWindow :=
  match Js.assoc modelName contextWindows with
  | Some n => Tokens n
  | None =>
      if existsb (String.eqb modelName) inherited_members
      then Inherited modelName
      else Tokens 4096
  end.

(** The catalogue [getModels] returns when the listing cannot be fetched. *)
Definition default_model (model_id : string) (format : ToolFormat)
  (window : Z) : IModel :=
  {| id := JStr model_id; name := JStr model_id; provider := provider_name;
     supportedToolFormats := [format]; contextWindow := Tokens window;
     maxOutputTokens := 4096 |}.

Definition default_models : list IModel :=
  [ default_model "llama2" "llama" 4096;
    default_model "llama2:13b" "llama" 4096;
    default_model "llama2:70b" "llama" 4096;
    default_model "codellama" "llama" 100000;
    default_model "deepseek-coder" "deepseek" 16384;
    default_model "qwen2.5-coder" "qwen" 32768 ].

Definition json_headers : list (string * string) :=
  [("Content-Type", "application/json")].

Definition truthy_string (o : option string) : bool :=
  Js.truthy (of_option o).

(** *** Methods without input or output *)

Definition setTokenUrl (url' : string) (p : Provider) : Provider :=
  set_tokenExpiry None (set_cachedToken JUndefined (set_tokenUrl (Some url') p)).

Definition getTokenUrl (p : Provider) : option string := tokenUrl p.

Definition clearCachedToken (p : Provider) : Provider :=
  set_tokenExpiry None (set_cachedToken JUndefined p).

Definition setModel (modelId : string) (p : Provider) : Provider :=
  {| baseURL := baseURL p; currentModel := modelId; config := config p;
     toolFormatOverride := toolFormatOverride p; apiKey := apiKey p;
     tokenUrl := tokenUrl p; cachedToken := cachedToken p;
     tokenExpiry := tokenExpiry p |}.

Definition getCurrentModel (p : Provider) : string := currentModel p.

Definition setApiKey (key : string) (p : Provider) : Provider :=
  {| baseURL := baseURL p; currentModel := currentModel p; config := config p;
     toolFormatOverride := toolFormatOverride p; apiKey := Some key;
     tokenUrl := tokenUrl p; cachedToken := cachedToken p;
     tokenExpiry := tokenExpiry p |}.

Definition setBaseUrl (baseUrl : option string) (p : Provider) : Provider :=
  {| baseURL := if truthy_string baseUrl
                then match baseUrl with Some b => b | None => "" end
                else "http://localhost:11434";
     currentModel := currentModel p; config := config p;
     toolFormatOverride := toolFormatOverride p; apiKey := apiKey p;
     tokenUrl := tokenUrl p; cachedToken := cachedToken p;
     tokenExpiry := tokenExpiry p |}.

Definition isPaidMode (p : Provider) : bool := false.

Definition getServerTools (p : Provider) : list string := [].

(** [clearState()]: there is no state to clear. *)
Definition clearState (p : Provider) : Provider := p.

(** [invokeServerTool(...)]: always rejects. *)
Definition invokeServerTool (toolName : string) (params : JsValue)
  : Exn + JsValue :=
  inl (Error "Server tools not supported by Ollama provider").

Definition setConfig (cfg : IProviderConfig) (p : Provider) : Provider :=
  {| baseURL := baseURL p; currentModel := currentModel p; config := Some cfg;
     toolFormatOverride := toolFormatOverride p; apiKey := apiKey p;
     tokenUrl := tokenUrl p; cachedToken := cachedToken p;
     tokenExpiry := tokenExpiry p |}.

Definition setToolFormatOverride (format : option ToolFormat) (p : Provider)
  : Provider :=
  {| baseURL := baseURL p; currentModel := currentModel p; config := config p;
     toolFormatOverride := if truthy_string format then format else None;
     apiKey := apiKey p;
     tokenUrl := tokenUrl p; cachedToken := cachedToken p;
     tokenExpiry := tokenExpiry p |}.

(** [this.config?.providerToolFormatOverrides?.[this.name]] *)
Definition config_override (p : Provider) : option ToolFormat :=
  match config p with
  | Some cfg =>
      match providerToolFormatOverrides cfg with
      | Some overrides => Js.assoc provider_name overrides
      | None => None
      end
  | None => None
  end.

Definition getToolFormat (p : Provider) : ToolFormat :=
  if truthy_string (toolFormatOverride p) then
    match toolFormatOverride p with Some f => f | None => "" end
  else if truthy_string (config_override p) then
    match config_override p with Some f => f | None => "" end
  else if Str.includes "llama" (currentModel p) then "llama"
  else if Str.includes "deepseek" (currentModel p) then "deepseek"
  else if Str.includes "qwen" (currentModel p) then "qwen"
  else if Str.includes "hermes" (currentModel p) then "hermes"
  else if Str.includes "gemma" (currentModel p) then "gemma"
  else "llama".

(** *** Tool-format resolution as the specification words it

    An ordered list of candidates, the first one present wins: the manual
    override, the configured override for this provider, the first family of
    the table whose name occurs in the model id; the default otherwise. *)

Definition known_families : list ToolFormat :=
  ["llama"; "deepseek"; "qwen"; "hermes"; "gemma"].

Definition default_format : ToolFormat := "llama".

(** An override counts as set when it is not the empty string. *)
Definition when_set (o : option ToolFormat) : option ToolFormat :=
  if truthy_string o then o else None.

Definition family_of (modelId : string) : option ToolFormat :=
  find (fun family => Str.includes family modelId) known_families.

Fixpoint first_match (candidates : list (option ToolFormat))
  (default : ToolFormat) : ToolFormat :=
  match candidates with
  | [] => default
  | Some f :: _ => f
  | None :: rest => first_match rest default
  end.

Definition resolveToolFormat (p : Provider) : ToolFormat :=
  first_match [ when_set (toolFormatOverride p);
                when_set (config_override p);
                family_of (currentModel p) ]
              default_format.

(** The same steps, each said on its own, without the lookups of the code.

    An override is not set when it is absent or empty. *)
Definition unset (o : option ToolFormat) : Prop := o = None \/ o = Some "".

(** The configuration supplies the override [f] for the provider: the
    overrides it holds have [f] as the entry for ["ollama"]. *)
Definition configured (p : Provider) (f : ToolFormat) : Prop :=
  exists cfg before after,
    config p = Some cfg
    /\ providerToolFormatOverrides cfg
       = Some (before ++ ("ollama", f) :: after)
    /\ ~ In "ollama" (map fst before).

(** [family] is the first family of the table whose name occurs in the
    model id; and no family of the table occurs in it. *)
Definition first_family (modelId : string) (family : ToolFormat) : Prop :=
  exists before after,
    known_families = before ++ family :: after
    /\ Str.contains family modelId
    /\ forall other, In other before -> ~ Str.contains other modelId.

Definition no_family (modelId : string) : Prop :=
  forall family, In family known_families -> ~ Str.contains family modelId.

(** ** Sample sessions and replies

    Concrete text to run the provider on.  JSON is written with single
    quotes and [quoted] turns them into double quotes. *)

Module Sample.

Definition quoted (s : string) : string :=
  string_of_list_ascii
    (map (fun c => if Ascii.eqb c "'"%char then ascii_of_nat 34 else c)
         (list_ascii_of_string s)).

Definition line_feed : string := String Str.nl "".

Definition bytes (s : string) : Uint8Array := list_byte_of_string s.

(** Text being kept in UTF-8, a decoder for well-formed input without byte
    order mark hands every byte on as it comes and holds nothing back. *)
Definition decoder_step (d : unit) (b : byte) : unit * string :=
  (d, String (ascii_of_byte b) "").

Definition decoder_end (d : unit) : string := "".

Definition session : Provider := new_OllamaProvider None None None.

Definition keyed_session : Provider := setApiKey "static-api-key" session.

Definition token_url : string := "https://auth.example/token".

Definition start : World :=
  {| now := 1700000000000; requests := []; console := []; emitted := [] |}.

Definition question : list IMessage :=
  [ {| role := "user"; content := JStr "Hello, how are you?";
       tool_calls := JUndefined; usage := None |} ].

Definition delta_line : string :=
  quoted "{'model':'llama2','message':{'role':'assistant','content':'Hello'},'done':false}".

Definition final_line : string :=
  quoted "{'model':'llama2','message':{'role':'assistant','content':''},'done':true,'prompt_eval_count':62,'eval_count':23}".

Definition late_line : string :=
  quoted "{'model':'llama2','message':{'role':'assistant','content':'late'},'done':false}".

Definition delta_message : list (string * JsValue) :=
  [("role", JStr "assistant"); ("content", JStr "Hello")].

Definition delta_record : list (string * JsValue) :=
  [("model", JStr "llama2"); ("message", JObj delta_message);
   ("done", JBool false)].

Definition final_message : list (string * JsValue) :=
  [("role", JStr "assistant"); ("content", JStr "")].

Definition final_record : list (string * JsValue) :=
  [("model", JStr "llama2"); ("message", JObj final_message);
   ("done", JBool true); ("prompt_eval_count", JNum (Int 62));
   ("eval_count", JNum (Int 23))].

Definition hello : IMessage :=
  {| role := "assistant"; content := JStr "Hello";
     tool_calls := JUndefined; usage := None |}.

Definition late : IMessage :=
  {| role := "assistant"; content := JStr "late";
     tool_calls := JUndefined; usage := None |}.

Definition closing : IMessage :=
  {| role := "assistant"; content := JStr "";
     tool_calls := JUndefined;
     usage := Some {| prompt_tokens := JNum (Int 62);
                      completion_tokens := JNum (Int 23);
                      total_tokens := JNum (Int 85) |} |}.

(** The two records, the read boundary falling inside the first. *)
Definition reads : list Uint8Array :=
  [ bytes (substring 0 40 delta_line);
    bytes (substring 40 (String.length delta_line - 40) delta_line
           ++ line_feed ++ final_line ++ line_feed) ].

(** The same text in one read. *)
Definition one_read : list Uint8Array :=
  [ bytes (delta_line ++ line_feed ++ final_line ++ line_feed) ].

Definition chat_response : Response :=
  {| status := 200; statusText := "OK"; chunks := Some reads |}.

Definition error_response : Response :=
  {| status := 500; statusText := "Internal Server Error";
     chunks := Some [bytes "Server error"] |}.

Definition missing_response : Response :=
  {| status := 404; statusText := "Not Found"; chunks := Some [] |}.

Definition empty_listing : Response :=
  {| status := 200; statusText := "OK";
     chunks := Some [bytes (quoted "{'models':[]}")] |}.

Definition token_response : Response :=
  {| status := 200; statusText := "OK";
     chunks :=
       Some [bytes (quoted "{'access_token':'oauth-token','expires_in':3600}")] |}.

(** A session that holds a token fetched from an earlier token URL. *)
Definition stale_session : Provider :=
  set_tokenExpiry (Some (Int 1800000000000))
    (set_cachedToken (JStr "old-token")
       (setTokenUrl "https://old.example/token" keyed_session)).

(** [[DONE]] on a line of its own, then a record. *)
Definition done_then_record : Uint8Array :=
  bytes ("[DONE]" ++ line_feed ++ late_line ++ line_feed).

(** The beginning of a record, cut off before its line feed. *)
Definition cut_off : Uint8Array := bytes (substring 0 30 late_line).

(** A network that answers the token URL with [token] and every other
    request with [other]. *)
Definition network (token other : FetchResult) : World -> Request -> FetchResult :=
  fun _ rq => if String.eqb (url rq) token_url then token else other.

(** Every request takes 25 ms. *)
Definition latency : World -> Request -> Z := fun _ _ => 25.

(** More replies of the token URL: the value of [token_response]; a token
    as a bare JSON string; one that lives two minutes; one whose
    [expires_in] is no number. *)
Definition token_record : JsValue :=
  JObj [("access_token", JStr "oauth-token"); ("expires_in", JNum (Int 3600))].

Definition replied (text : string) : Response :=
  {| status := 200; statusText := "OK"; chunks := Some [bytes (quoted text)] |}.

Definition plain_token_response : Response := replied "'plain-token'".

Definition brief_token_response : Response :=
  replied "{'token':'brief','expires_in':120}".

Definition odd_token_response : Response :=
  replied "{'access_token':'oauth-token','expires_in':{}}".

(** The token URL answering with the empty string as token. *)
Definition empty_token_response : Response := replied "''".

(** More replies to the listing: two models, no [models] at all, and an
    entry that is [null]. *)
Definition listing : Response :=
  replied "{'models':[{'name':'codellama:7b','size':3825819519},{'name':'mistral'}]}".

Definition bare_listing : Response := replied "{}".

Definition broken_listing : Response := replied "{'models':[null]}".

(** A response with status OK and no body. *)
Definition bodiless_response : Response :=
  {| status := 200; statusText := "OK"; chunks := None |}.

(** A final record without [prompt_eval_count], and a record without
    [message]. *)
Definition short_final_line : string :=
  quoted "{'message':{'content':'bye'},'done':true,'eval_count':7}".

Definition bare_final_line : string := quoted "{'done':true}".

(** What a body delivers before the connection is lost: one record. *)
Definition first_read : list Uint8Array := [bytes (delta_line ++ line_feed)].

(** A configuration with an override for another provider and one for
    this one. *)
Definition overrides : IProviderConfig :=
  {| providerToolFormatOverrides :=
       Some [("openai", "hermes"); ("ollama", "qwen")] |}.

(** A session with a token URL, and 50 minutes after its first request. *)
Definition token_session : Provider := setTokenUrl token_url keyed_session.

Definition later : World :=
  {| now := 1700003000025;
     requests := [ {| url := token_url; method := Some "GET";
                      headers := json_headers; body := None |} ];
     console := []; emitted := [] |}.

End Sample.

(** *** Methods that talk to the network *)

Section Runtime.

(** [JSON.parse]; [None] when it throws a [SyntaxError]. *)
Variable JSON_parse : string -> option JsValue.

(** [Number(s)] for a string [s]. *)
Variable StringToNumber : string -> number.

(** The UTF-8 [TextDecoder]: a machine that takes the bytes one at a time,
    holds back the bytes of a character that is not complete yet, and gives
    out text.  [decoder_end] is what a decoding that is not streaming adds
    for the bytes held back at the end. *)
Variable Decoder : Type.
Variable decoder_start : Decoder.
Variable decoder_step : Decoder -> byte -> Decoder * string.
Variable decoder_end : Decoder -> string.

(** What [fetch] settles with, and how long that takes, for a request
    sent in a given world. *)
Variable network : World -> Request -> FetchResult.
Variable latency : World -> Request -> Z.

(** [await fetch(...)]: the request is recorded, the clock moves on, and
    a rejection is thrown.  The response comes with the exception that
    will cut its body short, if one will. *)
Definition fetch (rq : Request) : M (Response * option Exn) :=
  fun p w =>
    match network w rq with
    | Rejected e => Out (inl e) p (sent (latency w rq) rq w)
    | Resolved r => Out (inr (r, None)) p (sent (latency w rq) rq w)
    | Interrupted code reason delivered e =>
        Out (inr (cut_response code reason delivered, Some e)) p
            (sent (latency w rq) rq w)
    end.

Definition parse (s : string) : M JsValue :=
  match JSON_parse s with
  | Some v => ret v
  | None => throw SyntaxError
  end.

(** [decoder.decode(value, { stream: true })]: the decoder afterwards and
    the text given out. *)
Fixpoint decode_stream (decoder : Decoder) (value : Uint8Array)
  : Decoder * string :=
  match value with
  | [] => (decoder, "")
  | b :: rest =>
      let (decoder, head) := decoder_step decoder b in
      let (decoder, tail) := decode_stream decoder rest in
      (decoder, (head ++ tail)%string)
  end.

(** [await response.text()]: the whole body decoded. *)
Definition text (r : Response) : string :=
  match chunks r with
  | Some cs =>
      let (decoder, decoded) := decode_stream decoder_start (List.concat cs) in
      (decoded ++ decoder_end decoder)%string
  | None => ""
  end.

(** [await response.text()] reads the body to its end, and rejects when
    the body is cut short. *)
Definition read_text (r : Response) (cut : option Exn) : M string :=
  match cut with
  | Some e => throw e
  | None => ret (text r)
  end.

(** [await response.json()] *)
Definition json (r : Response) (cut : option Exn) : M JsValue :=
  match cut with
  | Some e => throw e
  | None => parse (text r)
  end.

Definition token_request (url' : string) : Request :=
  {| url := url'; method := Some "GET"; headers := json_headers;
     body := None |}.

(** The shapes of a token response: the token and [expires_in]. *)
Definition read_token (tokenData : JsValue) : M (JsValue * JsValue) :=
  match tokenData with
  | JStr _ => ret (tokenData, JUndefined)
  | _ =>
      access_token <- lift (Js.get "access_token" tokenData) ;;
      if Js.truthy access_token then
        expires_in <- lift (Js.get "expires_in" tokenData) ;;
        ret (access_token, expires_in)
      else
        token <- lift (Js.get "token" tokenData) ;;
        if Js.truthy token then
          expires_in <- lift (Js.get "expires_in" tokenData) ;;
          ret (token, expires_in)
        else throw (Error "Invalid token response format")
  end.

(** The cached token is still good at time [t], five minutes ahead. *)
Definition cache_valid (p : Provider) (t : Z) : bool :=
  Js.truthy (cachedToken p) && truthy_number (tokenExpiry p)
  && match tokenExpiry p with
     | Some (Int expiry) => t <? expiry - 300000
     | _ => false
     end.

Definition getBearerToken : M JsValue :=
  p <- this ;;
  if negb (truthy_string (tokenUrl p)) then ret (of_option (apiKey p))
  else
    t <- Date_now ;;
    if cache_valid p t then ret (cachedToken p)
    else
      try_catch
        (fetched <- fetch (token_request
                             (match tokenUrl p with Some u => u | None => "" end)) ;;
         let (response, cut) := fetched in
         if negb (Resp.ok response) then
           throw (Error ("Failed to fetch token: "
                         ++ Str.of_Z (status response) ++ " "
                         ++ statusText response)%string)
         else
           tokenData <- json response cut ;;
           found <- read_token tokenData ;;
           let (token, expiresIn) := found in
           assign (set_cachedToken token) ;;;
           (if Js.truthy expiresIn then
              t <- Date_now ;;
              seconds <- lift (Js.to_number StringToNumber expiresIn) ;;
              assign (set_tokenExpiry
                        (Some (Js.num_add (Int t)
                                 (Js.num_mul seconds (Int 1000)))))
            else
              t <- Date_now ;;
              assign (set_tokenExpiry (Some (Int (t + 3600 * 1000))))) ;;;
           ret token)
        (fun error =>
           log (console_error "Failed to fetch bearer token:" error) ;;;
           p <- this ;;
           ret (of_option (apiKey p))).

(** The headers both requests are sent with. *)
Definition request_headers : M (list (string * string)) :=
  bearerToken <- getBearerToken ;;
  if Js.truthy bearerToken then
    token <- lift (Js.to_string bearerToken) ;;
    ret (json_headers ++ [("Authorization", ("Bearer " ++ token)%string)])
  else ret json_headers.

Definition tags_request (p : Provider) (hs : list (string * string))
  : Request :=
  {| url := (baseURL p ++ "/api/tags")%string; method := None;
     headers := hs; body := None |}.

Definition to_model (entry : JsValue) : M IModel :=
  model_name <- lift (Js.get "name" entry) ;;
  key <- lift (Js.to_string model_name) ;;
  ret {| id := model_name; name := model_name; provider := provider_name;
         supportedToolFormats :=
           ["llama"; "deepseek"; "qwen"; "hermes"; "gemma"];
         contextWindow := getContextWindowForModel key;
         maxOutputTokens := 4096 |}.

Fixpoint map_models (entries : list JsValue) : M (list IModel) :=
  match entries with
  | [] => ret []
  | entry :: rest =>
      m <- to_model entry ;;
      ms <- map_models rest ;;
      ret (m :: ms)
  end.

Definition getModels : M (list IModel) :=
  try_catch
    (hs <- request_headers ;;
     p <- this ;;
     fetched <- fetch (tags_request p hs) ;;
     let (response, cut) := fetched in
     if negb (Resp.ok response) then
       throw (Error ("Failed to fetch models: " ++ statusText response)%string)
     else
       data <- json response cut ;;
       listed <- lift (Js.get "models" data) ;;
       match Js.or listed (JArr []) with
       | JArr entries => map_models entries
       | _ => throw TypeError
       end)
    (fun error =>
       log (console_warn "Failed to fetch Ollama models:" None error) ;;;
       ret default_models).

(** The body of the [for] loop of [generateChatCompletion], for one line
    that is not blank. *)
Definition decode_line (line : string) : M Control :=
  data <- parse line ;;
  done <- lift (Js.get "done" data) ;;
  if Js.truthy done then
    message <- lift (Js.get "message" data) ;;
    text <- lift (Js.get "content" message) ;;
    calls <- lift (Js.get "tool_calls" message) ;;
    prompt_eval_count <- lift (Js.get "prompt_eval_count" data) ;;
    eval_count <- lift (Js.get "eval_count" data) ;;
    total <- lift (Js.add (Js.or prompt_eval_count (JNum (Int 0)))
                          (Js.or eval_count (JNum (Int 0)))) ;;
    yield {| role := "assistant";
             content := Js.or text (JStr "");
             tool_calls := calls;
             usage := Some {| prompt_tokens :=
                                Js.or prompt_eval_count (JNum (Int 0));
                              completion_tokens :=
                                Js.or eval_count (JNum (Int 0));
                              total_tokens := total |} |} ;;;
    ret Return
  else
    message <- lift (Js.get "message" data) ;;
    text <- lift (Js.get "content" message) ;;
    calls <- lift (Js.get "tool_calls" message) ;;
    yield {| role := "assistant";
             content := Js.or text (JStr "");
             tool_calls := calls;
             usage := None |} ;;;
    ret Continue.

Definition process_line (line : string) : M Control :=
  if Str.is_blank line then ret Continue
  else
    try_catch (decode_line line)
      (fun parseError =>
         log (console_warn "Failed to parse Ollama response line:"
                (Some line) parseError) ;;;
         ret Continue).

(** [for (const line of lines)], left by [return] after a final record. *)
Fixpoint for_lines (lines : list string) : M Control :=
  match lines with
  | [] => ret Continue
  | line :: rest =>
      c <- process_line line ;;
      match c with
      | Return => ret Return
      | Continue => for_lines rest
      end
  end.

(** [while (true)] over the reads of the body; [pending] is what the
    reader has yet to deliver, [buffer] the text not yet cut into lines. *)
Fixpoint read_loop (pending : list Uint8Array) (decoder : Decoder)
  (buffer : string) : M unit :=
  match pending with
  | [] => ret tt
  | value :: later =>
      let (decoder, decoded) := decode_stream decoder value in
      let buffer := (buffer ++ decoded)%string in
      let lines := Str.split_nl buffer in
      let buffer := last lines "" in
      let lines := removelast lines in
      c <- for_lines lines ;;
      match c with
      | Return => ret tt
      | Continue => read_loop later decoder buffer
      end
  end.

Definition chat_body (p : Provider) (msgs : list IMessage)
  (tls : option (list ITool)) : OllamaChatRequest :=
  let with_tools :=
    match tls with
    | Some (_ :: _) => true
    | _ => false
    end in
  {| model := currentModel p;
     messages := map (fun msg => (role msg, content msg)) msgs;
     stream := true;
     options := {| temperature := 7 # 10; top_p := 9 # 10;
                   num_predict := 4096 |};
     tools := if with_tools then tls else None;
     tool_choice := if with_tools then Some "auto" else None |}.

(** The same loop over a body that is cut short: the read after [pending]
    rejects with [e], which leaves the loop as an exception. *)
Fixpoint read_until (pending : list Uint8Array) (decoder : Decoder)
  (buffer : string) (e : Exn) : M unit :=
  match pending with
  | [] => throw e
  | value :: later =>
      let (decoder, decoded) := decode_stream decoder value in
      let buffer := (buffer ++ decoded)%string in
      let lines := Str.split_nl buffer in
      let buffer := last lines "" in
      let lines := removelast lines in
      c <- for_lines lines ;;
      match c with
      | Return => ret tt
      | Continue => read_until later decoder buffer e
      end
  end.

(** What [generateChatCompletion] does with the response to its request. *)
Definition consume (response : Response) (cut : option Exn) : M unit :=
  if negb (Resp.ok response) then
    errorText <- read_text response cut ;;
    throw (Error ("Ollama API error: " ++ Str.of_Z (status response) ++ " "
                  ++ statusText response ++ " - " ++ errorText)%string)
  else
    match chunks response with
    | None => throw (Error "No response body from Ollama API")
    | Some pending =>
        match cut with
        | None => read_loop pending decoder_start ""
        | Some e => read_until pending decoder_start "" e
        end
    end.

Definition chat_request (p : Provider) (hs : list (string * string))
  (requestBody : OllamaChatRequest) : Request :=
  {| url := (baseURL p ++ "/api/chat")%string; method := Some "POST";
     headers := hs; body := Some requestBody |}.

(** The generator, run until it returns or throws with the caller asking
    for every message; its third parameter [_toolFormat] is not used by the
    source and is left out. *)
Definition generateChatCompletion (msgs : list IMessage)
  (tls : option (list ITool)) : M unit :=
  p0 <- this ;;
  let requestBody := chat_body p0 msgs tls in
  try_catch
    (hs <- request_headers ;;
     p <- this ;;
     fetched <- fetch (chat_request p hs requestBody) ;;
     let (response, cut) := fetched in
     consume response cut)
    (fun error =>
       log (console_error "Error in Ollama chat completion:" error) ;;;
       throw error).

(** A reply that is no listing: [fetch] rejected, or the status is not one
    of success. *)
Definition transport_failure (reply : FetchResult) : Prop :=
  match reply with
  | Rejected _ => True
  | Resolved r => Resp.ok r = false
  | Interrupted code reason delivered _ =>
      Resp.ok (cut_response code reason delivered) = false
  end.

(** *** The frames of a response body

    What the loops above do, read off the text alone: the complete lines of
    a body, the frame each line stands for, and the trace a sequence of
    lines leaves (messages yielded, console entries, whether the generator
    returned). *)

Definition complete_lines (whole : string) : list string :=
  removelast (Str.split_nl whole).

(** The text the streaming decoder gives for [value], taken up in the state
    [decoder], and the text it gives for a whole body from the start. *)
Definition decoded (decoder : Decoder) (value : Uint8Array) : string :=
  snd (decode_stream decoder value).

Definition streamed (pending : list Uint8Array) : string :=
  decoded decoder_start (List.concat pending).

Definition and_then {A B : Type} (r : Exn + A) (k : A -> Exn + B) : Exn + B :=
  match r with
  | inl e => inl e
  | inr a => k a
  end.

Notation "x <~ r ;; k" := (and_then r (fun x => k))
  (at level 61, r at next level, right associativity) : js_scope.

(** The message a line that is not blank stands for, or what reading it
    throws. *)
Definition decode (line : string) : Exn + (IMessage * Control) :=
  match JSON_parse line with
  | None => inl SyntaxError
  | Some data =>
      done <~ Js.get "done" data ;;
      message <~ Js.get "message" data ;;
      text <~ Js.get "content" message ;;
      calls <~ Js.get "tool_calls" message ;;
      if Js.truthy done then
        prompt_eval_count <~ Js.get "prompt_eval_count" data ;;
        eval_count <~ Js.get "eval_count" data ;;
        total <~ Js.add (Js.or prompt_eval_count (JNum (Int 0)))
                        (Js.or eval_count (JNum (Int 0))) ;;
        inr ({| role := "assistant";
                content := Js.or text (JStr "");
                tool_calls := calls;
                usage := Some {| prompt_tokens :=
                                   Js.or prompt_eval_count (JNum (Int 0));
                                 completion_tokens :=
                                   Js.or eval_count (JNum (Int 0));
                                 total_tokens := total |} |}, Return)
      else
        inr ({| role := "assistant";
                content := Js.or text (JStr "");
                tool_calls := calls;
                usage := None |}, Continue)
  end.

Record Trace : Type := {
  outward : list IMessage;
  warnings : list ConsoleEntry;
  control : Control
}.

Definition parse_warning (line : string) (e : Exn) : ConsoleEntry :=
  console_warn "Failed to parse Ollama response line:" (Some line) e.

Fixpoint scan (lines : list string) : Trace :=
  match lines with
  | [] => {| outward := []; warnings := []; control := Continue |}
  | line :: rest =>
      if Str.is_blank line then scan rest
      else
        match decode line with
        | inl e =>
            {| outward := outward (scan rest);
               warnings := parse_warning line e :: warnings (scan rest);
               control := control (scan rest) |}
        | inr (m, Return) =>
            {| outward := [m]; warnings := []; control := Return |}
        | inr (m, Continue) =>
            {| outward := m :: outward (scan rest);
               warnings := warnings (scan rest);
               control := control (scan rest) |}
        end
  end.

(** The [catch] of [generateChatCompletion]. *)
Definition rethrow (error : Exn) : M unit :=
  log (console_error "Error in Ollama chat completion:" error) ;;;
  throw error.

(** The reply [generateChatCompletion] gets to its request, if it comes to
    send one. *)
Definition chat_reply (msgs : list IMessage) (tls : option (list ITool))
  (p : Provider) (w : World) : option FetchResult :=
  let o := request_headers p w in
  match value o with
  | inr hs =>
      Some (network (world o)
              (chat_request (self o) hs (chat_body p msgs tls)))
  | inl _ => None
  end.

(** The reply [getModels] gets to its request, if it comes to send one. *)
Definition tags_reply (p : Provider) (w : World) : option FetchResult :=
  let o := request_headers p w in
  match value o with
  | inr hs => Some (network (world o) (tags_request (self o) hs))
  | inl _ => None
  end.

(** *** Footprints

    What a computation leaves as it was. *)

(** A footprint is a relation between the provider and world before and after
    a computation that holds when nothing happens and composes. *)
Class Footprint (R : Provider -> World -> Provider -> World -> Prop) : Prop := {
  footprint_refl : forall p w, R p w p w;
  footprint_trans : forall p w p1 w1 p2 w2,
      R p w p1 w1 -> R p1 w1 p2 w2 -> R p w p2 w2
}.

Definition respects (R : Provider -> World -> Provider -> World -> Prop)
  {A : Type} (m : M A) : Prop :=
  forall p w, R p w (self (m p w)) (world (m p w)).

(** What a token lookup may change: the cached token and its expiry in the
    provider; the clock, the request log and the console in the world. *)
Definition steady (p : Provider) (w : World) (p' : Provider) (w' : World)
  : Prop :=
  emitted w' = emitted w
  /\ baseURL p' = baseURL p /\ currentModel p' = currentModel p
  /\ config p' = config p /\ toolFormatOverride p' = toolFormatOverride p
  /\ apiKey p' = apiKey p /\ tokenUrl p' = tokenUrl p.

(** Nothing was sent, and the token URL is what it was. *)
Definition offline (p : Provider) (w : World) (p' : Provider) (w' : World)
  : Prop :=
  requests w' = requests w /\ tokenUrl p' = tokenUrl p.

(** *** Token responses and listings read as values

    The shapes [getBearerToken] accepts and the entry [getModels] makes of a
    listed name, as functions of the value alone. *)

(** The token and [expires_in] a token response carries, or what reading
    it throws. *)
Definition token_shape (tokenData : JsValue) : Exn + (JsValue * JsValue) :=
  match tokenData with
  | JStr _ => inr (tokenData, JUndefined)
  | JUndefined | JNull => inl TypeError
  | _ =>
      match Js.get "access_token" tokenData, Js.get "token" tokenData,
            Js.get "expires_in" tokenData with
      | inr access_token, inr token, inr expires_in =>
          if Js.truthy access_token then inr (access_token, expires_in)
          else if Js.truthy token then inr (token, expires_in)
          else inl (Error "Invalid token response format")
      | _, _, _ => inl TypeError
      end
  end.

(** The entry of the listing for a model whose name is the string [s]. *)
Definition listed (s : string) : IModel :=
  {| id := JStr s; name := JStr s; provider := provider_name;
     supportedToolFormats := ["llama"; "deepseek"; "qwen"; "hermes"; "gemma"];
     contextWindow := getContextWindowForModel s;
     maxOutputTokens := 4096 |}.

(** The world after the failed token fetch has been reported. *)
Definition token_failed (e : Exn) (rq : Request) (w : World) : World :=
  extend [] [console_error "Failed to fetch bearer token:" e]
    (sent (latency w rq) rq w).

(** ** Facts about strings and lines *)

Lemma append_nil_r (s : string) : (s ++ "")%string = s.
Proof. induction s as [|c s IH]; simpl; [reflexivity | now rewrite IH]. Qed.

Lemma append_assoc (a b c : string) :
  ((a ++ b) ++ c)%string = (a ++ (b ++ c))%string.
Proof. induction a as [|x a IH]; simpl; [reflexivity | now rewrite IH]. Qed.

Lemma split_nl_nonempty (s : string) : Str.split_nl s <> [].
Proof.
  destruct s as [|c s]; simpl; [discriminate|].
  destruct (Ascii.eqb c Str.nl); [discriminate|].
  destruct (Str.split_nl s); discriminate.
Qed.

(** Cutting a text in two cuts its last piece, and nothing else. *)
Lemma split_nl_app (x y : string) :
  Str.split_nl (x ++ y)
  = removelast (Str.split_nl x)
    ++ Str.split_nl (last (Str.split_nl x) "" ++ y).
Proof.
  induction x as [|c x IH].
  - reflexivity.
  - cbn [append Str.split_nl].
    destruct (Ascii.eqb c Str.nl) eqn:E.
    + rewrite IH.
      pose proof (split_nl_nonempty x) as Hne.
      destruct (Str.split_nl x) as [|h t]; [contradiction|].
      reflexivity.
    + rewrite IH.
      pose proof (split_nl_nonempty x) as Hne.
      destruct (Str.split_nl x) as [|h t]; [contradiction|].
      destruct t as [|h' t'].
      * cbn [removelast last app append Str.split_nl]. now rewrite E.
      * reflexivity.
Qed.

Lemma complete_lines_app (x y : string) :
  complete_lines (x ++ y)
  = complete_lines x ++ complete_lines (last (Str.split_nl x) "" ++ y).
Proof.
  unfold complete_lines. rewrite split_nl_app.
  apply removelast_app, split_nl_nonempty.
Qed.

(** A text without line feed is one piece. *)
Lemma split_nl_no_nl (s : string) :
  Str.no_nl s = true -> Str.split_nl s = [s].
Proof.
  induction s as [|c s IH]; intro H; [reflexivity|].
  cbn [Str.no_nl] in H. apply andb_prop in H as [Hc Hs].
  cbn [Str.split_nl]. apply negb_true_iff in Hc. rewrite Hc.
  now rewrite (IH Hs).
Qed.

Lemma split_nl_line (s : string) :
  Str.no_nl s = true -> Str.split_nl (s ++ String Str.nl "") = [s; ""].
Proof.
  induction s as [|c s IH]; intro H; [reflexivity|].
  cbn [Str.no_nl] in H. apply andb_prop in H as [Hc Hs].
  cbn [append Str.split_nl]. apply negb_true_iff in Hc. rewrite Hc.
  now rewrite (IH Hs).
Qed.

(** The last piece of a text holds no line feed. *)
Lemma last_piece_no_nl (t : string) :
  Str.no_nl (last (Str.split_nl t) "") = true.
Proof.
  induction t as [|c t IH]; [reflexivity|].
  cbn [Str.split_nl]. destruct (Ascii.eqb c Str.nl) eqn:E.
  - pose proof (split_nl_nonempty t).
    destruct (Str.split_nl t) as [|h r]; [contradiction|]. exact IH.
  - pose proof (split_nl_nonempty t).
    destruct (Str.split_nl t) as [|h r]; [contradiction|].
    destruct r as [|h' r'].
    + cbn [last] in *. cbn [Str.no_nl]. now rewrite E, IH.
    + exact IH.
Qed.

Lemma no_nl_app (a b : string) :
  Str.no_nl a = true -> Str.no_nl b = true -> Str.no_nl (a ++ b) = true.
Proof.
  induction a as [|c a IH]; intros Ha Hb; [exact Hb|].
  cbn [append Str.no_nl] in *. apply andb_prop in Ha as [Hc Ha].
  now rewrite Hc, (IH Ha Hb).
Qed.

(** Text after the last line feed adds no complete line. *)
Lemma complete_lines_tail (text tail : string) :
  Str.no_nl tail = true ->
  complete_lines (text ++ tail) = complete_lines text.
Proof.
  intro H. rewrite complete_lines_app.
  replace (complete_lines (last (Str.split_nl text) "" ++ tail))
    with (@nil string).
  - now rewrite app_nil_r.
  - unfold complete_lines.
    now rewrite (split_nl_no_nl _ (no_nl_app _ _ (last_piece_no_nl text) H)).
Qed.

(** ** Facts about the world and the loops *)

Lemma extend_nil (w : World) : extend [] [] w = w.
Proof. destruct w; unfold extend; cbn. now rewrite !app_nil_r. Qed.

Lemma extend_extend ms es ms' es' (w : World) :
  extend ms' es' (extend ms es w) = extend (ms ++ ms') (es ++ es') w.
Proof. unfold extend; cbn. now rewrite !app_assoc. Qed.

Ltac run := unfold bind, lift, ret, throw, yield, log, parse; cbn.

Lemma decode_line_decode (line : string) (p : Provider) (w : World) :
  decode_line line p w
  = match decode line with
    | inl e => Out (inl e) p w
    | inr (m, c) => Out (inr c) p (extend [m] [] w)
    end.
Proof.
  unfold decode_line, decode. run.
  destruct (JSON_parse line) as [data|]; cbn; [|reflexivity].
  destruct (Js.get "done" data) as [e|done]; cbn; [reflexivity|].
  destruct (Js.get "message" data) as [e|message] eqn:Em; cbn;
    [now destruct (Js.truthy done); cbn; rewrite ?Em|].
  destruct (Js.truthy done); cbn.
  - destruct (Js.get "content" message); cbn; [reflexivity|].
    destruct (Js.get "tool_calls" message); cbn; [reflexivity|].
    destruct (Js.get "prompt_eval_count" data); cbn; [reflexivity|].
    destruct (Js.get "eval_count" data); cbn; [reflexivity|].
    destruct (Js.add _ _); reflexivity.
  - destruct (Js.get "content" message); cbn; [reflexivity|].
    destruct (Js.get "tool_calls" message); reflexivity.
Qed.

Lemma process_line_decode (line : string) (p : Provider) (w : World) :
  process_line line p w
  = if Str.is_blank line then Out (inr Continue) p w
    else match decode line with
         | inl e => Out (inr Continue) p (extend [] [parse_warning line e] w)
         | inr (m, c) => Out (inr c) p (extend [m] [] w)
         end.
Proof.
  unfold process_line. destruct (Str.is_blank line); [reflexivity|].
  unfold try_catch. rewrite decode_line_decode.
  destruct (decode line) as [e|[m c]]; reflexivity.
Qed.

(** The [for] loop leaves the trace of its lines, and never throws. *)
Lemma for_lines_scan (lines : list string) (p : Provider) (w : World) :
  for_lines lines p w
  = Out (inr (control (scan lines))) p
        (extend (outward (scan lines)) (warnings (scan lines)) w).
Proof.
  revert w. induction lines as [|line rest IH]; intro w.
  - cbn. now rewrite extend_nil.
  - cbn [for_lines scan]. unfold bind. rewrite process_line_decode.
    destruct (Str.is_blank line); cbn; [apply IH|].
    destruct (decode line) as [e|[m [|]]]; cbn.
    + now rewrite IH, extend_extend.
    + now rewrite IH, extend_extend.
    + reflexivity.
Qed.

Lemma scan_app (l1 l2 : list string) :
  scan (l1 ++ l2)
  = match control (scan l1) with
    | Return => scan l1
    | Continue =>
        {| outward := outward (scan l1) ++ outward (scan l2);
           warnings := warnings (scan l1) ++ warnings (scan l2);
           control := control (scan l2) |}
    end.
Proof.
  induction l1 as [|line rest IH].
  - cbn. now destruct (scan l2).
  - cbn [app scan]. destruct (Str.is_blank line); [exact IH|].
    destruct (decode line) as [e|[m [|]]]; cbn; [| |reflexivity];
      rewrite IH; destruct (control (scan rest)) eqn:E; cbn; rewrite ?E;
      reflexivity.
Qed.

(** Decoding a byte array in two parts gives the text of the whole. *)
Lemma decode_stream_app (d : Decoder) (x y : Uint8Array) :
  decode_stream d (x ++ y)
  = (fst (decode_stream (fst (decode_stream d x)) y),
     (snd (decode_stream d x)
      ++ snd (decode_stream (fst (decode_stream d x)) y))%string).
Proof.
  revert d. induction x as [|b x IH]; intro d.
  - cbn. now destruct (decode_stream d y).
  - cbn [app decode_stream]. destruct (decoder_step d b) as [d1 t1].
    rewrite IH. destruct (decode_stream d1 x) as [d2 t2]. cbn.
    now rewrite append_assoc.
Qed.

Lemma decoded_app (d : Decoder) (x y : Uint8Array) :
  decoded d (x ++ y)
  = (decoded d x ++ decoded (fst (decode_stream d x)) y)%string.
Proof. unfold decoded. now rewrite decode_stream_app. Qed.

(** The [while] loop leaves the trace of the complete lines of the text the
    bytes it is given decode to, however they are cut into reads. *)
Lemma read_loop_scan (pending : list Uint8Array) (d : Decoder)
  (buffer : string) (p : Provider) (w : World) :
  let t := scan (complete_lines
                   (buffer ++ decoded d (List.concat pending))) in
  Str.no_nl buffer = true ->
  read_loop pending d buffer p w
  = Out (inr tt) p (extend (outward t) (warnings t) w).
Proof.
  cbv zeta. revert d buffer w.
  induction pending as [|chunk later IH]; intros d buffer w Hb.
  - cbn [read_loop List.concat decoded decode_stream snd].
    rewrite append_nil_r.
    unfold complete_lines. rewrite (split_nl_no_nl buffer Hb). cbn.
    now rewrite extend_nil.
  - cbn [List.concat]. rewrite decoded_app, <- append_assoc.
    rewrite complete_lines_app, scan_app.
    change (decoded d chunk) with (snd (decode_stream d chunk)).
    cbn [read_loop].
    destruct (decode_stream d chunk) as [d1 t1]. cbn [fst snd].
    unfold bind. rewrite for_lines_scan.
    cbn [value self world].
    fold (complete_lines (buffer ++ t1)).
    destruct (control (scan (complete_lines (buffer ++ t1)))) eqn:Ec.
    + rewrite IH by apply last_piece_no_nl.
      now rewrite extend_extend.
    + reflexivity.
Qed.

(** From the start and an empty buffer: the trace of the streamed text. *)
Lemma read_loop_streamed (pending : list Uint8Array) (p : Provider)
  (w : World) :
  read_loop pending decoder_start "" p w
  = Out (inr tt) p
        (extend (outward (scan (complete_lines (streamed pending))))
                (warnings (scan (complete_lines (streamed pending)))) w).
Proof. now rewrite read_loop_scan. Qed.

(** The loop over a body that is cut short leaves the same trace, and ends
    in the exception unless a line has made the generator return. *)
Lemma read_until_scan (pending : list Uint8Array) (d : Decoder)
  (buffer : string) (e : Exn) (p : Provider) (w : World) :
  let t := scan (complete_lines
                   (buffer ++ decoded d (List.concat pending))) in
  Str.no_nl buffer = true ->
  read_until pending d buffer e p w
  = Out match control t with
        | Return => inr tt
        | Continue => inl e
        end p (extend (outward t) (warnings t) w).
Proof.
  cbv zeta. revert d buffer w.
  induction pending as [|chunk later IH]; intros d buffer w Hb.
  - cbn [read_until List.concat decoded decode_stream snd].
    rewrite append_nil_r.
    unfold complete_lines. rewrite (split_nl_no_nl buffer Hb). cbn.
    now rewrite extend_nil.
  - cbn [List.concat]. rewrite decoded_app, <- append_assoc.
    rewrite complete_lines_app, scan_app.
    change (decoded d chunk) with (snd (decode_stream d chunk)).
    cbn [read_until].
    destruct (decode_stream d chunk) as [d1 t1]. cbn [fst snd].
    unfold bind. rewrite for_lines_scan.
    cbn [value self world].
    fold (complete_lines (buffer ++ t1)).
    destruct (control (scan (complete_lines (buffer ++ t1)))) eqn:Ec.
    + rewrite IH by apply last_piece_no_nl.
      cbn [control outward warnings]. now rewrite extend_extend.
    + rewrite Ec. reflexivity.
Qed.

Lemma read_until_streamed (pending : list Uint8Array) (e : Exn)
  (p : Provider) (w : World) :
  let t := scan (complete_lines (streamed pending)) in
  read_until pending decoder_start "" e p w
  = Out match control t with
        | Return => inr tt
        | Continue => inl e
        end p (extend (outward t) (warnings t) w).
Proof. cbv zeta. now rewrite read_until_scan. Qed.

Lemma streamed_app (pending later : list Uint8Array) :
  streamed (pending ++ later)
  = (streamed pending
     ++ decoded (fst (decode_stream decoder_start (List.concat pending)))
          (List.concat later))%string.
Proof. unfold streamed. now rewrite concat_app, decoded_app. Qed.

(** ** Facts about the requests *)

#[local] Instance steady_footprint : Footprint steady.
Proof.
  split.
  - repeat split.
  - unfold steady. intros.
    repeat match goal with H : _ /\ _ |- _ => destruct H end.
    repeat split; congruence.
Qed.

#[local] Instance offline_footprint : Footprint offline.
Proof.
  split.
  - now split.
  - unfold offline. intros.
    repeat match goal with H : _ /\ _ |- _ => destruct H end.
    split; congruence.
Qed.

Section Footprints.

Context (R : Provider -> World -> Provider -> World -> Prop) `{Footprint R}.

Lemma respects_ret {A} (a : A) : respects R (ret a).
Proof. intros p w. apply footprint_refl. Qed.

Lemma respects_throw {A} (e : Exn) : respects R (@throw A e).
Proof. intros p w. apply footprint_refl. Qed.

Lemma respects_lift {A} (r : Exn + A) : respects R (lift r).
Proof. destruct r; [apply respects_throw | apply respects_ret]. Qed.

Lemma respects_this : respects R this.
Proof. intros p w. apply footprint_refl. Qed.

Lemma respects_Date_now : respects R Date_now.
Proof. intros p w. apply footprint_refl. Qed.

Lemma respects_parse (text : string) : respects R (parse text).
Proof.
  unfold parse.
  destruct (JSON_parse text); [apply respects_ret | apply respects_throw].
Qed.

Lemma respects_bind {A B} (m : M A) (k : A -> M B) :
  respects R m -> (forall a, respects R (k a)) -> respects R (bind m k).
Proof.
  intros Hm Hk p w. unfold bind. specialize (Hm p w).
  destruct (m p w) as [[e|a] p1 w1]; cbn in *; [exact Hm|].
  eapply footprint_trans; [exact Hm | apply Hk].
Qed.

Lemma respects_try_catch {A} (body : M A) (handler : Exn -> M A) :
  respects R body -> (forall e, respects R (handler e)) ->
  respects R (try_catch body handler).
Proof.
  intros Hm Hk p w. unfold try_catch. specialize (Hm p w).
  destruct (body p w) as [[e|a] p1 w1]; cbn in *; [|exact Hm].
  eapply footprint_trans; [exact Hm | apply Hk].
Qed.

End Footprints.

Lemma steady_log (entry : ConsoleEntry) : respects steady (log entry).
Proof. intros p w. repeat split. cbn. apply app_nil_r. Qed.

Lemma steady_fetch (rq : Request) : respects steady (fetch rq).
Proof. intros p w. unfold fetch. destruct (network w rq); repeat split. Qed.

Lemma steady_set_cachedToken (v : JsValue) :
  respects steady (assign (set_cachedToken v)).
Proof. intros p w. repeat split. Qed.

Lemma steady_set_tokenExpiry (e : option number) :
  respects steady (assign (set_tokenExpiry e)).
Proof. intros p w. repeat split. Qed.

Lemma offline_log (entry : ConsoleEntry) : respects offline (log entry).
Proof. intros p w. now split. Qed.

Lemma offline_set_cachedToken (v : JsValue) :
  respects offline (assign (set_cachedToken v)).
Proof. intros p w. now split. Qed.

Lemma offline_set_tokenExpiry (e : option number) :
  respects offline (assign (set_tokenExpiry e)).
Proof. intros p w. now split. Qed.

Ltac respects_step :=
  first
    [ apply respects_ret; exact _
    | apply respects_throw; exact _
    | apply respects_lift; exact _
    | apply respects_this; exact _
    | apply respects_Date_now; exact _
    | apply respects_parse; exact _
    | apply steady_log | apply steady_fetch
    | apply steady_set_cachedToken | apply steady_set_tokenExpiry
    | apply offline_log
    | apply offline_set_cachedToken | apply offline_set_tokenExpiry
    | apply respects_bind; [exact _ | | intro]
    | apply respects_try_catch; [exact _ | | intro]
    | match goal with
      | |- respects _ (if ?b then _ else _) => destruct b
      | |- respects _ (match ?x with _ => _ end) => destruct x
      | |- respects _ (let (_, _) := ?x in _) => destruct x
      end ].

Lemma steady_read_token (tokenData : JsValue) :
  respects steady (read_token tokenData).
Proof. unfold read_token. repeat respects_step. Qed.

Lemma offline_read_token (tokenData : JsValue) :
  respects offline (read_token tokenData).
Proof. unfold read_token. repeat respects_step. Qed.

Lemma keeps_getBearerToken : respects steady getBearerToken.
Proof.
  unfold getBearerToken, json.
  repeat first [apply steady_read_token | respects_step].
Qed.

Lemma keeps_request_headers : respects steady request_headers.
Proof.
  unfold request_headers.
  repeat first [apply keeps_getBearerToken | respects_step].
Qed.

(** Resolving the bearer token never throws. *)
Lemma getBearerToken_returns (p : Provider) (w : World) :
  exists v, value (getBearerToken p w) = inr v.
Proof.
  unfold getBearerToken. unfold bind at 1. unfold this at 1. cbn.
  destruct (negb (truthy_string (tokenUrl p))); [now eexists|].
  unfold bind at 1. unfold Date_now at 1. cbn.
  destruct (cache_valid p (now w)); [now eexists|].
  unfold try_catch.
  match goal with
  | |- context [match value ?o with _ => _ end] =>
      destruct o as [[e|v] p1 w1]
  end; cbn; now eexists.
Qed.

(** [generateChatCompletion], by what becomes of its request. *)
Lemma generateChatCompletion_reply (msgs : list IMessage)
  (tls : option (list ITool)) (p : Provider) (w : World) :
  generateChatCompletion msgs tls p w
  = let o := request_headers p w in
    match value o with
    | inl e => rethrow e (self o) (world o)
    | inr hs =>
        let rq := chat_request (self o) hs (chat_body p msgs tls) in
        let w1 := sent (latency (world o) rq) rq (world o) in
        match network (world o) rq with
        | Rejected e => rethrow e (self o) w1
        | Resolved r => try_catch (consume r None) rethrow (self o) w1
        | Interrupted code reason delivered e =>
            try_catch (consume (cut_response code reason delivered) (Some e))
              rethrow (self o) w1
        end
    end.
Proof.
  unfold generateChatCompletion, rethrow, try_catch, bind, this, fetch.
  cbn [value self world].
  destruct (request_headers p w) as [[e|hs] p1 w1]; cbn [value self world];
    [reflexivity|].
  destruct (network w1 _); reflexivity.
Qed.

Lemma consume_stream (r : Response) (pending : list Uint8Array)
  (p : Provider) (w : World) :
  Resp.ok r = true -> chunks r = Some pending ->
  consume r None p w
  = Out (inr tt) p
        (extend (outward (scan (complete_lines (streamed pending))))
                (warnings (scan (complete_lines (streamed pending))))
                w).
Proof.
  intros Hok Hbody. unfold consume. rewrite Hok, Hbody. cbn [negb].
  apply read_loop_streamed.
Qed.

(** [generateChatCompletion], by what it is answered: every way it can end,
    with the provider and the world it leaves. *)
Lemma generateChatCompletion_outcome (msgs : list IMessage)
  (tls : option (list ITool)) (p : Provider) (w : World) :
  generateChatCompletion msgs tls p w
  = let o := request_headers p w in
    let failed e w' :=
      Out (inl e) (self o)
          (extend [] [console_error "Error in Ollama chat completion:" e] w')
    in
    match value o with
    | inl e => failed e (world o)
    | inr hs =>
        let rq := chat_request (self o) hs (chat_body p msgs tls) in
        let w1 := sent (latency (world o) rq) rq (world o) in
        match network (world o) rq with
        | Rejected e => failed e w1
        | Resolved r =>
            if negb (Resp.ok r) then
              failed (Error ("Ollama API error: " ++ Str.of_Z (status r)
                             ++ " " ++ statusText r ++ " - " ++ text r)%string)
                     w1
            else
              match chunks r with
              | None => failed (Error "No response body from Ollama API") w1
              | Some pending =>
                  let t := scan (complete_lines (streamed pending)) in
                  Out (inr tt) (self o) (extend (outward t) (warnings t) w1)
              end
        | Interrupted code reason delivered e =>
            if negb (Resp.ok (cut_response code reason delivered)) then
              failed e w1
            else
              let t := scan (complete_lines (streamed delivered)) in
              match control t with
              | Return =>
                  Out (inr tt) (self o) (extend (outward t) (warnings t) w1)
              | Continue =>
                  failed e (extend (outward t) (warnings t) w1)
              end
        end
    end.
Proof.
  rewrite generateChatCompletion_reply. cbv zeta.
  destruct (value (request_headers p w)) as [e|hs]; [reflexivity|].
  destruct (network _ _) as [e|r|code reason delivered e]; [reflexivity| |].
  - unfold try_catch, consume.
    destruct (negb (Resp.ok r)); [reflexivity|].
    destruct (chunks r) as [pending|]; [|reflexivity].
    now rewrite read_loop_streamed.
  - unfold try_catch, consume.
    destruct (negb (Resp.ok (cut_response code reason delivered)));
      [reflexivity|].
    cbn [chunks cut_response]. rewrite read_until_streamed. cbv zeta.
    destruct (control (scan (complete_lines (streamed delivered))));
      reflexivity.
Qed.

Lemma decode_usage (line : string) (m : IMessage) (c : Control) :
  decode line = inr (m, c) ->
  (c = Continue /\ usage m = None) \/ (c = Return /\ usage m <> None).
Proof.
  unfold decode, and_then.
  destruct (JSON_parse line) as [data|]; [|discriminate].
  destruct (Js.get "done" data) as [|done]; [discriminate|].
  destruct (Js.get "message" data) as [|message]; [discriminate|].
  destruct (Js.get "content" message); [discriminate|].
  destruct (Js.get "tool_calls" message); [discriminate|].
  destruct (Js.truthy done).
  - destruct (Js.get "prompt_eval_count" data); [discriminate|].
    destruct (Js.get "eval_count" data); [discriminate|].
    destruct (Js.add _ _); [discriminate|].
    intro H; inversion H; subst. right. split; [reflexivity|discriminate].
  - intro H; inversion H; subst. left. now split.
Qed.

(** In a trace, a message with usage is the last one. *)
Lemma scan_usage_last (lines : list string) (front back : list IMessage)
  (m : IMessage) :
  outward (scan lines) = front ++ m :: back -> usage m <> None -> back = [].
Proof.
  revert front. induction lines as [|line rest IH]; intros front H Hu.
  - destruct front; discriminate H.
  - cbn [scan] in H. destruct (Str.is_blank line); [now apply (IH front)|].
    destruct (decode line) as [e|[m' c]] eqn:Ed; [now apply (IH front)|].
    destruct (decode_usage _ _ _ Ed) as [[-> Hm']|[-> Hm']]; cbn in H.
    + destruct front as [|x front]; cbn in H; inversion H; subst.
      * contradiction.
      * now apply (IH front).
    + destruct front as [|x front]; cbn in H; inversion H; subst.
      * reflexivity.
      * destruct front; discriminate.
Qed.

Lemma prefix_app (n rest : string) : prefix n (n ++ rest) = true.
Proof.
  induction n as [|c n IH]; cbn.
  - now destruct rest.
  - destruct (ascii_dec c c); [exact IH | contradiction].
Qed.

Lemma prefix_inv (n h : string) :
  prefix n h = true -> exists rest, h = (n ++ rest)%string.
Proof.
  revert h. induction n as [|c n IH]; intros h H.
  - now exists h.
  - destruct h as [|d h]; [discriminate|]. cbn in H.
    destruct (ascii_dec c d) as [->|]; [|discriminate].
    destruct (IH h H) as [rest ->]. now exists rest.
Qed.

(** [includes] decides [contains]. *)
Lemma includes_contains (n h : string) :
  Str.includes n h = true <-> Str.contains n h.
Proof.
  split.
  - induction h as [|c h IH]; cbn [Str.includes]; intro H.
    + destruct (prefix_inv _ _ H) as [rest E]. now exists "", rest.
    + apply orb_true_iff in H as [H|H].
      * destruct (prefix_inv _ _ H) as [rest E]. now exists "", rest.
      * destruct (IH H) as (before & after & ->).
        now exists (String c before), after.
  - intros (before & after & ->).
    induction before as [|c before IH].
    + cbn [append]. destruct (n ++ after)%string eqn:E.
      * destruct n; [reflexivity | discriminate].
      * cbn [Str.includes]. rewrite <- E, prefix_app. reflexivity.
    + cbn [append Str.includes]. rewrite IH. apply orb_true_r.
Qed.

(** The first entry under a key, and the entries before it. *)
Lemma assoc_first {A} (key : string) (fields : list (string * A)) (v : A) :
  Js.assoc key fields = Some v
  <-> exists before after,
        fields = before ++ (key, v) :: after /\ ~ In key (map fst before).
Proof.
  split.
  - induction fields as [|[k x] rest IH]; [discriminate|].
    cbn [Js.assoc]. destruct (String.eqb k key) eqn:E.
    + intro H. injection H as ->. apply String.eqb_eq in E. subst k.
      now exists [], rest.
    + intro H. destruct (IH H) as (before & after & -> & Hn).
      exists ((k, x) :: before), after. split; [reflexivity|].
      cbn. intros [->|Hin]; [|contradiction].
      now rewrite String.eqb_refl in E.
  - intros (before & after & -> & Hn).
    induction before as [|[k x] before IH]; cbn [app Js.assoc].
    + now rewrite String.eqb_refl.
    + destruct (String.eqb k key) eqn:E.
      * apply String.eqb_eq in E. subst k. destruct Hn. now left.
      * apply IH. intro Hin. apply Hn. now right.
Qed.

(** What [config_override] finds is what the configuration supplies. *)
Lemma config_override_configured (p : Provider) (f : ToolFormat) :
  config_override p = Some f <-> configured p f.
Proof.
  unfold config_override, configured. split.
  - destruct (config p) as [cfg|]; [|discriminate].
    destruct (providerToolFormatOverrides cfg) as [overrides|] eqn:Eo;
      [|discriminate].
    intro H. apply assoc_first in H as (before & after & -> & Hn).
    now exists cfg, before, after.
  - intros (cfg & before & after & -> & -> & Hn).
    apply assoc_first. now exists before, after.
Qed.

Lemma chat_reply_resolved msgs tls p w r :
  chat_reply msgs tls p w = Some (Resolved r) ->
  exists hs,
    value (request_headers p w) = inr hs
    /\ generateChatCompletion msgs tls p w
       = try_catch (consume r None) rethrow (self (request_headers p w))
           (sent (latency (world (request_headers p w))
                    (chat_request (self (request_headers p w)) hs
                       (chat_body p msgs tls)))
                 (chat_request (self (request_headers p w)) hs
                    (chat_body p msgs tls))
                 (world (request_headers p w))).
Proof.
  intro H. rewrite generateChatCompletion_reply. unfold chat_reply in H.
  cbv zeta in *. destruct (value (request_headers p w)) as [e|hs];
    [discriminate|].
  exists hs. split; [reflexivity|]. inversion H as [H']. now rewrite H'.
Qed.

(** A line that leaves no message and does not end the loop can be dropped
    from the lines without changing what is yielded. *)
Lemma scan_drop (pre post : list string) (line : string) :
  outward (scan [line]) = [] -> control (scan [line]) = Continue ->
  outward (scan (pre ++ line :: post)) = outward (scan (pre ++ post))
  /\ control (scan (pre ++ line :: post)) = control (scan (pre ++ post)).
Proof.
  intros Ho Hc. rewrite !scan_app.
  destruct (control (scan pre)); [|now split].
  change (line :: post) with ([line] ++ post). rewrite scan_app, Hc, Ho.
  now split.
Qed.

Lemma scan_unparsed (line : string) :
  JSON_parse line = None ->
  outward (scan [line]) = [] /\ control (scan [line]) = Continue.
Proof.
  intro H. cbn [scan]. destruct (Str.is_blank line); [now split|].
  unfold decode. rewrite H. now split.
Qed.

Lemma bind_this {A} (k : Provider -> M A) (p : Provider) (w : World) :
  bind this k p w = k p p w.
Proof. reflexivity. Qed.

Lemma bind_Date_now {A} (k : Z -> M A) (p : Provider) (w : World) :
  bind Date_now k p w = k (now w) p w.
Proof. reflexivity. Qed.

(** A guarded [fetch] whose continuation and handler send nothing sends
    exactly its own request. *)
Lemma try_fetch_offline {A} (rq : Request)
  (k : Response * option Exn -> M A)
  (h : Exn -> M A) (p : Provider) (w : World) :
  (forall r, respects offline (k r)) ->
  (forall e, respects offline (h e)) ->
  requests (world (try_catch (bind (fetch rq) k) h p w)) = requests w ++ [rq]
  /\ tokenUrl (self (try_catch (bind (fetch rq) k) h p w)) = tokenUrl p.
Proof.
  intros Hk Hh. unfold try_catch, bind, fetch.
  set (w1 := sent (latency w rq) rq w).
  assert (Hgot : forall fetched,
             let o := k fetched p w1 in
             requests (world match value o with
                             | inl e => h e (self o) (world o)
                             | inr _ => o
                             end) = requests w ++ [rq]
             /\ tokenUrl (self match value o with
                               | inl e => h e (self o) (world o)
                               | inr _ => o
                               end) = tokenUrl p).
  { intro fetched. cbv zeta. pose proof (Hk fetched p w1) as Hkr.
    destruct (k fetched p w1) as [[e|v] p2 w2]; cbn [value self world] in *.
    - destruct Hkr as [H1 H2]. destruct (Hh e p2 w2) as [-> ->].
      now rewrite H1, H2.
    - destruct Hkr as [-> ->]. now split. }
  destruct (network w rq) as [e|r|code reason delivered e];
    cbn [value self world].
  - destruct (Hh e p w1) as [-> ->]. now split.
  - apply Hgot.
  - apply Hgot.
Qed.

(** A token lookup that finds the cache good answers from it and touches
    nothing. *)
Lemma getBearerToken_cached (p : Provider) (w : World) :
  truthy_string (tokenUrl p) = true -> cache_valid p (now w) = true ->
  getBearerToken p w = Out (inr (cachedToken p)) p w.
Proof.
  intros Hu Hc. unfold getBearerToken. rewrite bind_this, Hu. cbn [negb].
  now rewrite bind_Date_now, Hc.
Qed.

(** A token lookup that finds the cache wanting sends one request, to the
    token URL. *)
Lemma getBearerToken_fetches (p : Provider) (w : World) (url' : string) :
  tokenUrl p = Some url' -> url' <> "" -> cache_valid p (now w) = false ->
  requests (world (getBearerToken p w)) = requests w ++ [token_request url']
  /\ tokenUrl (self (getBearerToken p w)) = Some url'.
Proof.
  intros Hu Hne Hc. unfold getBearerToken. rewrite bind_this, Hu.
  assert (Ht : truthy_string (Some url') = true).
  { cbn. apply negb_true_iff, String.eqb_neq, Hne. }
  rewrite Ht. cbn [negb]. rewrite bind_Date_now, Hc.
  match goal with
  | |- context [try_catch (bind (fetch ?rq) ?k) ?h] =>
      destruct (try_fetch_offline rq k h p w) as [H1 H2]
  end.
  - intro r. unfold json.
    repeat first [apply offline_read_token | respects_step].
  - intro e. repeat respects_step.
  - rewrite H1, H2, Hu. now split.
Qed.

(** [getModels] never throws. *)
Lemma getModels_returns (p : Provider) (w : World) :
  exists ms, value (getModels p w) = inr ms.
Proof.
  unfold getModels, try_catch.
  match goal with
  | |- context [match value ?o with _ => _ end] =>
      destruct o as [[e|ms] p1 w1]
  end; cbn; now eexists.
Qed.

(** ** The claims *)

(** C1.  When the body of the chat response decodes to two lines, each a
    record, the first with [done: false] and the second with [done: true],
    [prompt_eval_count: 62] and [eval_count: 23], [generateChatCompletion]
    yields two messages and returns; the second one carries the usage
    [{prompt_tokens: 62, completion_tokens: 23, total_tokens: 85}], read
    from the [done: true] record.  This holds however the bytes of the body
    are cut into reads. *)
Theorem usage_from_final_record
  (msgs : list IMessage) (tls : option (list ITool)) (p : Provider)
  (w : World) (r : Response) (pending : list Uint8Array)
  (line1 line2 : string) (record1 record2 message1 message2 : list (string * JsValue)) :
  chat_reply msgs tls p w = Some (Resolved r) ->
  Resp.ok r = true ->
  chunks r = Some pending ->
  complete_lines (streamed pending) = [line1; line2] ->
  Str.is_blank line1 = false ->
  JSON_parse line1 = Some (JObj record1) ->
  Js.field "done" record1 = JBool false ->
  Js.field "message" record1 = JObj message1 ->
  Str.is_blank line2 = false ->
  JSON_parse line2 = Some (JObj record2) ->
  Js.field "done" record2 = JBool true ->
  Js.field "message" record2 = JObj message2 ->
  Js.field "prompt_eval_count" record2 = JNum (Int 62) ->
  Js.field "eval_count" record2 = JNum (Int 23) ->
  let out := generateChatCompletion msgs tls p w in
  value out = inr tt
  /\ emitted (world out)
     = emitted w
       ++ [ {| role := "assistant";
               content := Js.or (Js.field "content" message1) (JStr "");
               tool_calls := Js.field "tool_calls" message1;
               usage := None |};
            {| role := "assistant";
               content := Js.or (Js.field "content" message2) (JStr "");
               tool_calls := Js.field "tool_calls" message2;
               usage := Some {| prompt_tokens := JNum (Int 62);
                                completion_tokens := JNum (Int 23);
                                total_tokens := JNum (Int 85) |} |} ].
Proof.
  intros Hreply Hok Hbody Hlines Hb1 Hp1 Hd1 Hm1 Hb2 Hp2 Hd2 Hm2 Hpe Hec.
  cbv zeta.
  destruct (chat_reply_resolved _ _ _ _ _ Hreply) as (hs & Hhs & ->).
  unfold try_catch. rewrite (consume_stream r pending _ _ Hok Hbody).
  cbn [value self world]. rewrite Hlines.
  assert (E1 : decode line1
               = inr ({| role := "assistant";
                         content := Js.or (Js.field "content" message1) (JStr "");
                         tool_calls := Js.field "tool_calls" message1;
                         usage := None |}, Continue)).
  { unfold decode. rewrite Hp1. cbn. now rewrite Hd1, Hm1. }
  assert (E2 : decode line2
               = inr ({| role := "assistant";
                         content := Js.or (Js.field "content" message2) (JStr "");
                         tool_calls := Js.field "tool_calls" message2;
                         usage := Some {| prompt_tokens := JNum (Int 62);
                                          completion_tokens := JNum (Int 23);
                                          total_tokens := JNum (Int 85) |} |},
                      Return)).
  { unfold decode. rewrite Hp2. cbn. now rewrite Hd2, Hm2, Hpe, Hec. }
  cbn [scan]. rewrite Hb1, Hb2, E1, E2. cbn.
  split; [reflexivity|].
  now destruct (keeps_request_headers p w) as [-> _].
Qed.

(** C2.  When the chat request is answered with a status outside 200..299,
    [generateChatCompletion] throws an [Error] whose message holds the
    status code, the reason phrase and the text of the response body; no
    message is yielded, and the request is sent once, not again. *)
Theorem chat_error_on_bad_status
  (msgs : list IMessage) (tls : option (list ITool)) (p : Provider)
  (w : World) (r : Response) :
  chat_reply msgs tls p w = Some (Resolved r) ->
  ~ (200 <= status r <= 299) ->
  let out := generateChatCompletion msgs tls p w in
  let message := ("Ollama API error: " ++ Str.of_Z (status r) ++ " "
                  ++ statusText r ++ " - " ++ text r)%string in
  value out = inl (Error message)
  /\ Str.contains (Str.of_Z (status r)) message
  /\ Str.contains (statusText r) message
  /\ Str.contains (text r) message
  /\ emitted (world out) = emitted w
  /\ exists rq,
       url rq = (baseURL p ++ "/api/chat")%string
       /\ requests (world out)
          = requests (world (request_headers p w)) ++ [rq].
Proof.
  intros Hreply Hstatus out message.
  assert (H1 : Str.contains (Str.of_Z (status r)) message).
  { now exists "Ollama API error: ",
               (" " ++ statusText r ++ " - " ++ text r)%string. }
  assert (H2 : Str.contains (statusText r) message).
  { exists ("Ollama API error: " ++ Str.of_Z (status r) ++ " ")%string,
           (" - " ++ text r)%string.
    unfold message. now rewrite !append_assoc. }
  assert (H3 : Str.contains (text r) message).
  { exists ("Ollama API error: " ++ Str.of_Z (status r) ++ " "
            ++ statusText r ++ " - ")%string, "".
    unfold message. now rewrite !append_assoc, append_nil_r. }
  assert (Hok : Resp.ok r = false).
  { unfold Resp.ok. apply andb_false_iff.
    destruct (Z.leb_spec 200 (status r)); [|now left].
    destruct (Z.leb_spec (status r) 299); [|now right]. lia. }
  subst out.
  destruct (chat_reply_resolved _ _ _ _ _ Hreply) as (hs & Hhs & ->).
  unfold try_catch, consume. rewrite Hok.
  destruct (keeps_request_headers p w) as (He & Hb & _).
  cbn [negb]. unfold rethrow, bind, log, throw. cbn [value self world].
  repeat split; try assumption.
  - cbn. now rewrite !app_nil_r.
  - eexists. split; [|reflexivity]. cbn. now rewrite Hb.
Qed.

(** C3.  A line that [JSON.parse] rejects is skipped: it yields no message
    and does not end the loop, and the lines around it are processed as if
    it were not there; the loop does not throw. *)
Theorem malformed_line_skipped
  (bad : string) (pre post : list string) (p : Provider) (w : World) :
  JSON_parse bad = None ->
  emitted (world (process_line bad p w)) = emitted w
  /\ value (process_line bad p w) = inr Continue
  /\ emitted (world (for_lines (pre ++ bad :: post) p w))
     = emitted (world (for_lines (pre ++ post) p w))
  /\ value (for_lines (pre ++ bad :: post) p w)
     = value (for_lines (pre ++ post) p w)
  /\ exists c, value (for_lines (pre ++ bad :: post) p w) = inr c.
Proof.
  intro H. destruct (scan_unparsed bad H) as [Ho Hc].
  destruct (scan_drop pre post bad Ho Hc) as [Ho' Hc'].
  rewrite process_line_decode, !for_lines_scan. cbn [value self world].
  rewrite Ho', Hc'. unfold decode. rewrite H.
  repeat split; try (destruct (Str.is_blank bad); cbn; now rewrite ?app_nil_r).
  now eexists.
Qed.

(** C4.  The bytes of the reads go through one streaming decoder and the
    text is joined in the buffer before it is cut into lines: the loop does
    to the reads what the [for] loop does to the complete lines of the text
    of the whole byte sequence.  So two ways of cutting the same bytes into
    reads give the same outcome; a line that spans two reads is decoded as
    one line; and bytes at the end that bring no line feed are dropped, the
    loop returning without an exception. *)
Theorem chunking_irrelevant
  (pending pending' : list Uint8Array) (tail : Uint8Array)
  (p : Provider) (w : World) :
  List.concat pending = List.concat pending' ->
  Str.no_nl (decoded (fst (decode_stream decoder_start (List.concat pending)))
               tail) = true ->
  read_loop pending decoder_start "" p w
  = read_loop pending' decoder_start "" p w
  /\ read_loop pending decoder_start "" p w
     = (for_lines (complete_lines (streamed pending)) ;;; ret tt) p w
  /\ (forall first second line,
        streamed [first; second] = (line ++ String Str.nl "")%string ->
        Str.no_nl line = true ->
        read_loop [first; second] decoder_start "" p w
        = (process_line line ;;; ret tt) p w)
  /\ read_loop (pending ++ [tail]) decoder_start "" p w
     = read_loop pending decoder_start "" p w
  /\ value (read_loop (pending ++ [tail]) decoder_start "" p w) = inr tt.
Proof.
  intros Hbytes Htail.
  assert (Hloop : forall cs,
             read_loop cs decoder_start "" p w
             = (for_lines (complete_lines (streamed cs)) ;;; ret tt) p w).
  { intro cs. rewrite read_loop_streamed.
    unfold bind. rewrite for_lines_scan. reflexivity. }
  repeat split.
  - rewrite !Hloop. unfold streamed. now rewrite Hbytes.
  - apply Hloop.
  - intros first second line Htext Hline. rewrite Hloop, Htext.
    unfold complete_lines. rewrite (split_nl_line _ Hline).
    cbn [removelast for_lines]. unfold bind.
    destruct (process_line line p w) as [[e|[|]] p1 w1]; reflexivity.
  - rewrite !Hloop, streamed_app. cbn [List.concat]. rewrite app_nil_r.
    now rewrite complete_lines_tail.
  - now rewrite read_loop_streamed.
Qed.

(** C5 (amended).  The line [[DONE]] is no JSON: it is skipped like any
    line that does not parse.  It yields no message, it is reported on the
    console, and it does not end the stream: the loop goes on with the
    lines after it as if it were not there, and a body with the line
    yields what the body without it yields. *)
Theorem done_marker_skipped
  (pre post : list string) (p : Provider) (w : World) :
  JSON_parse "[DONE]" = None ->
  process_line "[DONE]" p w
  = Out (inr Continue) p
        (extend [] [parse_warning "[DONE]" SyntaxError] w)
  /\ emitted (world (for_lines (pre ++ "[DONE]" :: post) p w))
     = emitted (world (for_lines (pre ++ post) p w))
  /\ value (for_lines (pre ++ "[DONE]" :: post) p w)
     = value (for_lines (pre ++ post) p w)
  /\ (forall pending pending',
        complete_lines (streamed pending) = pre ++ "[DONE]" :: post ->
        complete_lines (streamed pending') = pre ++ post ->
        emitted (world (read_loop pending decoder_start "" p w))
        = emitted (world (read_loop pending' decoder_start "" p w))
        /\ value (read_loop pending decoder_start "" p w)
           = value (read_loop pending' decoder_start "" p w)).
Proof.
  intro H. destruct (scan_unparsed "[DONE]" H) as [Ho Hc].
  destruct (scan_drop pre post "[DONE]" Ho Hc) as [Ho' Hc'].
  rewrite process_line_decode, !for_lines_scan. cbn [value self world].
  rewrite Ho', Hc'. unfold decode. rewrite H.
  split; [reflexivity|]. split; [reflexivity|]. split; [reflexivity|].
  intros pending pending' Hl Hl'. rewrite !read_loop_streamed, Hl, Hl'.
  cbn [value self world extend emitted]. now rewrite Ho'.
Qed.

(** C9.  A message that carries usage is the last thing
    [generateChatCompletion] yields: the line that yields it leaves the
    [for] loop by [return], the lines after it in the same read are not
    looked at (no message, no console entry), and no further read is
    made. *)
Theorem final_record_ends_stream :
  (forall msgs tls p w,
      exists new,
        emitted (world (generateChatCompletion msgs tls p w)) = emitted w ++ new
        /\ forall front m back,
             new = front ++ m :: back -> usage m <> None -> back = [])
  /\ (forall line p w m,
         emitted (world (process_line line p w)) = emitted w ++ [m] ->
         usage m <> None ->
         value (process_line line p w) = inr Return)
  /\ (forall lines later p w,
         value (for_lines lines p w) = inr Return ->
         for_lines (lines ++ later) p w = for_lines lines p w)
  /\ (forall pending later p w,
         value (for_lines (complete_lines (streamed pending)) p w)
         = inr Return ->
         read_loop (pending ++ later) decoder_start "" p w
         = read_loop pending decoder_start "" p w).
Proof.
  repeat split.
  - intros msgs tls p w. rewrite generateChatCompletion_outcome. cbv zeta.
    destruct (keeps_request_headers p w) as (He & _).
    assert (Hnone : forall fetched (v : Exn + unit) entries (w' : World),
               emitted w' = emitted w ->
               exists new,
                 emitted (world (Out v fetched (extend [] entries w')))
                 = emitted w ++ new
                 /\ forall front m back,
                      new = front ++ m :: back -> usage m <> None -> back = []).
    { intros fetched v entries w' Hw'. exists []. split.
      - cbn. now rewrite !app_nil_r, Hw'.
      - intros [|] ? ? ?; discriminate. }
    assert (Hsome : forall fetched (v : Exn + unit) lines entries (w' : World),
               emitted w' = emitted w ->
               exists new,
                 emitted (world (Out v fetched
                                   (extend [] entries
                                      (extend (outward (scan lines))
                                         (warnings (scan lines)) w'))))
                 = emitted w ++ new
                 /\ forall front m back,
                      new = front ++ m :: back -> usage m <> None -> back = []).
    { intros fetched v lines entries w' Hw'.
      exists (outward (scan lines)). split.
      - cbn. now rewrite !app_nil_r, Hw'.
      - intros front m back. apply scan_usage_last. }
    destruct (value (request_headers p w)) as [e|hs]; [now apply Hnone|].
    match goal with
    | |- context [network ?w ?rq] =>
        destruct (network w rq) as [e|r|code reason delivered e]
    end; [now apply Hnone| |].
    + destruct (negb (Resp.ok r)) eqn:Hok; [now apply Hnone|].
      destruct (chunks r) as [cs|]; [|now apply Hnone].
      eexists. split.
      * cbn. rewrite He. reflexivity.
      * intros front m back. apply scan_usage_last.
    + destruct (negb (Resp.ok (cut_response code reason delivered)));
        [now apply Hnone|].
      destruct (control (scan (complete_lines (streamed delivered))));
        [now apply Hsome|].
      eexists. split.
      * cbn. rewrite He. reflexivity.
      * intros front m back. apply scan_usage_last.
  - intros line p w m. rewrite process_line_decode.
    destruct (Str.is_blank line).
    + cbn. intros H _. rewrite <- (app_nil_r (emitted w)) in H at 1.
      apply app_inv_head in H. discriminate.
    + destruct (decode line) as [e|[m' c]] eqn:Ed; cbn.
      * intros H _. rewrite <- (app_nil_r (emitted w)) in H at 2.
        rewrite app_nil_r in H. rewrite <- (app_nil_r (emitted w)) in H at 1.
        apply app_inv_head in H. discriminate.
      * intros H Hu. apply app_inv_head in H. inversion H; subst.
        destruct (decode_usage _ _ _ Ed) as [[_ Hn]|[-> _]];
          [contradiction | reflexivity].
  - intros lines later p w H. rewrite for_lines_scan in H.
    cbn [value] in H. injection H as H'.
    rewrite !for_lines_scan, scan_app, H'. now rewrite H'.
  - intros pending later p w H. rewrite for_lines_scan in H.
    cbn [value] in H. injection H as H'.
    rewrite !read_loop_streamed, streamed_app.
    rewrite complete_lines_app, scan_app, H'. reflexivity.
Qed.

(** C6.  When the listing request fails in transport ([fetch] rejects, or
    the status is not one of success), [getModels] does not throw: it
    returns the built-in catalogue, which has six entries.  ([getModels]
    throws in no case at all.) *)
Theorem models_fallback (p : Provider) (w : World) (reply : FetchResult) :
  tags_reply p w = Some reply ->
  transport_failure reply ->
  value (getModels p w) = inr default_models
  /\ default_models <> []
  /\ List.length default_models = 6%nat
  /\ forall p' w', exists ms, value (getModels p' w') = inr ms.
Proof.
  intros Hreply Hfail.
  repeat split; [|discriminate|apply getModels_returns].
  unfold tags_reply in Hreply. cbv zeta in Hreply.
  unfold getModels, try_catch, bind, this, fetch. cbn [value self world].
  destruct (request_headers p w) as [[e|hs] p1 w1]; cbn [value self world] in *;
    [discriminate|].
  injection Hreply as Hreply. rewrite Hreply.
  destruct reply as [e|r|code reason delivered e]; cbn [value self world];
    [reflexivity| |]; cbn in Hfail; rewrite Hfail; reflexivity.
Qed.

(** C7.  [getToolFormat] resolves the tool format in a fixed order, the
    first candidate present winning: the manual override, the configured
    override for this provider, the first of [llama], [deepseek], [qwen],
    [hermes], [gemma] that occurs in the current model id, and [llama]
    when there is none.  Step by step: a manual override that is set is
    the answer; when none is set, the override the configuration supplies
    for ["ollama"] is the answer; when that is not set either, the answer
    is the first family of the table whose name occurs in the model id,
    and [llama] when no name of the table occurs in it. *)
Theorem tool_format_resolution (p : Provider) :
  getToolFormat p = resolveToolFormat p
  /\ (forall f,
        toolFormatOverride p = Some f -> f <> "" -> getToolFormat p = f)
  /\ (unset (toolFormatOverride p) ->
      (forall f, configured p f -> f <> "" -> getToolFormat p = f)
      /\ ((forall f, configured p f -> f = "") ->
          (forall family,
              first_family (currentModel p) family ->
              getToolFormat p = family)
          /\ (no_family (currentModel p) -> getToolFormat p = "llama"))).
Proof.
  split; [|split].
  - unfold getToolFormat, resolveToolFormat, when_set, family_of,
      known_families, default_format.
    destruct (toolFormatOverride p) as [f|];
      cbn [truthy_string of_option Js.truthy].
    + destruct (negb (f =? "")%string) eqn:E; cbn [first_match];
        [reflexivity|].
      destruct (config_override p) as [g|];
        cbn [truthy_string of_option Js.truthy].
      * destruct (negb (g =? "")%string); cbn [first_match find];
          [reflexivity|].
        repeat (match goal with
                | |- context [Str.includes ?a ?b] =>
                    destruct (Str.includes a b)
                end; cbn [first_match find]; try reflexivity).
      * cbn [first_match find].
        repeat (match goal with
                | |- context [Str.includes ?a ?b] =>
                    destruct (Str.includes a b)
                end; cbn [first_match find]; try reflexivity).
    + cbn [first_match].
      destruct (config_override p) as [g|];
        cbn [truthy_string of_option Js.truthy].
      * destruct (negb (g =? "")%string); cbn [first_match find];
          [reflexivity|].
        repeat (match goal with
                | |- context [Str.includes ?a ?b] =>
                    destruct (Str.includes a b)
                end; cbn [first_match find]; try reflexivity).
      * cbn [first_match find].
        repeat (match goal with
                | |- context [Str.includes ?a ?b] =>
                    destruct (Str.includes a b)
                end; cbn [first_match find]; try reflexivity).
  - intros f Hf Hne. unfold getToolFormat. rewrite Hf. cbn.
    apply String.eqb_neq in Hne. now rewrite Hne.
  - intro Hmanual.
    assert (Hm : truthy_string (toolFormatOverride p) = false).
    { destruct Hmanual as [-> | ->]; reflexivity. }
    split.
    + intros f Hc Hne. apply config_override_configured in Hc.
      unfold getToolFormat. rewrite Hm, Hc. cbn.
      apply String.eqb_neq in Hne. now rewrite Hne.
    + intro Hnone.
      assert (Hc : truthy_string (config_override p) = false).
      { destruct (config_override p) as [g|] eqn:Eg; [|reflexivity].
        apply config_override_configured in Eg.
        now rewrite (Hnone g Eg). }
      assert (Hin : forall g,
                 Str.includes g (currentModel p) = true
                 <-> Str.contains g (currentModel p))
        by (intro g; apply includes_contains).
      assert (Hout : forall g,
                 ~ Str.contains g (currentModel p) ->
                 Str.includes g (currentModel p) = false).
      { intros g Hg. destruct (Str.includes g (currentModel p)) eqn:E;
          [|reflexivity]. now apply Hin in E. }
      unfold getToolFormat. rewrite Hm, Hc. split.
      * intros family (before & after & Ht & Hhere & Hbefore).
        apply Hin in Hhere. unfold known_families in Ht.
        destruct before as [|g1 before]; cbn [app] in Ht;
          [injection Ht as <- _; now rewrite Hhere|].
        injection Ht as <- Ht.
        rewrite (Hout "llama") by (apply Hbefore; now left).
        destruct before as [|g2 before]; cbn [app] in Ht;
          [injection Ht as <- _; now rewrite Hhere|].
        injection Ht as <- Ht.
        rewrite (Hout "deepseek") by (apply Hbefore; right; now left).
        destruct before as [|g3 before]; cbn [app] in Ht;
          [injection Ht as <- _; now rewrite Hhere|].
        injection Ht as <- Ht.
        rewrite (Hout "qwen") by (apply Hbefore; right; right; now left).
        destruct before as [|g4 before]; cbn [app] in Ht;
          [injection Ht as <- _; now rewrite Hhere|].
        injection Ht as <- Ht.
        rewrite (Hout "hermes")
          by (apply Hbefore; right; right; right; now left).
        destruct before as [|g5 before]; cbn [app] in Ht;
          [injection Ht as <- _; now rewrite Hhere|].
        injection Ht as <- Ht. now destruct before.
      * intro Hno.
        rewrite !Hout
          by (apply Hno; repeat first [left; reflexivity | right]).
        reflexivity.
Qed.

(** C8.  With a token URL configured, a token request that finds no good
    token in the cache sends one request to the token URL.  If a token is
    cached afterwards, a following request made while the clock is below
    the expiry less five minutes returns that token and does nothing else:
    no request, no change to the provider or the world; so the two requests
    together sent one.  A following request made at or past that time sends
    a new request to the token URL. *)
Theorem token_cached_within_window
  (p : Provider) (w w2 : World) (url' : string) (token : JsValue)
  (expiry : Z) :
  tokenUrl p = Some url' -> url' <> "" ->
  cache_valid p (now w) = false ->
  let first := getBearerToken p w in
  cachedToken (self first) = token -> Js.truthy token = true ->
  tokenExpiry (self first) = Some (Int expiry) ->
  requests w2 = requests (world first) -> 0 <= now w2 ->
  requests (world first) = requests w ++ [token_request url']
  /\ (now w2 < expiry - 300000 ->
        getBearerToken (self first) w2 = Out (inr token) (self first) w2
        /\ requests w2 = requests w ++ [token_request url'])
  /\ (expiry - 300000 <= now w2 ->
        requests (world (getBearerToken (self first) w2))
        = requests w ++ [token_request url'; token_request url']).
Proof.
  intros Hu Hne Hc first Htok Htruthy Hexp Hreq Hnow.
  destruct (getBearerToken_fetches p w url' Hu Hne Hc) as [Hsent Hu'].
  fold first in Hsent, Hu'.
  split; [exact Hsent|]. split.
  - intro Hin. split; [|now rewrite Hreq].
    rewrite getBearerToken_cached; [now rewrite Htok| |].
    + rewrite Hu'. cbn. apply negb_true_iff, String.eqb_neq, Hne.
    + unfold cache_valid. rewrite Htok, Htruthy, Hexp. cbn.
      apply andb_true_iff. split.
      * apply negb_true_iff, Z.eqb_neq. lia.
      * apply Z.ltb_lt. exact Hin.
  - intro Hout.
    destruct (getBearerToken_fetches (self first) w2 url' Hu' Hne) as [-> _].
    + unfold cache_valid. rewrite Hexp.
      apply andb_false_iff. right. apply Z.ltb_ge. exact Hout.
    + rewrite Hreq, Hsent, <- app_assoc. reflexivity.
Qed.

(** C10 (amended).  [setTokenUrl] stores the URL and clears the cached
    token and its expiry as [clearCachedToken] does, whatever they were, so
    the next token request cannot answer from a token fetched before.  When
    the new URL is not empty that request sends a request to it; when it is
    the empty string no request is sent and the static API key is the
    answer. *)
Theorem setTokenUrl_clears_cache (url' : string) (p : Provider) (w : World) :
  let p' := setTokenUrl url' p in
  cachedToken p' = JUndefined
  /\ tokenExpiry p' = None
  /\ tokenUrl p' = Some url'
  /\ p' = clearCachedToken (set_tokenUrl (Some url') p)
  /\ (forall token expiry,
        setTokenUrl url' (set_tokenExpiry expiry (set_cachedToken token p)) = p')
  /\ (url' <> "" ->
        requests (world (getBearerToken p' w))
        = requests w ++ [token_request url'])
  /\ (url' = "" ->
        getBearerToken p' w = Out (inr (of_option (apiKey p))) p' w).
Proof.
  cbv zeta. repeat split.
  - intro Hne. now apply getBearerToken_fetches.
  - intros ->. reflexivity.
Qed.

(** ** Further facts about the token lookup *)

Lemma read_token_shape (tokenData : JsValue) (p : Provider) (w : World) :
  read_token tokenData p w = lift (token_shape tokenData) p w.
Proof.
  destruct tokenData as [| |b|n|s|items|fields]; try reflexivity;
    unfold read_token, token_shape, bind, lift, ret, throw; cbn;
    repeat match goal with
           | |- context [Js.truthy ?x] => destruct (Js.truthy x)
           end; reflexivity.
Qed.

Lemma bind_returned {A B} (m : M A) (k : A -> M B) p w v p1 w1 :
  m p w = Out (inr v) p1 w1 -> bind m k p w = k v p1 w1.
Proof. intro H. unfold bind. now rewrite H. Qed.

Lemma bind_threw {A B} (m : M A) (k : A -> M B) p w e p1 w1 :
  m p w = Out (inl e) p1 w1 -> bind m k p w = Out (inl e) p1 w1.
Proof. intro H. unfold bind. now rewrite H. Qed.

Lemma try_returned {A} (body : M A) (h : Exn -> M A) p w v p1 w1 :
  body p w = Out (inr v) p1 w1 -> try_catch body h p w = Out (inr v) p1 w1.
Proof. intro H. unfold try_catch. now rewrite H. Qed.

Lemma try_threw {A} (body : M A) (h : Exn -> M A) p w e p1 w1 :
  body p w = Out (inl e) p1 w1 -> try_catch body h p w = h e p1 w1.
Proof. intro H. unfold try_catch. now rewrite H. Qed.

(** The token lookup when the cache is wanting, by what comes back. *)
Lemma getBearerToken_refresh (p : Provider) (w : World) (url' : string) :
  tokenUrl p = Some url' -> url' <> "" -> cache_valid p (now w) = false ->
  getBearerToken p w
  = let rq := token_request url' in
    let w1 := sent (latency w rq) rq w in
    let fallback e :=
      Out (inr (of_option (apiKey p))) p (token_failed e rq w) in
    match network w rq with
    | Rejected e => fallback e
    | Resolved r =>
        if negb (Resp.ok r) then
          fallback (Error ("Failed to fetch token: " ++ Str.of_Z (status r)
                           ++ " " ++ statusText r)%string)
        else
          match JSON_parse (text r) with
          | None => fallback SyntaxError
          | Some tokenData =>
              match token_shape tokenData with
              | inl e => fallback e
              | inr (token, expiresIn) =>
                  if Js.truthy expiresIn then
                    match Js.to_number StringToNumber expiresIn with
                    | inl e =>
                        Out (inr (of_option (apiKey p)))
                            (set_cachedToken token p) (token_failed e rq w)
                    | inr seconds =>
                        Out (inr token)
                            (set_tokenExpiry
                               (Some (Js.num_add (Int (now w1))
                                        (Js.num_mul seconds (Int 1000))))
                               (set_cachedToken token p))
                            w1
                    end
                  else
                    Out (inr token)
                        (set_tokenExpiry (Some (Int (now w1 + 3600 * 1000)))
                           (set_cachedToken token p))
                        w1
              end
          end
    | Interrupted code reason delivered e =>
        if negb (Resp.ok (cut_response code reason delivered)) then
          fallback (Error ("Failed to fetch token: " ++ Str.of_Z code
                           ++ " " ++ reason)%string)
        else fallback e
    end.
Proof.
  intros Hu Hne Hc. unfold getBearerToken. rewrite bind_this, Hu.
  assert (Ht : truthy_string (Some url') = true).
  { cbn. apply negb_true_iff, String.eqb_neq, Hne. }
  rewrite Ht. cbn [negb]. rewrite bind_Date_now, Hc. cbv zeta.
  set (rq := token_request url'). set (w1 := sent (latency w rq) rq w).
  unfold token_failed. fold w1.
  assert (Hh : forall e q,
             apiKey q = apiKey p ->
             (log (console_error "Failed to fetch bearer token:" e) ;;;
              q' <- this ;; ret (of_option (apiKey q'))) q w1
             = Out (inr (of_option (apiKey p))) q
                   (extend [] [console_error "Failed to fetch bearer token:" e]
                      w1)).
  { intros e q Hq. unfold bind, log, this, ret. cbn. now rewrite Hq. }
  destruct (network w rq) as [e|r|code reason delivered e] eqn:Hn;
    [| |assert (Hf : fetch rq p w
                    = Out (inr (cut_response code reason delivered, Some e))
                          p w1)
         by (unfold fetch; now rewrite Hn);
       destruct (negb (Resp.ok (cut_response code reason delivered))) eqn:Hok;
       (erewrite try_threw; [now apply Hh|]);
       (erewrite bind_returned by exact Hf); cbv beta iota; rewrite Hok;
       reflexivity].
  - erewrite try_threw; [now apply Hh|].
    apply bind_threw. unfold fetch. now rewrite Hn.
  - assert (Hf : fetch rq p w = Out (inr (r, None)) p w1).
    { unfold fetch. now rewrite Hn. }
    destruct (negb (Resp.ok r)) eqn:Hok.
    + erewrite try_threw; [now apply Hh|].
      erewrite bind_returned by exact Hf. cbv beta iota. now rewrite Hok.
    + unfold json, parse.
      destruct (JSON_parse (text r)) as [tokenData|] eqn:Hj.
      * destruct (token_shape tokenData) as [e|[token expiresIn]] eqn:Hs.
        -- erewrite try_threw; [now apply Hh|].
           erewrite bind_returned by exact Hf. cbv beta iota. rewrite Hok, Hj.
           erewrite bind_returned by reflexivity.
           apply bind_threw. now rewrite read_token_shape, Hs.
        -- destruct (Js.truthy expiresIn) eqn:He.
           ++ destruct (Js.to_number StringToNumber expiresIn)
                as [e|seconds] eqn:Hnum.
              ** erewrite try_threw; [now apply Hh|].
                 erewrite bind_returned by exact Hf. cbv beta iota. rewrite Hok, Hj.
                 erewrite bind_returned by reflexivity.
                 erewrite bind_returned
                   by now rewrite read_token_shape, Hs.
                 cbv beta iota.
                 erewrite bind_returned by reflexivity.
                 rewrite He. apply bind_threw.
                 rewrite bind_Date_now. apply bind_threw.
                 now rewrite Hnum.
              ** apply try_returned.
                 erewrite bind_returned by exact Hf. cbv beta iota. rewrite Hok, Hj.
                 erewrite bind_returned by reflexivity.
                 erewrite bind_returned
                   by now rewrite read_token_shape, Hs.
                 cbv beta iota.
                 erewrite bind_returned by reflexivity.
                 rewrite He.
                 erewrite bind_returned; [reflexivity|].
                 rewrite bind_Date_now.
                 erewrite bind_returned by now rewrite Hnum.
                 reflexivity.
           ++ apply try_returned.
              erewrite bind_returned by exact Hf. cbv beta iota. rewrite Hok, Hj.
              erewrite bind_returned by reflexivity.
              erewrite bind_returned
                by now rewrite read_token_shape, Hs.
              cbv beta iota.
              erewrite bind_returned by reflexivity.
              rewrite He.
              erewrite bind_returned; [reflexivity|].
              now rewrite bind_Date_now.
      * erewrite try_threw; [now apply Hh|].
        erewrite bind_returned by exact Hf. cbv beta iota. rewrite Hok, Hj.
        now apply bind_threw.
Qed.

(** ** Further facts about the listing *)

(** Making the entries of the listing touches nothing. *)
Lemma to_model_outcome (entry : JsValue) (p : Provider) (w : World) :
  to_model entry p w
  = Out match Js.get "name" entry with
        | inl e => inl e
        | inr model_name =>
            match Js.to_string model_name with
            | inl e => inl e
            | inr key =>
                inr {| id := model_name; name := model_name;
                       provider := provider_name;
                       supportedToolFormats :=
                         ["llama"; "deepseek"; "qwen"; "hermes"; "gemma"];
                       contextWindow := getContextWindowForModel key;
                       maxOutputTokens := 4096 |}
            end
        end p w.
Proof.
  unfold to_model, bind, lift, ret, throw.
  destruct (Js.get "name" entry) as [e|model_name]; [reflexivity|].
  cbn [value self world].
  destruct (Js.to_string model_name) as [e|key]; reflexivity.
Qed.

Lemma map_models_pure (entries : list JsValue) (p : Provider) (w : World) :
  map_models entries p w = Out (value (map_models entries p w)) p w.
Proof.
  induction entries as [|entry rest IH]; [reflexivity|].
  cbn [map_models]. unfold bind. rewrite to_model_outcome.
  cbn [value self world].
  destruct (Js.get "name" entry) as [e|model_name]; [reflexivity|].
  destruct (Js.to_string model_name) as [e|key]; [reflexivity|].
  rewrite IH. cbn [value self world].
  destruct (value (map_models rest p w)); reflexivity.
Qed.

Lemma map_models_cons (entry : JsValue) (rest : list JsValue)
  (p : Provider) (w : World) :
  value (map_models (entry :: rest) p w)
  = match Js.get "name" entry with
    | inl e => inl e
    | inr model_name =>
        match Js.to_string model_name with
        | inl e => inl e
        | inr key =>
            match value (map_models rest p w) with
            | inl e => inl e
            | inr ms =>
                inr ({| id := model_name; name := model_name;
                        provider := provider_name;
                        supportedToolFormats :=
                          ["llama"; "deepseek"; "qwen"; "hermes"; "gemma"];
                        contextWindow := getContextWindowForModel key;
                        maxOutputTokens := 4096 |} :: ms)
            end
        end
    end.
Proof.
  cbn [map_models]. unfold bind. rewrite to_model_outcome.
  cbn [value self world].
  destruct (Js.get "name" entry) as [e|model_name]; [reflexivity|].
  destruct (Js.to_string model_name) as [e|key]; [reflexivity|].
  rewrite (map_models_pure rest). cbn [value self world].
  destruct (value (map_models rest p w)); reflexivity.
Qed.

(** The outcome of [getModels] when it falls back on the catalogue. *)
Lemma models_fallback_outcome (e : Exn) (p : Provider) (w : World) :
  (log (console_warn "Failed to fetch Ollama models:" None e) ;;;
   ret default_models) p w
  = Out (inr default_models) p
        (extend [] [console_warn "Failed to fetch Ollama models:" None e] w).
Proof. reflexivity. Qed.

(** [getModels], by what becomes of its request. *)
Lemma getModels_reply (p : Provider) (w : World) :
  getModels p w
  = let o := request_headers p w in
    let fallback e w' :=
      Out (inr default_models) (self o)
          (extend [] [console_warn "Failed to fetch Ollama models:" None e] w')
    in
    match value o with
    | inl e => fallback e (world o)
    | inr hs =>
        let rq := tags_request (self o) hs in
        let w1 := sent (latency (world o) rq) rq (world o) in
        match network (world o) rq with
        | Rejected e => fallback e w1
        | Resolved r =>
            if negb (Resp.ok r) then
              fallback (Error ("Failed to fetch models: "
                               ++ statusText r)%string) w1
            else
              match JSON_parse (text r) with
              | None => fallback SyntaxError w1
              | Some data =>
                  match Js.get "models" data with
                  | inl e => fallback e w1
                  | inr found =>
                      match Js.or found (JArr []) with
                      | JArr entries =>
                          match value (map_models entries (self o) w1) with
                          | inl e => fallback e w1
                          | inr ms => Out (inr ms) (self o) w1
                          end
                      | _ => fallback TypeError w1
                      end
                  end
              end
        | Interrupted code reason delivered e =>
            if negb (Resp.ok (cut_response code reason delivered)) then
              fallback (Error ("Failed to fetch models: " ++ reason)%string)
                       w1
            else fallback e w1
        end
    end.
Proof.
  unfold getModels. cbv zeta.
  destruct (request_headers p w) as [[e|hs] p1 w0] eqn:Hh;
    cbn [value self world].
  - erewrite try_threw; [reflexivity|]. now apply bind_threw.
  - set (rq := tags_request p1 hs). set (w1 := sent (latency w0 rq) rq w0).
    destruct (network w0 rq) as [e|r|code reason delivered e] eqn:Hn.
    + erewrite try_threw; [reflexivity|].
      erewrite bind_returned by exact Hh. rewrite bind_this.
      apply bind_threw. unfold fetch. fold rq. now rewrite Hn.
    + assert (Hf : fetch rq p1 w0 = Out (inr (r, None)) p1 w1).
      { unfold fetch. now rewrite Hn. }
      destruct (negb (Resp.ok r)) eqn:Hok.
      * erewrite try_threw; [reflexivity|].
        erewrite bind_returned by exact Hh. rewrite bind_this.
        erewrite bind_returned by exact Hf. cbv beta iota.
        now rewrite Hok.
      * unfold json, parse.
        destruct (JSON_parse (text r)) as [data|] eqn:Hj.
        -- destruct (Js.get "models" data) as [e|found] eqn:Hg.
           ++ erewrite try_threw; [reflexivity|].
              erewrite bind_returned by exact Hh. rewrite bind_this.
              erewrite bind_returned by exact Hf. cbv beta iota.
              rewrite Hok, Hj.
              erewrite bind_returned by reflexivity.
              apply bind_threw. now rewrite Hg.
           ++ destruct (Js.or found (JArr []))
                as [| |b|n|str|entries|fields] eqn:Hor;
                try (erewrite try_threw; [reflexivity|];
                     erewrite bind_returned by exact Hh; rewrite bind_this;
                     erewrite bind_returned by exact Hf; cbv beta iota;
                     rewrite Hok, Hj;
                     erewrite bind_returned by reflexivity;
                     erewrite bind_returned by (now rewrite Hg);
                     now rewrite Hor).
              destruct (value (map_models entries p1 w1)) as [e|ms] eqn:Hm.
              ** erewrite try_threw; [reflexivity|].
                 erewrite bind_returned by exact Hh. rewrite bind_this.
                 erewrite bind_returned by exact Hf. cbv beta iota.
                 rewrite Hok, Hj.
                 erewrite bind_returned by reflexivity.
                 erewrite bind_returned by (now rewrite Hg).
                 now rewrite Hor, map_models_pure, Hm.
              ** apply try_returned.
                 erewrite bind_returned by exact Hh. rewrite bind_this.
                 erewrite bind_returned by exact Hf. cbv beta iota.
                 rewrite Hok, Hj.
                 erewrite bind_returned by reflexivity.
                 erewrite bind_returned by (now rewrite Hg).
                 now rewrite Hor, map_models_pure, Hm.
        -- erewrite try_threw; [reflexivity|].
           erewrite bind_returned by exact Hh. rewrite bind_this.
           erewrite bind_returned by exact Hf. cbv beta iota.
           rewrite Hok, Hj.
           now apply bind_threw.
    + assert (Hf : fetch rq p1 w0
                   = Out (inr (cut_response code reason delivered, Some e))
                         p1 w1).
      { unfold fetch. now rewrite Hn. }
      destruct (negb (Resp.ok (cut_response code reason delivered))) eqn:Hok;
        (erewrite try_threw; [reflexivity|]);
        (erewrite bind_returned by exact Hh); rewrite bind_this;
        (erewrite bind_returned by exact Hf); cbv beta iota; rewrite Hok;
        reflexivity.
Qed.

(** ** Further properties of the provider *)

(** X1.  When the token URL cannot give a token (the request is rejected,
    the status is not one of success, the body is no JSON, or it has none
    of the accepted shapes), the token lookup answers with the static API
    key, leaves the provider and its cache as they were, and reports the
    failure on the console; the one request stays in the log. *)
Theorem token_fetch_failure_falls_back
  (p : Provider) (w : World) (url' : string) :
  tokenUrl p = Some url' -> url' <> "" -> cache_valid p (now w) = false ->
  let rq := token_request url' in
  let answer e := Out (inr (of_option (apiKey p))) p (token_failed e rq w) in
  (forall e, network w rq = Rejected e -> getBearerToken p w = answer e)
  /\ (forall r,
        network w rq = Resolved r -> Resp.ok r = false ->
        getBearerToken p w
        = answer (Error ("Failed to fetch token: " ++ Str.of_Z (status r)
                         ++ " " ++ statusText r)%string))
  /\ (forall r,
        network w rq = Resolved r -> Resp.ok r = true ->
        JSON_parse (text r) = None ->
        getBearerToken p w = answer SyntaxError)
  /\ (forall r tokenData e,
        network w rq = Resolved r -> Resp.ok r = true ->
        JSON_parse (text r) = Some tokenData ->
        token_shape tokenData = inl e ->
        getBearerToken p w = answer e).
Proof.
  intros Hu Hne Hc rq answer.
  rewrite (getBearerToken_refresh p w url' Hu Hne Hc). cbv zeta. fold rq.
  repeat split.
  - intros e ->. reflexivity.
  - intros r -> ->. reflexivity.
  - intros r -> -> ->. reflexivity.
  - intros r tokenData e -> -> -> ->. reflexivity.
Qed.

(** X2.  A token response of an accepted shape makes the lookup return the
    token and cache it.  The expiry is the clock reading when the response
    arrived plus one hour when [expires_in] is absent, zero or otherwise
    falsy, and plus [expires_in] seconds when that is an integer other
    than zero, the clock reading, the milliseconds and their sum being
    safe integers (so that the sum of the code is the exact one). *)
Theorem token_fetched_and_cached
  (p : Provider) (w : World) (url' : string) (r : Response)
  (tokenData token expiresIn : JsValue) :
  tokenUrl p = Some url' -> url' <> "" -> cache_valid p (now w) = false ->
  network w (token_request url') = Resolved r -> Resp.ok r = true ->
  JSON_parse (text r) = Some tokenData ->
  token_shape tokenData = inr (token, expiresIn) ->
  let rq := token_request url' in
  let arrived := now w + latency w rq in
  (Js.truthy expiresIn = false ->
     getBearerToken p w
     = Out (inr token)
           (set_tokenExpiry (Some (Int (arrived + 3600000)))
              (set_cachedToken token p))
           (sent (latency w rq) rq w))
  /\ (forall n, expiresIn = JNum (Int n) -> n <> 0 ->
        Js.safe_integer arrived -> Js.safe_integer (n * 1000) ->
        Js.safe_integer (arrived + n * 1000) ->
        getBearerToken p w
        = Out (inr token)
              (set_tokenExpiry (Some (Int (arrived + n * 1000)))
                 (set_cachedToken token p))
              (sent (latency w rq) rq w)).
Proof.
  intros Hu Hne Hc Hn Hok Hj Hs rq arrived. subst rq arrived.
  rewrite (getBearerToken_refresh p w url' Hu Hne Hc). cbv zeta.
  rewrite Hn, Hok, Hj, Hs. cbn [negb]. split.
  - intros ->. reflexivity.
  - intros n -> Hz _ _ _. cbn [Js.truthy].
    apply Z.eqb_neq in Hz. rewrite Hz. reflexivity.
Qed.

(** X3.  The shapes of a token response: a JSON string is the token as it
    is (the empty string too) and carries no expiry; in an object a truthy
    [access_token] is taken before [token]; [expires_in] is read beside
    either; an object with neither, a number, a boolean or an array is an
    invalid format; [null] makes the read throw a [TypeError]. *)
Theorem token_response_shapes (p : Provider) (w : World) :
  (forall s, read_token (JStr s) p w = Out (inr (JStr s, JUndefined)) p w)
  /\ (forall fields,
        Js.truthy (Js.field "access_token" fields) = true ->
        read_token (JObj fields) p w
        = Out (inr (Js.field "access_token" fields,
                    Js.field "expires_in" fields)) p w)
  /\ (forall fields,
        Js.truthy (Js.field "access_token" fields) = false ->
        Js.truthy (Js.field "token" fields) = true ->
        read_token (JObj fields) p w
        = Out (inr (Js.field "token" fields,
                    Js.field "expires_in" fields)) p w)
  /\ (forall fields,
        Js.truthy (Js.field "access_token" fields) = false ->
        Js.truthy (Js.field "token" fields) = false ->
        read_token (JObj fields) p w
        = Out (inl (Error "Invalid token response format")) p w)
  /\ (forall n b items,
        read_token (JNum n) p w
        = Out (inl (Error "Invalid token response format")) p w
        /\ read_token (JBool b) p w
           = Out (inl (Error "Invalid token response format")) p w
        /\ read_token (JArr items) p w
           = Out (inl (Error "Invalid token response format")) p w)
  /\ read_token JNull p w = Out (inl TypeError) p w.
Proof.
  repeat split; intros; rewrite read_token_shape; cbn;
    repeat match goal with H : Js.truthy _ = _ |- _ => rewrite H end;
    reflexivity.
Qed.

(** X4.  A token that came without [expires_in] is cached with an expiry
    one hour after its response arrived.  When the token is truthy (not
    the empty string) it is served from the cache, nothing being sent or
    changed, as long as the clock, read at zero or more, is below the
    arrival plus fifty-five minutes, and fetched again from then on.  When
    the token is the empty string it is cached too and never served: every
    later lookup fetches again. *)
Theorem token_default_lifetime
  (p : Provider) (w w2 : World) (url' : string) (r : Response)
  (tokenData token expiresIn : JsValue) :
  tokenUrl p = Some url' -> url' <> "" -> cache_valid p (now w) = false ->
  network w (token_request url') = Resolved r -> Resp.ok r = true ->
  JSON_parse (text r) = Some tokenData ->
  token_shape tokenData = inr (token, expiresIn) ->
  Js.truthy expiresIn = false ->
  let rq := token_request url' in
  let arrived := now w + latency w rq in
  let first := getBearerToken p w in
  cachedToken (self first) = token
  /\ tokenExpiry (self first) = Some (Int (arrived + 3600000))
  /\ (Js.truthy token = true -> 0 <= now w2 ->
      now w2 < arrived + 3300000 ->
      getBearerToken (self first) w2 = Out (inr token) (self first) w2)
  /\ (arrived + 3300000 <= now w2 ->
      requests (world (getBearerToken (self first) w2))
      = requests w2 ++ [rq])
  /\ (Js.truthy token = false ->
      requests (world (getBearerToken (self first) w2))
      = requests w2 ++ [rq]).
Proof.
  intros Hu Hne Hc Hn Hok Hj Hs He rq arrived first.
  assert (Hfirst : self first
                   = set_tokenExpiry (Some (Int (arrived + 3600 * 1000)))
                       (set_cachedToken token p)).
  { unfold first. rewrite (getBearerToken_refresh p w url' Hu Hne Hc).
    cbv zeta. now rewrite Hn, Hok, Hj, Hs, He. }
  rewrite Hfirst. split; [reflexivity|]. split; [reflexivity|].
  split; [|split].
  - intros Ht Hnow Hw. rewrite getBearerToken_cached; [reflexivity| |].
    + cbn. rewrite Hu. cbn. apply negb_true_iff, String.eqb_neq, Hne.
    + unfold cache_valid. cbn. rewrite Ht. cbn.
      apply andb_true_iff. split.
      * apply negb_true_iff, Z.eqb_neq. lia.
      * apply Z.ltb_lt. lia.
  - intro Hw. apply getBearerToken_fetches; [exact Hu | exact Hne |].
    unfold cache_valid. cbn. apply andb_false_iff. right.
    apply Z.ltb_ge. lia.
  - intro Ht. apply getBearerToken_fetches; [exact Hu | exact Hne |].
    unfold cache_valid. cbn [cachedToken set_cachedToken set_tokenExpiry].
    now rewrite Ht.
Qed.

(** X5.  A token whose [expires_in] is 300 seconds or less is never served
    from the cache: with the five minutes of margin it is already stale
    when it arrives, and every later lookup fetches again. *)
Theorem short_lived_token_refetched
  (p : Provider) (w w2 : World) (url' : string) (r : Response)
  (tokenData token : JsValue) (n : Z) :
  tokenUrl p = Some url' -> url' <> "" -> cache_valid p (now w) = false ->
  network w (token_request url') = Resolved r -> Resp.ok r = true ->
  JSON_parse (text r) = Some tokenData ->
  token_shape tokenData = inr (token, JNum (Int n)) ->
  n <> 0 -> n <= 300 ->
  let first := getBearerToken p w in
  now (world first) <= now w2 ->
  requests (world (getBearerToken (self first) w2))
  = requests w2 ++ [token_request url'].
Proof.
  intros Hu Hne Hc Hn Hok Hj Hs Hz Hshort first.
  assert (Hfirst :
            first
            = Out (inr token)
                  (set_tokenExpiry
                     (Some (Int (now w + latency w (token_request url')
                                 + n * 1000)))
                     (set_cachedToken token p))
                  (sent (latency w (token_request url'))
                     (token_request url') w)).
  { unfold first. rewrite (getBearerToken_refresh p w url' Hu Hne Hc).
    cbv zeta. rewrite Hn, Hok, Hj, Hs. cbn [negb Js.truthy].
    apply Z.eqb_neq in Hz. now rewrite Hz. }
  rewrite Hfirst. cbn [self world sent now]. intro Hw.
  apply getBearerToken_fetches; [exact Hu | exact Hne |].
  unfold cache_valid. cbn [tokenExpiry set_tokenExpiry].
  apply andb_false_iff. right. apply Z.ltb_ge. lia.
Qed.

(** X6.  After [clearCachedToken] the next token lookup goes to the token
    URL whatever the clock reads; clearing keeps the URL and the static
    key, and clearing twice is clearing once. *)
Theorem clearCachedToken_forces_fetch
  (p : Provider) (w : World) (url' : string) :
  tokenUrl p = Some url' -> url' <> "" ->
  requests (world (getBearerToken (clearCachedToken p) w))
  = requests w ++ [token_request url']
  /\ tokenUrl (clearCachedToken p) = tokenUrl p
  /\ apiKey (clearCachedToken p) = apiKey p
  /\ clearCachedToken (clearCachedToken p) = clearCachedToken p.
Proof.
  intros Hu Hne. repeat split.
  now apply getBearerToken_fetches.
Qed.

(** X7.  The token lookup never throws.  What it returns is the token that
    was in the cache, or the static API key, or the token it has just put
    into the cache. *)
Theorem token_lookup_never_throws (p : Provider) (w : World) :
  exists v,
    value (getBearerToken p w) = inr v
    /\ (v = cachedToken p
        \/ v = of_option (apiKey p)
        \/ v = cachedToken (self (getBearerToken p w))).
Proof.
  destruct (truthy_string (tokenUrl p)) eqn:Ht.
  - destruct (cache_valid p (now w)) eqn:Hc.
    + rewrite getBearerToken_cached by assumption.
      eexists. split; [reflexivity | now left].
    + destruct (tokenUrl p) as [url'|] eqn:Hu; [|discriminate].
      assert (Hne : url' <> "").
      { cbn in Ht. now apply String.eqb_neq, negb_true_iff. }
      rewrite (getBearerToken_refresh p w url' Hu Hne Hc). cbv zeta.
      destruct (network w (token_request url'))
        as [e|r|code reason delivered e];
        [eexists; split; [reflexivity | now right; left]|
        |destruct (negb (Resp.ok (cut_response code reason delivered)));
         eexists; (split; [reflexivity | now right; left])].
      destruct (negb (Resp.ok r));
        [eexists; split; [reflexivity | now right; left]|].
      destruct (JSON_parse (text r)) as [tokenData|];
        [|eexists; split; [reflexivity | now right; left]].
      destruct (token_shape tokenData) as [e|[token expiresIn]];
        [eexists; split; [reflexivity | now right; left]|].
      destruct (Js.truthy expiresIn);
        [destruct (Js.to_number StringToNumber expiresIn)|];
        eexists; (split; [reflexivity|]); cbn; auto.
  - unfold getBearerToken. rewrite bind_this, Ht. cbn.
    eexists. split; [reflexivity | now right; left].
Qed.

(** X8.  Changing the static API key, the model, the base URL or the
    configuration does not touch the token cache: a cached token that is
    still good goes on being returned, also in place of a new API key. *)
Theorem setters_keep_cached_token
  (p : Provider) (w : World) (key modelId : string)
  (baseUrl : option string) (cfg : IProviderConfig) :
  truthy_string (tokenUrl p) = true -> cache_valid p (now w) = true ->
  value (getBearerToken (setApiKey key p) w) = inr (cachedToken p)
  /\ value (getBearerToken (setModel modelId p) w) = inr (cachedToken p)
  /\ value (getBearerToken (setBaseUrl baseUrl p) w) = inr (cachedToken p)
  /\ value (getBearerToken (setConfig cfg p) w) = inr (cachedToken p).
Proof.
  intros Ht Hc. repeat split; now rewrite getBearerToken_cached.
Qed.

(** The entries of a listing that all carry a string as their name. *)
Lemma map_models_listed (entries : list JsValue) (names : list string)
  (p : Provider) (w : World) :
  Forall2 (fun entry s => Js.get "name" entry = inr (JStr s)) entries names ->
  value (map_models entries p w) = inr (map listed names).
Proof.
  induction 1 as [|entry s rest names' He _ IH]; [reflexivity|].
  rewrite map_models_cons, He. cbn [Js.to_string]. now rewrite IH.
Qed.

(** An entry whose name cannot be read stops the mapping. *)
Lemma map_models_stops (entries : list JsValue) (p : Provider) (w : World) :
  Exists (fun entry => exists e, Js.get "name" entry = inl e) entries ->
  exists e, value (map_models entries p w) = inl e.
Proof.
  induction 1 as [entry rest [e He]|entry rest _ [e IH]];
    rewrite map_models_cons.
  - rewrite He. now exists e.
  - destruct (Js.get "name" entry) as [e'|model_name]; [now exists e'|].
    destruct (Js.to_string model_name) as [e'|key]; [now exists e'|].
    rewrite IH. now exists e.
Qed.

Lemma map_models_sound (entries : list JsValue) (p : Provider) (w : World)
  (ms : list IModel) :
  value (map_models entries p w) = inr ms ->
  Forall (fun m => provider m = provider_name /\ maxOutputTokens m = 4096
                   /\ id m = name m
                   /\ supportedToolFormats m = known_families) ms.
Proof.
  revert ms. induction entries as [|entry rest IH]; intros ms H.
  - cbn in H. inversion H. constructor.
  - rewrite map_models_cons in H.
    destruct (Js.get "name" entry) as [e|model_name]; [discriminate|].
    destruct (Js.to_string model_name) as [e|key]; [discriminate|].
    destruct (value (map_models rest p w)) as [e|ms']; [discriminate|].
    inversion H. constructor; [now repeat split | now apply IH].
Qed.

(** X9.  When the listing arrives with status OK and its [models] is an
    array of objects with a string as [name], [getModels] returns one model
    per entry, in the order of the listing: id and name are the name of the
    entry, the provider is ["ollama"], all five tool formats are listed as
    supported, the context window is that of [getContextWindowForModel] and
    the output limit is 4096.  Nothing is written on the console. *)
Theorem models_listed
  (p : Provider) (w : World) (r : Response) (data : JsValue)
  (entries : list JsValue) (names : list string) :
  tags_reply p w = Some (Resolved r) -> Resp.ok r = true ->
  JSON_parse (text r) = Some data ->
  Js.get "models" data = inr (JArr entries) ->
  Forall2 (fun entry s => exists fields,
               entry = JObj fields /\ Js.field "name" fields = JStr s)
          entries names ->
  value (getModels p w)
  = inr (map (fun s =>
                {| id := JStr s; name := JStr s; provider := "ollama";
                   supportedToolFormats :=
                     ["llama"; "deepseek"; "qwen"; "hermes"; "gemma"];
                   contextWindow := getContextWindowForModel s;
                   maxOutputTokens := 4096 |}) names)
  /\ console (world (getModels p w)) = console (world (request_headers p w)).
Proof.
  intros Hr Hok Hj Hg Hall. rewrite getModels_reply. cbv zeta.
  unfold tags_reply in Hr. cbv zeta in Hr.
  destruct (value (request_headers p w)) as [e|hs]; [discriminate|].
  inversion Hr as [Hn]. rewrite Hn, Hok, Hj, Hg. cbn [negb Js.or Js.truthy].
  erewrite map_models_listed.
  - split; reflexivity.
  - eapply Forall2_impl; [|exact Hall].
    intros entry s [fields [-> Hf]]. cbn. now rewrite Hf.
Qed.

(** X10.  A listing with status OK whose [models] is absent, [null] or
    otherwise falsy gives the empty list, not the default catalogue, and
    nothing is written on the console. *)
Theorem listing_without_models_is_empty
  (p : Provider) (w : World) (r : Response) (data found : JsValue) :
  tags_reply p w = Some (Resolved r) -> Resp.ok r = true ->
  JSON_parse (text r) = Some data ->
  Js.get "models" data = inr found -> Js.truthy found = false ->
  value (getModels p w) = inr []
  /\ console (world (getModels p w)) = console (world (request_headers p w)).
Proof.
  intros Hr Hok Hj Hg Hf. rewrite getModels_reply. cbv zeta.
  unfold tags_reply in Hr. cbv zeta in Hr.
  destruct (value (request_headers p w)) as [e|hs]; [discriminate|].
  inversion Hr as [Hn]. rewrite Hn, Hok, Hj, Hg. unfold Js.or. rewrite Hf.
  split; reflexivity.
Qed.

(** X11.  A reply with status OK that is no listing makes [getModels]
    return the default catalogue and warn on the console: a body that is no
    JSON, the JSON value [null], a [models] that is truthy and no array, or
    an array with an entry whose name cannot be read ([null]). *)
Theorem malformed_listing_falls_back
  (p : Provider) (w : World) (r : Response) :
  tags_reply p w = Some (Resolved r) -> Resp.ok r = true ->
  let fell_back :=
    value (getModels p w) = inr default_models
    /\ exists e,
         console (world (getModels p w))
         = console (world (request_headers p w))
           ++ [console_warn "Failed to fetch Ollama models:" None e] in
  (JSON_parse (text r) = None -> fell_back)
  /\ (JSON_parse (text r) = Some JNull -> fell_back)
  /\ (forall data found,
        JSON_parse (text r) = Some data ->
        Js.get "models" data = inr found -> Js.truthy found = true ->
        (forall entries, found <> JArr entries) -> fell_back)
  /\ (forall data entries,
        JSON_parse (text r) = Some data ->
        Js.get "models" data = inr (JArr entries) ->
        In JNull entries -> fell_back).
Proof.
  intros Hr Hok fell_back. subst fell_back. rewrite getModels_reply.
  cbv zeta. unfold tags_reply in Hr. cbv zeta in Hr.
  destruct (value (request_headers p w)) as [e|hs]; [discriminate|].
  inversion Hr as [Hn]. rewrite Hn, Hok. cbn [negb]. repeat split.
  - rewrite H. reflexivity.
  - rewrite H. cbn. now eexists.
  - rewrite H. reflexivity.
  - rewrite H. cbn. now eexists.
  - rewrite H, H0. unfold Js.or. rewrite H1.
    destruct found; try reflexivity. now destruct (H2 items).
  - rewrite H, H0. unfold Js.or. rewrite H1.
    destruct found; cbn; try (now eexists). now destruct (H2 items).
  - rewrite H, H0. cbn [Js.or Js.truthy].
    destruct (map_models_stops entries (self (request_headers p w))
                (sent (latency (world (request_headers p w))
                         (tags_request (self (request_headers p w)) hs))
                      (tags_request (self (request_headers p w)) hs)
                      (world (request_headers p w)))) as [e ->];
      [|reflexivity].
    apply Exists_exists. exists JNull. split; [assumption | now exists TypeError].
  - rewrite H, H0. cbn [Js.or Js.truthy].
    destruct (map_models_stops entries (self (request_headers p w))
                (sent (latency (world (request_headers p w))
                         (tags_request (self (request_headers p w)) hs))
                      (tags_request (self (request_headers p w)) hs)
                      (world (request_headers p w)))) as [e ->];
      [|cbn; now eexists].
    apply Exists_exists. exists JNull. split; [assumption | now exists TypeError].
Qed.

(** X12.  Whatever the network does, [getModels] returns a list, and every
    model in it has the provider ["ollama"], the output limit 4096, its id
    as its name, and at least one supported tool format, each one of the
    five the provider knows. *)
Theorem models_well_formed (p : Provider) (w : World) :
  exists ms,
    value (getModels p w) = inr ms
    /\ Forall (fun m =>
                 provider m = "ollama" /\ maxOutputTokens m = 4096
                 /\ id m = name m
                 /\ supportedToolFormats m <> []
                 /\ incl (supportedToolFormats m) known_families) ms.
Proof.
  assert (Hd : Forall (fun m =>
                 provider m = "ollama" /\ maxOutputTokens m = 4096
                 /\ id m = name m
                 /\ supportedToolFormats m <> []
                 /\ incl (supportedToolFormats m) known_families)
                 default_models).
  { unfold default_models.
    repeat (apply Forall_cons;
            [repeat split; [discriminate | intros f [<-|[]]; cbn; tauto]|]).
    apply Forall_nil. }
  rewrite getModels_reply. cbv zeta.
  destruct (value (request_headers p w)) as [e|hs];
    [now exists default_models|].
  destruct (network _ _) as [e|r|code reason delivered e];
    [now exists default_models|
    |destruct (negb (Resp.ok (cut_response code reason delivered)));
     now exists default_models].
  destruct (negb (Resp.ok r)); [now exists default_models|].
  destruct (JSON_parse (text r)) as [data|]; [|now exists default_models].
  destruct (Js.get "models" data) as [e|found]; [now exists default_models|].
  destruct (Js.or found (JArr [])) as [| |b|n|str|entries|fields];
    try (now exists default_models).
  destruct (value (map_models entries _ _)) as [e|ms] eqn:Hm;
    [now exists default_models|].
  exists ms. split; [reflexivity|].
  apply map_models_sound in Hm.
  eapply Forall_impl; [|exact Hm].
  intros m (H1 & H2 & H3 & H4). rewrite H4.
  repeat split; try assumption; [discriminate | apply incl_refl].
Qed.

(** X13.  The default catalogue agrees with the rest of the provider: each
    of its models reports the context window [getContextWindowForModel]
    gives for its name, and as its one supported tool format the format
    [getToolFormat] detects once the model is selected and no override is
    set. *)
Theorem default_catalogue_consistent (p : Provider) :
  toolFormatOverride p = None -> config p = None ->
  Forall (fun m =>
            exists s,
              id m = JStr s /\ name m = JStr s
              /\ contextWindow m = getContextWindowForModel s
              /\ supportedToolFormats m = [getToolFormat (setModel s p)])
         default_models.
Proof.
  intros Ho Hc.
  repeat constructor;
    eexists; (split; [reflexivity|]); (split; [reflexivity|]);
    (split; [reflexivity|]);
    unfold getToolFormat, config_override; cbn; rewrite Ho, Hc; reflexivity.
Qed.

(** X14.  [getContextWindowForModel] gives the entry of its table for the
    sixteen names in it and 4096 for any other name, so a window between
    4096 and 100000 tokens, except for the names of the members every
    object inherits ([toString], [constructor], ...): for these the lookup
    in the table finds the inherited member, which is returned as it is. *)
Theorem context_window_default (modelName : string) :
  (Js.assoc modelName contextWindows = None ->
   existsb (String.eqb modelName) inherited_members = false ->
   getContextWindowForModel modelName = Tokens 4096)
  /\ (existsb (String.eqb modelName) inherited_members = false ->
      exists n, getContextWindowForModel modelName = Tokens n
                /\ 4096 <= n <= 100000)
  /\ (In modelName inherited_members ->
      getContextWindowForModel modelName = Inherited modelName).
Proof.
  unfold getContextWindowForModel. repeat split.
  - intros -> ->. reflexivity.
  - intros Hi. rewrite Hi.
    destruct (Js.assoc modelName contextWindows) as [n|] eqn:Ha.
    + exists n. split; [reflexivity|].
      cbn in Ha.
      repeat match type of Ha with
             | (if ?c then _ else _) = _ => destruct c
             end; inversion Ha; lia.
    + exists 4096. split; [reflexivity | lia].
  - intro Hin. cbn in Hin.
    repeat match type of Hin with
           | _ \/ _ => destruct Hin as [<-|Hin]
           end; try reflexivity. contradiction.
Qed.

(** ** Further facts about the two requests *)

(** The headers, by the token the lookup gave. *)
Lemma request_headers_outcome (p : Provider) (w : World) (v : JsValue)
  (p1 : Provider) (w1 : World) :
  getBearerToken p w = Out (inr v) p1 w1 ->
  request_headers p w
  = if Js.truthy v then
      match Js.to_string v with
      | inl e => Out (inl e) p1 w1
      | inr token =>
          Out (inr (json_headers
                    ++ [("Authorization", ("Bearer " ++ token)%string)]))
              p1 w1
      end
    else Out (inr json_headers) p1 w1.
Proof.
  intro H. unfold request_headers. erewrite bind_returned by exact H.
  destruct (Js.truthy v); [|reflexivity].
  unfold bind, lift. destruct (Js.to_string v); reflexivity.
Qed.

(** Without a token URL the headers are made from the static key alone. *)
Lemma request_headers_static (p : Provider) (w : World) :
  truthy_string (tokenUrl p) = false ->
  request_headers p w
  = Out (inr (json_headers
              ++ match apiKey p with
                 | Some key =>
                     if String.eqb key "" then []
                     else [("Authorization", ("Bearer " ++ key)%string)]
                 | None => []
                 end)) p w.
Proof.
  intro Hu.
  rewrite (request_headers_outcome p w (of_option (apiKey p)) p w).
  - destruct (apiKey p) as [key|]; cbn; [|reflexivity].
    destruct (String.eqb key ""); reflexivity.
  - unfold getBearerToken. now rewrite bind_this, Hu.
Qed.

(** The requests [getModels] leaves in the log. *)
Lemma getModels_requests (p : Provider) (w : World) :
  let o := request_headers p w in
  requests (world (getModels p w))
  = requests (world o)
    ++ match value o with
       | inr hs => [tags_request (self o) hs]
       | inl _ => []
       end.
Proof.
  cbv zeta. rewrite getModels_reply. cbv zeta.
  destruct (value (request_headers p w)) as [e|hs];
    [cbn; now rewrite app_nil_r|].
  destruct (network _ _) as [e|r|code reason delivered e];
    [reflexivity|
    |now destruct (negb (Resp.ok (cut_response code reason delivered)))].
  destruct (negb (Resp.ok r)); [reflexivity|].
  destruct (JSON_parse (text r)) as [data|]; [|reflexivity].
  destruct (Js.get "models" data) as [e|found]; [reflexivity|].
  destruct (Js.or found (JArr [])); try reflexivity.
  destruct (value (map_models _ _ _)); reflexivity.
Qed.

(** The requests [generateChatCompletion] leaves in the log. *)
Lemma generateChatCompletion_requests (msgs : list IMessage)
  (tls : option (list ITool)) (p : Provider) (w : World) :
  let o := request_headers p w in
  requests (world (generateChatCompletion msgs tls p w))
  = requests (world o)
    ++ match value o with
       | inr hs => [chat_request (self o) hs (chat_body p msgs tls)]
       | inl _ => []
       end.
Proof.
  cbv zeta. rewrite generateChatCompletion_outcome. cbv zeta.
  destruct (value (request_headers p w)) as [e|hs];
    [cbn; now rewrite app_nil_r|].
  destruct (network _ _) as [e|r|code reason delivered e]; [reflexivity| |].
  - destruct (negb (Resp.ok r)); [reflexivity|].
    destruct (chunks r); reflexivity.
  - destruct (negb (Resp.ok (cut_response code reason delivered)));
      [reflexivity|].
    destruct (control (scan (complete_lines (streamed delivered))));
      reflexivity.
Qed.

(** A line that reads as a message has the shape the generator gives it. *)
Lemma decode_shape (line : string) (m : IMessage) (c : Control) :
  decode line = inr (m, c) ->
  role m = "assistant"
  /\ (content m = JStr "" \/ Js.truthy (content m) = true).
Proof.
  unfold decode, and_then.
  destruct (JSON_parse line) as [data|]; [|discriminate].
  destruct (Js.get "done" data) as [|done]; [discriminate|].
  destruct (Js.get "message" data) as [|message]; [discriminate|].
  destruct (Js.get "content" message) as [|text']; [discriminate|].
  destruct (Js.get "tool_calls" message); [discriminate|].
  assert (Hor : Js.or text' (JStr "") = JStr ""
                \/ Js.truthy (Js.or text' (JStr "")) = true).
  { unfold Js.or. destruct (Js.truthy text') eqn:E; [now right | now left]. }
  destruct (Js.truthy done).
  - destruct (Js.get "prompt_eval_count" data); [discriminate|].
    destruct (Js.get "eval_count" data); [discriminate|].
    destruct (Js.add _ _); [discriminate|].
    intro H. inversion H. now split.
  - intro H. inversion H. now split.
Qed.

Lemma scan_shape (lines : list string) :
  Forall (fun m => role m = "assistant"
                   /\ (content m = JStr "" \/ Js.truthy (content m) = true))
         (outward (scan lines)).
Proof.
  induction lines as [|line rest IH]; [constructor|].
  cbn [scan]. destruct (Str.is_blank line); [exact IH|].
  destruct (decode line) as [e|[m [|]]] eqn:E; cbn [outward].
  - exact IH.
  - constructor; [now apply (decode_shape line m Continue) | exact IH].
  - constructor; [now apply (decode_shape line m Return) | constructor].
Qed.

(** X15.  Without a token URL the static API key is the bearer token of
    both requests: after [setApiKey] with a key that is not empty, the one
    request [getModels] sends and the one request [generateChatCompletion]
    sends carry [Authorization: Bearer <key>] after the content type; with
    no key, or the empty string as key, they carry the content type only.
    No request goes anywhere else. *)
Theorem static_key_sent_as_bearer
  (p : Provider) (w : World) (msgs : list IMessage)
  (tls : option (list ITool)) :
  truthy_string (tokenUrl p) = false ->
  (forall key, key <> "" ->
     let hs := [("Content-Type", "application/json");
                ("Authorization", ("Bearer " ++ key)%string)] in
     requests (world (getModels (setApiKey key p) w))
     = requests w
       ++ [{| url := (baseURL p ++ "/api/tags")%string; method := None;
              headers := hs; body := None |}]
     /\ requests (world (generateChatCompletion msgs tls (setApiKey key p) w))
        = requests w
          ++ [{| url := (baseURL p ++ "/api/chat")%string;
                 method := Some "POST"; headers := hs;
                 body := Some (chat_body p msgs tls) |}])
  /\ (truthy_string (apiKey p) = false ->
      let hs := [("Content-Type", "application/json")] in
      requests (world (getModels p w))
      = requests w
        ++ [{| url := (baseURL p ++ "/api/tags")%string; method := None;
               headers := hs; body := None |}]
      /\ requests (world (generateChatCompletion msgs tls p w))
         = requests w
           ++ [{| url := (baseURL p ++ "/api/chat")%string;
                  method := Some "POST"; headers := hs;
                  body := Some (chat_body p msgs tls) |}]).
Proof.
  intro Hu. split.
  - intros key Hk hs.
    pose proof (getModels_requests (setApiKey key p) w) as Hm.
    pose proof (generateChatCompletion_requests msgs tls (setApiKey key p) w)
      as Hc.
    cbv zeta in Hm, Hc.
    rewrite (request_headers_static (setApiKey key p) w Hu) in Hm, Hc.
    cbn [apiKey setApiKey value self world] in Hm, Hc.
    apply String.eqb_neq in Hk. rewrite Hk in Hm, Hc.
    split; [exact Hm | exact Hc].
  - intros Hk hs.
    pose proof (getModels_requests p w) as Hm.
    pose proof (generateChatCompletion_requests msgs tls p w) as Hc.
    cbv zeta in Hm, Hc.
    rewrite (request_headers_static p w Hu) in Hm, Hc.
    cbn [value self world] in Hm, Hc.
    assert (Hnone : match apiKey p with
                    | Some key =>
                        if String.eqb key "" then []
                        else [("Authorization", ("Bearer " ++ key)%string)]
                    | None => []
                    end = []).
    { destruct (apiKey p) as [key|]; [|reflexivity].
      cbn in Hk. apply negb_false_iff in Hk. now rewrite Hk. }
    rewrite Hnone in Hm, Hc. split; [exact Hm | exact Hc].
Qed.

(** What the headers leave behind is what the token lookup left. *)
Lemma request_headers_world (p : Provider) (w : World) :
  world (request_headers p w) = world (getBearerToken p w)
  /\ self (request_headers p w) = self (getBearerToken p w).
Proof.
  destruct (getBearerToken_returns p w) as [v Hv].
  destruct (getBearerToken p w) as [got p1 w1] eqn:Hg.
  cbn [value] in Hv. subst got.
  rewrite (request_headers_outcome p w v p1 w1 Hg).
  destruct (Js.truthy v); [|now split].
  destruct (Js.to_string v); now split.
Qed.

(** X16.  [setBaseUrl] decides where the two requests go.  Whenever the
    headers can be made, the request of [getModels] goes to
    [<base>/api/tags] and that of [generateChatCompletion] to
    [<base>/api/chat], [base] being the URL given when it is not empty and
    [http://localhost:11434] when it is empty or absent.  It is the last
    request in the log, after what the token lookup sent: nothing when
    there is no token URL, and with a token URL either nothing or one GET
    to the token URL. *)
Theorem base_url_round_trip
  (p : Provider) (w : World) (msgs : list IMessage)
  (tls : option (list ITool)) (baseUrl : option string)
  (hs : list (string * string)) :
  let base := match baseUrl with
              | Some b => if String.eqb b "" then "http://localhost:11434"
                          else b
              | None => "http://localhost:11434"
              end in
  let q := setBaseUrl baseUrl p in
  value (request_headers q w) = inr hs ->
  requests (world (getModels q w))
  = requests (world (request_headers q w))
    ++ [{| url := (base ++ "/api/tags")%string; method := None;
           headers := hs; body := None |}]
  /\ requests (world (generateChatCompletion msgs tls q w))
     = requests (world (request_headers q w))
       ++ [{| url := (base ++ "/api/chat")%string; method := Some "POST";
              headers := hs; body := Some (chat_body q msgs tls) |}]
  /\ (truthy_string (tokenUrl p) = false ->
      requests (world (request_headers q w)) = requests w)
  /\ (forall url', tokenUrl p = Some url' -> url' <> "" ->
        requests (world (request_headers q w)) = requests w
        \/ requests (world (request_headers q w))
           = requests w ++ [token_request url']).
Proof.
  intros base q Hh.
  pose proof (getModels_requests q w) as Hm.
  pose proof (generateChatCompletion_requests msgs tls q w) as Hc.
  cbv zeta in Hm, Hc. rewrite Hh in Hm, Hc.
  destruct (keeps_request_headers q w) as (_ & Hb & _).
  assert (Hbase : baseURL q = base).
  { subst base q. destruct baseUrl as [b|]; [|reflexivity].
    cbn. now destruct (String.eqb b ""). }
  unfold tags_request in Hm. unfold chat_request in Hc.
  rewrite Hb, Hbase in Hm, Hc.
  split; [exact Hm|]. split; [exact Hc|].
  destruct (request_headers_world q w) as [-> _]. split.
  - intro Hu. unfold getBearerToken. rewrite bind_this.
    change (tokenUrl q) with (tokenUrl p). now rewrite Hu.
  - intros url' Hu Hne. destruct (cache_valid q (now w)) eqn:Hv.
    + left. rewrite getBearerToken_cached; [reflexivity| |exact Hv].
      change (tokenUrl q) with (tokenUrl p). rewrite Hu. cbn.
      apply negb_true_iff, String.eqb_neq, Hne.
    + right. now apply getBearerToken_fetches.
Qed.

(** X17.  Whatever becomes of it afterwards, a chat completion whose
    headers could be made sends exactly one request of its own: a POST to
    [<baseURL>/api/chat] with the current model, the role and content of
    every message in order, [stream: true] and the fixed sampling options.
    Tools and [tool_choice: "auto"] are in the body only when at least one
    tool was given; an empty list of tools is sent as no tools. *)
Theorem chat_sends_one_request
  (msgs : list IMessage) (tls : option (list ITool)) (p : Provider)
  (w : World) (hs : list (string * string)) :
  value (request_headers p w) = inr hs ->
  requests (world (generateChatCompletion msgs tls p w))
  = requests (world (request_headers p w))
    ++ [{| url := (baseURL p ++ "/api/chat")%string;
           method := Some "POST";
           headers := hs;
           body :=
             Some {| model := currentModel p;
                     messages := map (fun msg => (role msg, content msg)) msgs;
                     stream := true;
                     options := {| temperature := 7 # 10; top_p := 9 # 10;
                                   num_predict := 4096 |};
                     tools := match tls with
                              | Some (tool :: more) => Some (tool :: more)
                              | _ => None
                              end;
                     tool_choice := match tls with
                                    | Some (_ :: _) => Some "auto"
                                    | _ => None
                                    end |} |}].
Proof.
  intro Hh. pose proof (generateChatCompletion_requests msgs tls p w) as Hc.
  cbv zeta in Hc. rewrite Hh in Hc. rewrite Hc.
  destruct (keeps_request_headers p w) as (_ & Hb & _).
  unfold chat_request, chat_body. rewrite Hb.
  destruct tls as [[|tool more]|]; reflexivity.
Qed.

(** X18.  How a chat completion ends once its request is answered.  A
    rejected [fetch] is thrown on as it is.  A response with status OK and
    no body throws ["No response body from Ollama API"].  A response with
    status OK whose body is read to its end never throws, whatever the
    body holds.  When the body is cut short, a read rejecting, the
    exception of the read is thrown on as it is, after the messages of the
    lines read before it have been yielded; unless one of these lines was
    a final record: then the generator has returned and the failing read
    is never made.  With a status that is not OK, a body that is cut short
    makes [response.text()] reject, and that exception is thrown, nothing
    being yielded. *)
Theorem chat_completion_outcomes
  (msgs : list IMessage) (tls : option (list ITool)) (p : Provider)
  (w : World) :
  let out := generateChatCompletion msgs tls p w in
  (forall e, chat_reply msgs tls p w = Some (Rejected e) ->
     value out = inl e)
  /\ (forall r, chat_reply msgs tls p w = Some (Resolved r) ->
        Resp.ok r = true -> chunks r = None ->
        value out = inl (Error "No response body from Ollama API"))
  /\ (forall r pending, chat_reply msgs tls p w = Some (Resolved r) ->
        Resp.ok r = true -> chunks r = Some pending ->
        value out = inr tt)
  /\ (forall code reason delivered e,
        chat_reply msgs tls p w
        = Some (Interrupted code reason delivered e) ->
        let t := scan (complete_lines (streamed delivered)) in
        (Resp.ok (cut_response code reason delivered) = false ->
         value out = inl e /\ emitted (world out) = emitted w)
        /\ (Resp.ok (cut_response code reason delivered) = true ->
            emitted (world out) = emitted w ++ outward t
            /\ (control t = Continue -> value out = inl e)
            /\ (control t = Return -> value out = inr tt))).
Proof.
  cbv zeta. rewrite generateChatCompletion_outcome. unfold chat_reply.
  cbv zeta. destruct (keeps_request_headers p w) as (He & _).
  destruct (value (request_headers p w)) as [e0|hs].
  - repeat split; intros; discriminate.
  - split; [|split; [|split]].
    + intros e H. inversion H as [Hn]. now rewrite Hn.
    + intros r H Hok Hb. inversion H as [Hn]. now rewrite Hn, Hok, Hb.
    + intros r pending H Hok Hb. inversion H as [Hn].
      now rewrite Hn, Hok, Hb.
    + intros code reason delivered e H. inversion H as [Hn]. rewrite Hn.
      split; intro Hok; rewrite Hok; cbn [negb].
      * split; [reflexivity|]. cbn. now rewrite He, app_nil_r.
      * destruct (control (scan (complete_lines (streamed delivered))));
          (split; [cbn; now rewrite He, ?app_nil_r|]);
          split; intro Hc; first [reflexivity | discriminate].
Qed.

(** X19.  An exception leaving [generateChatCompletion] has been written on
    the console, as the last entry, under
    ["Error in Ollama chat completion:"].  No message was yielded before
    it, unless the response came with a body that was cut short: every
    other exception arises before the first line is read. *)
Theorem chat_failure_logged
  (msgs : list IMessage) (tls : option (list ITool)) (p : Provider)
  (w : World) (e : Exn) :
  let out := generateChatCompletion msgs tls p w in
  value out = inl e ->
  (exists earlier,
      console (world out)
      = earlier ++ [console_error "Error in Ollama chat completion:" e])
  /\ ((forall code reason delivered e',
          chat_reply msgs tls p w
          <> Some (Interrupted code reason delivered e')) ->
      emitted (world out) = emitted w).
Proof.
  cbv zeta. rewrite generateChatCompletion_outcome. unfold chat_reply.
  cbv zeta. destruct (keeps_request_headers p w) as (He & _).
  destruct (value (request_headers p w)) as [e0|hs].
  - intro H. inversion H. subst e0. cbn. rewrite He, app_nil_r.
    split; [now eexists | reflexivity].
  - destruct (network _ _) as [e0|r|code reason delivered e0].
    + intro H. inversion H. subst e0. cbn. rewrite He, app_nil_r.
      split; [now eexists | reflexivity].
    + destruct (negb (Resp.ok r)).
      * intro H. inversion H. cbn. rewrite He, app_nil_r.
        split; [now eexists | reflexivity].
      * destruct (chunks r); [discriminate|].
        intro H. inversion H. cbn. rewrite He, app_nil_r.
        split; [now eexists | reflexivity].
    + destruct (negb (Resp.ok (cut_response code reason delivered))).
      * intro H. inversion H. subst e0.
        split; [cbn; now eexists|].
        intro Hno. now destruct (Hno code reason delivered e).
      * destruct (control (scan (complete_lines (streamed delivered))));
          [|discriminate].
        intro H. inversion H. subst e0.
        split; [cbn; now eexists|].
        intro Hno. now destruct (Hno code reason delivered e).
Qed.

(** X20.  Every message [generateChatCompletion] yields has the role
    ["assistant"], and its content is the content of the record when that
    is truthy and the empty string otherwise, never [undefined] or
    [null]. *)
Theorem yielded_messages_shape
  (msgs : list IMessage) (tls : option (list ITool)) (p : Provider)
  (w : World) :
  exists ms,
    emitted (world (generateChatCompletion msgs tls p w)) = emitted w ++ ms
    /\ Forall (fun m => role m = "assistant"
                        /\ (content m = JStr ""
                            \/ Js.truthy (content m) = true)) ms.
Proof.
  rewrite generateChatCompletion_outcome. cbv zeta.
  destruct (keeps_request_headers p w) as (He & _).
  destruct (value (request_headers p w)) as [e0|hs];
    [exists []; cbn; now rewrite He|].
  destruct (network _ _) as [e0|r|code reason delivered e0];
    [exists []; cbn; now rewrite He| |].
  - destruct (negb (Resp.ok r)); [exists []; cbn; now rewrite He|].
    destruct (chunks r) as [pending|]; [|exists []; cbn; now rewrite He].
    exists (outward (scan (complete_lines (streamed pending)))).
    cbn. rewrite He. split; [reflexivity | apply scan_shape].
  - destruct (negb (Resp.ok (cut_response code reason delivered)));
      [exists []; cbn; now rewrite He|].
    exists (outward (scan (complete_lines (streamed delivered)))).
    split; [|apply scan_shape].
    destruct (control (scan (complete_lines (streamed delivered))));
      cbn; now rewrite He, ?app_nil_r.
Qed.

(** X21.  A line of white space only leaves no trace: no message, no
    console entry, and the [for] loop over the lines does what it does
    without that line. *)
Theorem blank_lines_ignored
  (pre post : list string) (line : string) (p : Provider) (w : World) :
  Str.is_blank line = true ->
  process_line line p w = Out (inr Continue) p w
  /\ for_lines (pre ++ line :: post) p w = for_lines (pre ++ post) p w.
Proof.
  intro Hb. split.
  - unfold process_line. now rewrite Hb.
  - rewrite !for_lines_scan.
    assert (Hs : scan (pre ++ line :: post) = scan (pre ++ post)).
    { rewrite !scan_app. cbn [scan]. now rewrite Hb. }
    now rewrite Hs.
Qed.

(** X22.  The usage of a final record: each of [prompt_eval_count] and
    [eval_count] counts as given when it is an integer and as 0 when it is
    absent, and the total is their sum, the two counts and the sum being
    safe integers (so that the sum of the code is the exact one).  The
    line yields that one message and ends the loop. *)
Theorem usage_totals
  (line : string) (record message : list (string * JsValue)) (a b : Z)
  (p : Provider) (w : World) :
  Str.is_blank line = false ->
  JSON_parse line = Some (JObj record) ->
  Js.truthy (Js.field "done" record) = true ->
  Js.field "message" record = JObj message ->
  (Js.field "prompt_eval_count" record = JNum (Int a)
   \/ (Js.field "prompt_eval_count" record = JUndefined /\ a = 0)) ->
  (Js.field "eval_count" record = JNum (Int b)
   \/ (Js.field "eval_count" record = JUndefined /\ b = 0)) ->
  Js.safe_integer a -> Js.safe_integer b -> Js.safe_integer (a + b) ->
  process_line line p w
  = Out (inr Return) p
        (extend [ {| role := "assistant";
                     content := Js.or (Js.field "content" message) (JStr "");
                     tool_calls := Js.field "tool_calls" message;
                     usage := Some {| prompt_tokens := JNum (Int a);
                                      completion_tokens := JNum (Int b);
                                      total_tokens := JNum (Int (a + b)) |} |} ]
                [] w).
Proof.
  intros Hb Hj Hd Hm Ha Hc _ _ _.
  assert (Hcount : forall v n,
             v = JNum (Int n) \/ (v = JUndefined /\ n = 0) ->
             Js.or v (JNum (Int 0)) = JNum (Int n)).
  { intros v n [->|[-> ->]]; [|reflexivity].
    unfold Js.or. cbn. destruct (n =? 0) eqn:E; [|reflexivity].
    apply Z.eqb_eq in E. now subst. }
  rewrite process_line_decode, Hb. unfold decode. rewrite Hj.
  cbn [Js.get and_then]. rewrite Hm. cbn [Js.get and_then]. rewrite Hd.
  rewrite (Hcount _ _ Ha), (Hcount _ _ Hc). reflexivity.
Qed.

(** X23.  A line that is JSON and carries no message (an object whose
    [message] is absent or [null], or a value that is no object at all) is
    skipped like a malformed one: nothing is yielded, the [TypeError] of
    the read is written on the console as a warning, and the loop goes on.
    This is so for a record with [done: true] as well, which then does not
    end the stream. *)
Theorem record_without_message_skipped
  (line : string) (data : JsValue) (p : Provider) (w : World) :
  Str.is_blank line = false ->
  JSON_parse line = Some data ->
  match data with
  | JObj record =>
      Js.field "message" record = JUndefined
      \/ Js.field "message" record = JNull
  | _ => True
  end ->
  process_line line p w
  = Out (inr Continue) p
        (extend [] [console_warn "Failed to parse Ollama response line:"
                      (Some line) TypeError] w).
Proof.
  intros Hb Hj Hm. rewrite process_line_decode, Hb. unfold decode.
  rewrite Hj.
  destruct data as [| |b|n|str|items|record]; try reflexivity.
  cbn [Js.get and_then]. destruct Hm as [-> | ->]; reflexivity.
Qed.

(** X24.  Without an override, manual or configured, the tool format is one
    of the five families the provider knows, whatever the model is called;
    and it depends on the name of the model alone. *)
Theorem tool_format_known (p : Provider) :
  truthy_string (toolFormatOverride p) = false ->
  truthy_string (config_override p) = false ->
  In (getToolFormat p) known_families
  /\ getToolFormat p
     = getToolFormat (setModel (currentModel p)
                        (new_OllamaProvider None None None)).
Proof.
  intros Ho Hc. unfold getToolFormat. rewrite Ho, Hc. cbn.
  repeat match goal with
         | |- context [Str.includes ?f ?m] => destruct (Str.includes f m)
         end;
    (split; [repeat first [left; reflexivity | right] | reflexivity]).
Qed.

(** X25.  [setToolFormatOverride] with a format that is not empty makes
    [getToolFormat] answer that format, whatever the configuration says,
    and a later change of model or configuration does not alter it;
    [setToolFormatOverride(null)] takes the override away again, and so
    does the empty string. *)
Theorem tool_format_override_round_trip
  (p : Provider) (f : ToolFormat) (modelId : string) (cfg : IProviderConfig) :
  f <> "" ->
  getToolFormat (setToolFormatOverride (Some f) p) = f
  /\ getToolFormat (setModel modelId (setToolFormatOverride (Some f) p)) = f
  /\ getToolFormat (setConfig cfg (setToolFormatOverride (Some f) p)) = f
  /\ getToolFormat (setToolFormatOverride None
                      (setToolFormatOverride (Some f) p))
     = getToolFormat (setToolFormatOverride None p)
  /\ setToolFormatOverride (Some "") p = setToolFormatOverride None p.
Proof.
  intro Hf. apply String.eqb_neq in Hf.
  unfold getToolFormat, setToolFormatOverride, setModel, setConfig,
    config_override.
  cbn. rewrite Hf. cbn. rewrite Hf. repeat split.
Qed.

(** X26.  With a token URL and no good token in the cache, a chat
    completion and a listing first ask the token URL, and when that answers
    with a token that is a string and not empty (and an [expires_in] that
    is absent or a number) the request that follows carries
    [Authorization: Bearer <token>]: the fetched token, not the static API
    key. *)
Theorem fetched_token_sent_as_bearer
  (msgs : list IMessage) (tls : option (list ITool)) (p : Provider)
  (w : World) (url' : string) (r : Response) (tokenData expiresIn : JsValue)
  (token : string) :
  tokenUrl p = Some url' -> url' <> "" -> cache_valid p (now w) = false ->
  network w (token_request url') = Resolved r -> Resp.ok r = true ->
  JSON_parse (text r) = Some tokenData ->
  token_shape tokenData = inr (JStr token, expiresIn) -> token <> "" ->
  (expiresIn = JUndefined \/ exists n, expiresIn = JNum n) ->
  let hs := [("Content-Type", "application/json");
             ("Authorization", ("Bearer " ++ token)%string)] in
  requests (world (generateChatCompletion msgs tls p w))
  = requests w
    ++ [token_request url';
        {| url := (baseURL p ++ "/api/chat")%string; method := Some "POST";
           headers := hs; body := Some (chat_body p msgs tls) |}]
  /\ requests (world (getModels p w))
     = requests w
       ++ [token_request url';
           {| url := (baseURL p ++ "/api/tags")%string; method := None;
              headers := hs; body := None |}].
Proof.
  intros Hu Hne Hc Hn Hok Hj Hs Ht He hs.
  assert (Hg : exists p1,
             getBearerToken p w
             = Out (inr (JStr token)) p1
                   (sent (latency w (token_request url'))
                      (token_request url') w)
             /\ baseURL p1 = baseURL p).
  { rewrite (getBearerToken_refresh p w url' Hu Hne Hc). cbv zeta.
    rewrite Hn, Hok, Hj, Hs. cbn [negb].
    destruct He as [->|[n ->]].
    - eexists. split; reflexivity.
    - destruct (Js.truthy (JNum n)); eexists; split; reflexivity. }
  destruct Hg as (p1 & Hg & Hb).
  pose proof (request_headers_outcome p w _ _ _ Hg) as Hh.
  cbn [Js.truthy Js.to_string] in Hh.
  apply String.eqb_neq in Ht. rewrite Ht in Hh. cbn [negb] in Hh.
  pose proof (generateChatCompletion_requests msgs tls p w) as Hchat.
  pose proof (getModels_requests p w) as Hmod.
  cbv zeta in Hchat, Hmod. rewrite Hh in Hchat, Hmod.
  cbn [value self world sent requests] in Hchat, Hmod.
  rewrite Hchat, Hmod, <- !app_assoc.
  unfold chat_request, tags_request. rewrite Hb. now split.
Qed.

(** X27.  A token URL that cannot be reached, or answers with a status that
    is not one of success, does not stop a chat completion: the failure is
    written on the console, and the chat request is sent all the same,
    with the static API key as bearer token when there is one and without
    [Authorization] otherwise. *)
Theorem chat_survives_token_failure
  (msgs : list IMessage) (tls : option (list ITool)) (p : Provider)
  (w : World) (url' : string) :
  tokenUrl p = Some url' -> url' <> "" -> cache_valid p (now w) = false ->
  transport_failure (network w (token_request url')) ->
  let hs := match apiKey p with
            | Some key =>
                if String.eqb key "" then [("Content-Type", "application/json")]
                else [("Content-Type", "application/json");
                      ("Authorization", ("Bearer " ++ key)%string)]
            | None => [("Content-Type", "application/json")]
            end in
  requests (world (generateChatCompletion msgs tls p w))
  = requests w
    ++ [token_request url';
        {| url := (baseURL p ++ "/api/chat")%string; method := Some "POST";
           headers := hs; body := Some (chat_body p msgs tls) |}]
  /\ exists e later,
       console (world (generateChatCompletion msgs tls p w))
       = console w ++ console_error "Failed to fetch bearer token:" e :: later.
Proof.
  intros Hu Hne Hc Hf hs.
  assert (Hg : exists e,
             getBearerToken p w
             = Out (inr (of_option (apiKey p))) p
                   (token_failed e (token_request url') w)).
  { rewrite (getBearerToken_refresh p w url' Hu Hne Hc). cbv zeta.
    destruct (network w (token_request url'))
      as [e|r|code reason delivered e]; [now eexists| |];
      unfold transport_failure in Hf; rewrite Hf; now eexists. }
  destruct Hg as (e & Hg).
  pose proof (request_headers_outcome p w _ _ _ Hg) as Hh.
  assert (Hhs : request_headers p w
                = Out (inr hs) p (token_failed e (token_request url') w)).
  { rewrite Hh. subst hs. destruct (apiKey p) as [key|]; cbn; [|reflexivity].
    destruct (String.eqb key ""); reflexivity. }
  rewrite generateChatCompletion_outcome. cbv zeta. rewrite Hhs.
  cbn [value self world].
  set (rq := chat_request p hs (chat_body p msgs tls)).
  set (w0 := token_failed e (token_request url') w).
  assert (Hr : requests w0 = requests w ++ [token_request url'])
    by reflexivity.
  assert (Hk : console w0
               = console w
                 ++ [console_error "Failed to fetch bearer token:" e])
    by reflexivity.
  destruct (network w0 rq) as [e1|r1|code reason delivered e1];
    [|destruct (negb (Resp.ok r1)); [|destruct (chunks r1)]
     |destruct (negb (Resp.ok (cut_response code reason delivered)));
      [|destruct (control (scan (complete_lines (streamed delivered))))]];
    cbn [world extend sent requests console];
    rewrite Hr, Hk, <- !app_assoc; (split; [reflexivity|]);
    exists e; eexists; reflexivity.
Qed.

(** X28.  A token whose [expires_in] is truthy and converts to no number at
    all ([NaN]: a word, an object) is cached with an expiry that is no
    number, and such a cache never counts as good: every later lookup
    fetches again, whatever the clock reads. *)
Theorem unreadable_lifetime_never_cached
  (p : Provider) (w w2 : World) (url' : string) (r : Response)
  (tokenData token expiresIn : JsValue) :
  tokenUrl p = Some url' -> url' <> "" -> cache_valid p (now w) = false ->
  network w (token_request url') = Resolved r -> Resp.ok r = true ->
  JSON_parse (text r) = Some tokenData ->
  token_shape tokenData = inr (token, expiresIn) ->
  Js.truthy expiresIn = true ->
  Js.to_number StringToNumber expiresIn = inr NaN ->
  let first := getBearerToken p w in
  value first = inr token
  /\ cachedToken (self first) = token
  /\ tokenExpiry (self first) = Some NaN
  /\ requests (world (getBearerToken (self first) w2))
     = requests w2 ++ [token_request url'].
Proof.
  intros Hu Hne Hc Hn Hok Hj Hs He Hnan first.
  assert (Hfirst :
            first
            = Out (inr token)
                  (set_tokenExpiry (Some NaN) (set_cachedToken token p))
                  (sent (latency w (token_request url'))
                     (token_request url') w)).
  { unfold first. rewrite (getBearerToken_refresh p w url' Hu Hne Hc).
    cbv zeta. now rewrite Hn, Hok, Hj, Hs, He, Hnan. }
  rewrite Hfirst. cbn [value self world]. repeat split.
  apply getBearerToken_fetches; [exact Hu | exact Hne |].
  unfold cache_valid. cbn [tokenExpiry set_tokenExpiry truthy_number Js.truthy].
  now rewrite andb_false_r.
Qed.

(** X29.  Lines that are records with a message and a falsy [done] are
    yielded one message each, in the order of the lines: the content of the
    message, or the empty string when it has none, and its [tool_calls] as
    they are; no usage is attached, nothing is written on the console, and
    the loop goes on to the next read. *)
Theorem records_yielded_in_order
  (lines : list string) (ms : list IMessage) (p : Provider) (w : World) :
  Forall2 (fun line m =>
             exists record message,
               Str.is_blank line = false
               /\ JSON_parse line = Some (JObj record)
               /\ Js.truthy (Js.field "done" record) = false
               /\ Js.field "message" record = JObj message
               /\ m = {| role := "assistant";
                         content := Js.or (Js.field "content" message)
                                          (JStr "");
                         tool_calls := Js.field "tool_calls" message;
                         usage := None |})
          lines ms ->
  for_lines lines p w = Out (inr Continue) p (extend ms [] w).
Proof.
  intro H. rewrite for_lines_scan.
  assert (Hs : scan lines
               = {| outward := ms; warnings := []; control := Continue |}).
  { induction H as [|line m rest ms'
                      (record & message & Hb & Hj & Hd & Hm & ->) _ IH];
      [reflexivity|].
    cbn [scan]. rewrite Hb. unfold decode. rewrite Hj.
    cbn [Js.get and_then]. rewrite Hm. cbn [Js.get and_then]. rewrite Hd.
    now rewrite IH. }
  now rewrite Hs.
Qed.

(** X30.  Neither a listing nor a chat completion changes the settings of
    the provider: base URL, model, configuration, tool format override,
    API key and token URL are afterwards what they were, however the call
    ends.  Without a token URL the provider is left exactly as it was. *)
Theorem calls_keep_settings
  (msgs : list IMessage) (tls : option (list ITool)) (p : Provider)
  (w : World) :
  let same q :=
    baseURL q = baseURL p /\ currentModel q = currentModel p
    /\ config q = config p /\ toolFormatOverride q = toolFormatOverride p
    /\ apiKey q = apiKey p /\ tokenUrl q = tokenUrl p in
  same (self (getModels p w))
  /\ same (self (generateChatCompletion msgs tls p w))
  /\ (truthy_string (tokenUrl p) = false ->
      self (getModels p w) = p
      /\ self (generateChatCompletion msgs tls p w) = p).
Proof.
  cbv zeta.
  assert (Hm : self (getModels p w) = self (request_headers p w)).
  { rewrite getModels_reply. cbv zeta.
    destruct (value (request_headers p w)) as [e|hs]; [reflexivity|].
    destruct (network _ _) as [e|r|code reason delivered e];
      [reflexivity|
      |now destruct (negb (Resp.ok (cut_response code reason delivered)))].
    destruct (negb (Resp.ok r)); [reflexivity|].
    destruct (JSON_parse (text r)) as [data|]; [|reflexivity].
    destruct (Js.get "models" data) as [e|found]; [reflexivity|].
    destruct (Js.or found (JArr [])); try reflexivity.
    destruct (value (map_models _ _ _)); reflexivity. }
  assert (Hc : self (generateChatCompletion msgs tls p w)
               = self (request_headers p w)).
  { rewrite generateChatCompletion_outcome. cbv zeta.
    destruct (value (request_headers p w)) as [e|hs]; [reflexivity|].
    destruct (network _ _) as [e|r|code reason delivered e];
      [reflexivity| |].
    - destruct (negb (Resp.ok r)); [reflexivity|].
      destruct (chunks r); reflexivity.
    - destruct (negb (Resp.ok (cut_response code reason delivered)));
        [reflexivity|].
      destruct (control (scan (complete_lines (streamed delivered))));
        reflexivity. }
  rewrite Hm, Hc.
  destruct (keeps_request_headers p w) as (_ & H).
  split; [exact H|]. split; [exact H|].
  intro Hu. now rewrite (request_headers_static p w Hu).
Qed.

End Runtime.

(** ** The claims on concrete sessions

    The run time of these sessions: the JSON reader above, the decoder that
    hands bytes on, a network that serves the token URL and the provider's
    endpoints, 25 ms per request. *)

#[local] Abbreviation chat_server :=
  (Sample.network (Rejected (NetworkError "unused"))
                  (Resolved Sample.chat_response)).
#[local] Abbreviation failing_server :=
  (Sample.network (Rejected (NetworkError "unused"))
                  (Resolved Sample.error_response)).
#[local] Abbreviation unreachable_server :=
  (Sample.network (Rejected (NetworkError "unused"))
                  (Rejected (NetworkError "Connection failed"))).
#[local] Abbreviation token_server :=
  (Sample.network (Resolved Sample.token_response)
                  (Rejected (NetworkError "unused"))).
#[local] Abbreviation chat_with net :=
  (generateChatCompletion Json.parse Json.to_number unit tt Sample.decoder_step Sample.decoder_end net
     Sample.latency).
#[local] Abbreviation token_with net :=
  (getBearerToken Json.parse Json.to_number unit tt Sample.decoder_step Sample.decoder_end net
     Sample.latency).
#[local] Abbreviation models_with net :=
  (getModels Json.parse Json.to_number unit tt Sample.decoder_step Sample.decoder_end net
     Sample.latency).
#[local] Abbreviation lines_of := (for_lines Json.parse).
#[local] Abbreviation reads_of := (read_loop Json.parse unit Sample.decoder_step).

Ltac by_computation :=
  vm_compute;
  first [ reflexivity | discriminate | intro; discriminate
        | intros [? ?]; discriminate ].

Lemma usage_from_final_record_witness :
  let out := chat_with chat_server Sample.question None
               Sample.session Sample.start in
  value out = inr tt
  /\ emitted (world out) = [Sample.hello; Sample.closing].
Proof.
  apply (usage_from_final_record Json.parse Json.to_number unit tt Sample.decoder_step Sample.decoder_end
           chat_server Sample.latency Sample.question None
           Sample.session Sample.start
           Sample.chat_response Sample.reads
           Sample.delta_line Sample.final_line
           Sample.delta_record Sample.final_record
           Sample.delta_message Sample.final_message);
    by_computation.
Defined.

Lemma chat_error_on_bad_status_witness :
  value (chat_with failing_server Sample.question None
           Sample.session Sample.start)
  = inl (Error "Ollama API error: 500 Internal Server Error - Server error").
Proof.
  refine (proj1 (chat_error_on_bad_status Json.parse Json.to_number unit tt Sample.decoder_step Sample.decoder_end
                   failing_server Sample.latency Sample.question None
                   Sample.session Sample.start Sample.error_response _ _)).
  - by_computation.
  - cbn. lia.
Defined.

Lemma malformed_line_skipped_witness :
  emitted (world (lines_of
                    ([Sample.delta_line] ++ "oops" :: [Sample.final_line])
                    Sample.session Sample.start))
  = emitted (world (lines_of
                      ([Sample.delta_line] ++ [Sample.final_line])
                      Sample.session Sample.start)).
Proof.
  refine (proj1 (proj2 (proj2
            (malformed_line_skipped Json.parse "oops" [Sample.delta_line]
               [Sample.final_line] Sample.session Sample.start _)))).
  by_computation.
Defined.

Lemma chunking_irrelevant_witness :
  reads_of Sample.reads tt "" Sample.session Sample.start
  = reads_of Sample.one_read tt "" Sample.session Sample.start
  /\ reads_of (Sample.reads ++ [Sample.cut_off]) tt ""
       Sample.session Sample.start
     = reads_of Sample.reads tt "" Sample.session Sample.start.
Proof.
  assert (H := chunking_irrelevant Json.parse unit tt Sample.decoder_step
                 Sample.reads Sample.one_read
                 Sample.cut_off Sample.session Sample.start
                 ltac:(by_computation) ltac:(by_computation)).
  exact (conj (proj1 H) (proj1 (proj2 (proj2 (proj2 H))))).
Defined.

Lemma done_marker_skipped_witness :
  process_line Json.parse "[DONE]" Sample.session Sample.start
  = Out (inr Continue) Sample.session
        (extend [] [parse_warning "[DONE]" SyntaxError] Sample.start)
  /\ emitted (world (reads_of [Sample.done_then_record] tt ""
                       Sample.session Sample.start))
     = emitted (world (reads_of
                         [Sample.bytes (Sample.late_line ++ Sample.line_feed)]
                         tt "" Sample.session Sample.start)).
Proof.
  assert (H := done_marker_skipped Json.parse unit tt Sample.decoder_step
                 [] [Sample.late_line] Sample.session Sample.start
                 ltac:(by_computation)).
  split; [exact (proj1 H)|].
  refine (proj1 (proj2 (proj2 (proj2 H)) _ _ _ _)); by_computation.
Defined.

(** C5, as stated, fails: after a line [[DONE]] the loop goes on, and the
    record on the next line is decoded and yielded. *)
Lemma done_marker_does_not_end_stream :
  emitted (world (reads_of [Sample.done_then_record] tt ""
                    Sample.session Sample.start))
  = [Sample.late].
Proof. vm_compute. reflexivity. Qed.

Lemma models_fallback_witness :
  value (models_with unreachable_server Sample.session Sample.start)
  = inr default_models.
Proof.
  refine (proj1 (models_fallback Json.parse Json.to_number unit tt Sample.decoder_step Sample.decoder_end
                   unreachable_server Sample.latency
                   Sample.session Sample.start
                   (Rejected (NetworkError "Connection failed")) _ _)).
  - by_computation.
  - exact I.
Defined.

Lemma tool_format_resolution_witness :
  getToolFormat (setToolFormatOverride (Some "gemma")
                   (setConfig Sample.overrides
                      (setModel "deepseek-coder" Sample.session)))
  = "gemma"
  /\ getToolFormat (setConfig Sample.overrides
                      (setModel "deepseek-coder" Sample.session))
     = "qwen"
  /\ getToolFormat (setModel "deepseek-coder" Sample.session) = "deepseek"
  /\ getToolFormat (setModel "deepseek-llama" Sample.session) = "llama"
  /\ getToolFormat (setModel "mistral" Sample.session) = "llama".
Proof.
  assert (Hnone : forall modelId f,
             configured (setModel modelId Sample.session) f -> f = "").
  { intros modelId f (cfg & before & after & Hc & _). discriminate Hc. }
  assert (Hout : forall family modelId,
             Str.includes family modelId = false ->
             ~ Str.contains family modelId).
  { intros family modelId Hf Hc. apply includes_contains in Hc.
    now rewrite Hc in Hf. }
  split; [|split; [|split; [|split]]].
  - refine (proj1 (proj2 (tool_format_resolution _)) "gemma" _ _);
      by_computation.
  - refine (proj1 (proj2 (proj2 (tool_format_resolution _)) _) "qwen" _ _).
    + now left.
    + exists Sample.overrides, [("openai", "hermes")], [].
      split; [reflexivity|]. split; [reflexivity|].
      intros [H|[]]. discriminate H.
    + by_computation.
  - refine (proj1 (proj2 (proj2 (proj2 (tool_format_resolution _)) _)
                     (Hnone _)) "deepseek" _).
    + now left.
    + exists ["llama"], ["qwen"; "hermes"; "gemma"].
      split; [reflexivity|]. split; [now exists "", "-coder"|].
      intros other [<-|[]]. now apply Hout.
  - refine (proj1 (proj2 (proj2 (proj2 (tool_format_resolution _)) _)
                     (Hnone _)) "llama" _).
    + now left.
    + exists [], ["deepseek"; "qwen"; "hermes"; "gemma"].
      split; [reflexivity|]. split; [now exists "deepseek-", ""|].
      intros other [].
  - refine (proj2 (proj2 (proj2 (proj2 (tool_format_resolution _)) _)
                     (Hnone _)) _).
    + now left.
    + intros family Hin. apply Hout.
      repeat (destruct Hin as [<-|Hin]; [reflexivity|]). destruct Hin.
Defined.

Lemma token_cached_within_window_witness :
  let first :=
    token_with token_server
      (setTokenUrl Sample.token_url Sample.session) Sample.start in
  let later :=
    {| now := now (world first) + 60000; requests := requests (world first);
       console := console (world first); emitted := emitted (world first) |} in
  token_with token_server (self first) later
  = Out (inr (JStr "oauth-token")) (self first) later
  /\ requests later = [token_request Sample.token_url].
Proof.
  cbv zeta.
  refine (proj1 (proj2
            (token_cached_within_window Json.parse Json.to_number unit tt Sample.decoder_step Sample.decoder_end
               token_server Sample.latency
               (setTokenUrl Sample.token_url Sample.session) Sample.start
               _ Sample.token_url (JStr "oauth-token") 1700003600025
               _ _ _ _ _ _ _ _)) _); by_computation.
Defined.

Lemma final_record_ends_stream_witness :
  lines_of ([Sample.final_line] ++ [Sample.late_line; "oops"])
    Sample.session Sample.start
  = lines_of [Sample.final_line] Sample.session Sample.start.
Proof.
  refine (proj1 (proj2 (proj2
            (final_record_ends_stream Json.parse Json.to_number unit tt Sample.decoder_step Sample.decoder_end
               chat_server Sample.latency)))
            [Sample.final_line] [Sample.late_line; "oops"]
            Sample.session Sample.start _).
  by_computation.
Defined.

Lemma setTokenUrl_clears_cache_witness :
  requests (world (token_with token_server
                     (setTokenUrl Sample.token_url Sample.stale_session)
                     Sample.start))
  = [token_request Sample.token_url].
Proof.
  refine (proj1 (proj2 (proj2 (proj2 (proj2 (proj2
            (setTokenUrl_clears_cache Json.parse Json.to_number unit tt Sample.decoder_step Sample.decoder_end
               token_server Sample.latency Sample.token_url
               Sample.stale_session Sample.start)))))) _).
  by_computation.
Defined.

(** C10, as stated, fails: after [setTokenUrl('')] the next token request
    sends nothing and answers with the static API key. *)
Lemma empty_token_url_fetches_nothing :
  let out := token_with token_server
               (setTokenUrl "" Sample.stale_session) Sample.start in
  requests (world out) = [] /\ value out = inr (JStr "static-api-key").
Proof. vm_compute. split; reflexivity. Qed.

(** ** The further properties on concrete sessions *)

Ltac by_split := repeat split; vm_compute; reflexivity.

#[local] Abbreviation no_token_server :=
  (Sample.network (Rejected (NetworkError "Connection failed"))
                  (Resolved Sample.chat_response)).
#[local] Abbreviation serving token_reply reply :=
  (Sample.network (Resolved token_reply) (Resolved reply)).
#[local] Abbreviation headers_with net :=
  (request_headers Json.parse Json.to_number unit tt Sample.decoder_step Sample.decoder_end net
     Sample.latency).

Lemma token_fetch_failure_falls_back_witness :
  token_with no_token_server Sample.token_session Sample.start
  = Out (inr (JStr "static-api-key")) Sample.token_session
        (token_failed Sample.latency (NetworkError "Connection failed")
           (token_request Sample.token_url) Sample.start).
Proof.
  refine (proj1 (token_fetch_failure_falls_back Json.parse Json.to_number unit tt Sample.decoder_step Sample.decoder_end
                   no_token_server Sample.latency
                   Sample.token_session Sample.start Sample.token_url
                   _ _ _) (NetworkError "Connection failed") _);
    by_computation.
Defined.

Lemma token_fetched_and_cached_witness :
  token_with token_server Sample.token_session Sample.start
  = Out (inr (JStr "oauth-token"))
        (set_tokenExpiry (Some (Int 1700003600025))
           (set_cachedToken (JStr "oauth-token") Sample.token_session))
        (sent 25 (token_request Sample.token_url) Sample.start).
Proof.
  refine (proj2 (token_fetched_and_cached Json.parse Json.to_number unit tt Sample.decoder_step Sample.decoder_end
                   token_server Sample.latency
                   Sample.token_session Sample.start Sample.token_url
                   Sample.token_response Sample.token_record
                   (JStr "oauth-token") (JNum (Int 3600))
                   _ _ _ _ _ _ _) 3600 _ _ _ _ _);
    try by_computation; unfold Js.safe_integer; cbn; lia.
Defined.

Lemma token_response_shapes_witness :
  read_token (JObj [("access_token", JStr ""); ("token", JStr "custom")])
    Sample.session Sample.start
  = Out (inr (JStr "custom", JUndefined)) Sample.session Sample.start.
Proof.
  refine (proj1 (proj2 (proj2
            (token_response_shapes Sample.session Sample.start)))
            [("access_token", JStr ""); ("token", JStr "custom")] _ _);
    by_computation.
Defined.

Lemma token_default_lifetime_witness :
  let first :=
    token_with (serving Sample.plain_token_response Sample.chat_response)
      Sample.token_session Sample.start in
  let empty :=
    token_with (serving Sample.empty_token_response Sample.chat_response)
      Sample.token_session Sample.start in
  token_with (serving Sample.plain_token_response Sample.chat_response)
    (self first) Sample.later
  = Out (inr (JStr "plain-token")) (self first) Sample.later
  /\ cachedToken (self empty) = JStr ""
  /\ requests (world (token_with
                        (serving Sample.empty_token_response
                           Sample.chat_response)
                        (self empty) Sample.later))
     = requests Sample.later ++ [token_request Sample.token_url].
Proof.
  cbv zeta. split.
  - refine (proj1 (proj2 (proj2
              (token_default_lifetime Json.parse Json.to_number unit tt Sample.decoder_step Sample.decoder_end
                 (serving Sample.plain_token_response Sample.chat_response)
                 Sample.latency
                 Sample.token_session Sample.start Sample.later
                 Sample.token_url Sample.plain_token_response
                 (JStr "plain-token") (JStr "plain-token") JUndefined
                 _ _ _ _ _ _ _ _))) _ _ _); by_computation.
  - assert (H := token_default_lifetime Json.parse Json.to_number unit tt Sample.decoder_step Sample.decoder_end
                   (serving Sample.empty_token_response Sample.chat_response)
                   Sample.latency
                   Sample.token_session Sample.start Sample.later
                   Sample.token_url Sample.empty_token_response
                   (JStr "") (JStr "") JUndefined
                   ltac:(by_computation) ltac:(by_computation)
                   ltac:(by_computation) ltac:(by_computation)
                   ltac:(by_computation) ltac:(by_computation)
                   ltac:(by_computation) ltac:(by_computation)).
    split; [exact (proj1 H)|].
    refine (proj2 (proj2 (proj2 (proj2 H))) _). by_computation.
Defined.

Lemma short_lived_token_refetched_witness :
  let first :=
    token_with (serving Sample.brief_token_response Sample.chat_response)
      Sample.token_session Sample.start in
  requests (world (token_with
                     (serving Sample.brief_token_response Sample.chat_response)
                     (self first) (world first)))
  = [token_request Sample.token_url; token_request Sample.token_url].
Proof.
  cbv zeta.
  refine (short_lived_token_refetched Json.parse Json.to_number unit tt Sample.decoder_step Sample.decoder_end
            (serving Sample.brief_token_response Sample.chat_response)
            Sample.latency
            Sample.token_session Sample.start _
            Sample.token_url Sample.brief_token_response
            (JObj [("token", JStr "brief"); ("expires_in", JNum (Int 120))])
            (JStr "brief") 120
            _ _ _ _ _ _ _ _ _ _); by_computation.
Defined.

Lemma clearCachedToken_forces_fetch_witness :
  requests (world (token_with token_server
                     (clearCachedToken Sample.stale_session) Sample.start))
  = [token_request "https://old.example/token"].
Proof.
  refine (proj1 (clearCachedToken_forces_fetch Json.parse Json.to_number unit tt Sample.decoder_step Sample.decoder_end
                   token_server Sample.latency
                   Sample.stale_session Sample.start
                   "https://old.example/token" _ _));
    by_computation.
Defined.

Lemma setters_keep_cached_token_witness :
  value (token_with token_server
           (setApiKey "another-key" Sample.stale_session) Sample.start)
  = inr (JStr "old-token").
Proof.
  refine (proj1 (setters_keep_cached_token Json.parse Json.to_number unit tt Sample.decoder_step Sample.decoder_end
                   token_server Sample.latency
                   Sample.stale_session Sample.start
                   "another-key" "llama2" None
                   {| providerToolFormatOverrides := None |} _ _));
    by_computation.
Defined.

Lemma models_listed_witness :
  value (models_with (serving Sample.token_response Sample.listing)
           Sample.session Sample.start)
  = inr [ {| id := JStr "codellama:7b"; name := JStr "codellama:7b";
             provider := "ollama";
             supportedToolFormats :=
               ["llama"; "deepseek"; "qwen"; "hermes"; "gemma"];
             contextWindow := Tokens 100000; maxOutputTokens := 4096 |};
          {| id := JStr "mistral"; name := JStr "mistral";
             provider := "ollama";
             supportedToolFormats :=
               ["llama"; "deepseek"; "qwen"; "hermes"; "gemma"];
             contextWindow := Tokens 4096; maxOutputTokens := 4096 |} ].
Proof.
  refine (proj1 (models_listed Json.parse Json.to_number unit tt Sample.decoder_step Sample.decoder_end
                   (serving Sample.token_response Sample.listing)
                   Sample.latency Sample.session Sample.start
                   Sample.listing
                   (JObj [("models",
                           JArr [JObj [("name", JStr "codellama:7b");
                                       ("size", JNum (Int 3825819519))];
                                 JObj [("name", JStr "mistral")]])])
                   [JObj [("name", JStr "codellama:7b");
                          ("size", JNum (Int 3825819519))];
                    JObj [("name", JStr "mistral")]]
                   ["codellama:7b"; "mistral"] _ _ _ _ _));
    try by_computation.
  repeat first [ apply Forall2_nil
               | apply Forall2_cons; [eexists; split; reflexivity|] ].
Defined.

Lemma listing_without_models_is_empty_witness :
  value (models_with (serving Sample.token_response Sample.bare_listing)
           Sample.session Sample.start)
  = inr [].
Proof.
  refine (proj1 (listing_without_models_is_empty Json.parse Json.to_number unit tt Sample.decoder_step Sample.decoder_end
                   (serving Sample.token_response Sample.bare_listing)
                   Sample.latency Sample.session Sample.start
                   Sample.bare_listing (JObj []) JUndefined _ _ _ _ _));
    by_computation.
Defined.

Lemma malformed_listing_falls_back_witness :
  value (models_with (serving Sample.token_response Sample.broken_listing)
           Sample.session Sample.start)
  = inr default_models.
Proof.
  refine (proj1 (proj2 (proj2 (proj2
            (malformed_listing_falls_back Json.parse Json.to_number unit tt Sample.decoder_step Sample.decoder_end
               (serving Sample.token_response Sample.broken_listing)
               Sample.latency Sample.session Sample.start
               Sample.broken_listing _ _)))
            (JObj [("models", JArr [JNull])]) [JNull] _ _ _));
    try by_computation.
  now left.
Defined.

Lemma default_catalogue_consistent_witness :
  Forall (fun m =>
            exists s,
              id m = JStr s /\ name m = JStr s
              /\ contextWindow m = getContextWindowForModel s
              /\ supportedToolFormats m
                 = [getToolFormat (setModel s Sample.session)])
         default_models.
Proof.
  apply (default_catalogue_consistent Sample.session); reflexivity.
Defined.

Lemma context_window_default_witness :
  getContextWindowForModel "mistral" = Tokens 4096
  /\ getContextWindowForModel "toString" = Inherited "toString".
Proof.
  split.
  - refine (proj1 (context_window_default "mistral") _ _); by_computation.
  - refine (proj2 (proj2 (context_window_default "toString")) _).
    cbn. tauto.
Defined.

Lemma static_key_sent_as_bearer_witness :
  requests (world (models_with chat_server
                     (setApiKey "static-api-key" Sample.session)
                     Sample.start))
  = [ {| url := "http://localhost:11434/api/tags"; method := None;
         headers := [("Content-Type", "application/json");
                     ("Authorization", "Bearer static-api-key")];
         body := None |} ].
Proof.
  refine (proj1 (proj1 (static_key_sent_as_bearer Json.parse Json.to_number unit tt Sample.decoder_step Sample.decoder_end
                          chat_server Sample.latency
                          Sample.session Sample.start Sample.question None _)
                   "static-api-key" _));
    by_computation.
Defined.

Lemma base_url_round_trip_witness :
  requests (world (models_with
                     (serving Sample.token_response Sample.listing)
                     (setBaseUrl (Some "http://remote:11434")
                        Sample.token_session)
                     Sample.start))
  = [ token_request Sample.token_url;
      {| url := "http://remote:11434/api/tags"; method := None;
         headers := [("Content-Type", "application/json");
                     ("Authorization", "Bearer oauth-token")];
         body := None |} ].
Proof.
  refine (proj1 (base_url_round_trip Json.parse Json.to_number unit tt Sample.decoder_step Sample.decoder_end
                   (serving Sample.token_response Sample.listing)
                   Sample.latency
                   Sample.token_session Sample.start Sample.question None
                   (Some "http://remote:11434")
                   [("Content-Type", "application/json");
                    ("Authorization", "Bearer oauth-token")] _));
    by_computation.
Defined.

Lemma chat_sends_one_request_witness :
  requests (world (chat_with chat_server Sample.question (Some [])
                     Sample.session Sample.start))
  = [ {| url := "http://localhost:11434/api/chat"; method := Some "POST";
         headers := [("Content-Type", "application/json")];
         body :=
           Some {| model := "llama2";
                   messages := [("user", JStr "Hello, how are you?")];
                   stream := true;
                   options := {| temperature := 7 # 10; top_p := 9 # 10;
                                 num_predict := 4096 |};
                   tools := None; tool_choice := None |} |} ].
Proof.
  refine (chat_sends_one_request Json.parse Json.to_number unit tt Sample.decoder_step Sample.decoder_end
            chat_server Sample.latency Sample.question (Some [])
            Sample.session Sample.start
            [("Content-Type", "application/json")] _);
    by_computation.
Defined.

Lemma chat_completion_outcomes_witness :
  let out :=
    chat_with (Sample.network (Resolved Sample.token_response)
                 (Interrupted 200 "OK" Sample.first_read
                    (NetworkError "terminated")))
      Sample.question None Sample.session Sample.start in
  emitted (world out) = [Sample.hello]
  /\ value out = inl (NetworkError "terminated").
Proof.
  cbv zeta.
  assert (H := proj2 (proj2 (proj2
                 (chat_completion_outcomes Json.parse Json.to_number unit tt Sample.decoder_step Sample.decoder_end
                    (Sample.network (Resolved Sample.token_response)
                       (Interrupted 200 "OK" Sample.first_read
                          (NetworkError "terminated")))
                    Sample.latency Sample.question None
                    Sample.session Sample.start)))
                 200 "OK" Sample.first_read (NetworkError "terminated")
                 ltac:(by_computation)).
  destruct (proj2 H ltac:(by_computation)) as [He [Hv _]].
  split; [exact He|]. apply Hv. by_computation.
Defined.

Lemma chat_failure_logged_witness :
  emitted (world (chat_with failing_server Sample.question None
                    Sample.session Sample.start))
  = [].
Proof.
  refine (proj2 (chat_failure_logged Json.parse Json.to_number unit tt Sample.decoder_step Sample.decoder_end
                   failing_server Sample.latency Sample.question None
                   Sample.session Sample.start
                   (Error "Ollama API error: 500 Internal Server Error - Server error")
                   _) _).
  - by_computation.
  - intros code reason delivered e'. by_computation.
Defined.

Lemma blank_lines_ignored_witness :
  lines_of ([Sample.delta_line] ++ "   " :: [Sample.final_line])
    Sample.session Sample.start
  = lines_of ([Sample.delta_line] ++ [Sample.final_line])
      Sample.session Sample.start.
Proof.
  refine (proj2 (blank_lines_ignored Json.parse [Sample.delta_line]
                   [Sample.final_line] "   " Sample.session Sample.start _));
    by_computation.
Defined.

Lemma usage_totals_witness :
  process_line Json.parse Sample.short_final_line Sample.session Sample.start
  = Out (inr Return) Sample.session
        (extend [ {| role := "assistant"; content := JStr "bye";
                     tool_calls := JUndefined;
                     usage := Some {| prompt_tokens := JNum (Int 0);
                                      completion_tokens := JNum (Int 7);
                                      total_tokens := JNum (Int 7) |} |} ]
                [] Sample.start).
Proof.
  refine (usage_totals Json.parse Sample.short_final_line
            [("message", JObj [("content", JStr "bye")]);
             ("done", JBool true); ("eval_count", JNum (Int 7))]
            [("content", JStr "bye")] 0 7 Sample.session Sample.start
            _ _ _ _ _ _ _ _ _);
    try by_computation; try (unfold Js.safe_integer; cbn; lia).
  - right. split; reflexivity.
  - left. reflexivity.
Defined.

Lemma record_without_message_skipped_witness :
  process_line Json.parse Sample.bare_final_line Sample.session Sample.start
  = Out (inr Continue) Sample.session
        (extend [] [console_warn "Failed to parse Ollama response line:"
                      (Some Sample.bare_final_line) TypeError]
                Sample.start).
Proof.
  refine (record_without_message_skipped Json.parse Sample.bare_final_line
            (JObj [("done", JBool true)]) Sample.session Sample.start
            _ _ _);
    try by_computation.
  left. reflexivity.
Defined.

Lemma tool_format_known_witness :
  In (getToolFormat (setModel "nous-hermes2" Sample.session)) known_families.
Proof.
  refine (proj1 (tool_format_known (setModel "nous-hermes2" Sample.session)
                   _ _));
    by_computation.
Defined.

Lemma tool_format_override_round_trip_witness :
  getToolFormat (setToolFormatOverride (Some "hermes") Sample.session)
  = "hermes".
Proof.
  refine (proj1 (tool_format_override_round_trip Sample.session "hermes"
                   "llama2" {| providerToolFormatOverrides := None |} _));
    by_computation.
Defined.

Lemma fetched_token_sent_as_bearer_witness :
  requests (world (chat_with
                     (serving Sample.token_response Sample.chat_response)
                     Sample.question None Sample.token_session Sample.start))
  = [ token_request Sample.token_url;
      {| url := "http://localhost:11434/api/chat"; method := Some "POST";
         headers := [("Content-Type", "application/json");
                     ("Authorization", "Bearer oauth-token")];
         body := Some (chat_body Sample.token_session Sample.question None)
      |} ].
Proof.
  refine (proj1 (fetched_token_sent_as_bearer Json.parse Json.to_number unit tt Sample.decoder_step Sample.decoder_end
                   (serving Sample.token_response Sample.chat_response)
                   Sample.latency Sample.question None
                   Sample.token_session Sample.start Sample.token_url
                   Sample.token_response Sample.token_record
                   (JNum (Int 3600)) "oauth-token"
                   _ _ _ _ _ _ _ _ _));
    try by_computation.
  right. now exists (Int 3600).
Defined.

Lemma chat_survives_token_failure_witness :
  requests (world (chat_with no_token_server Sample.question None
                     Sample.token_session Sample.start))
  = [ token_request Sample.token_url;
      {| url := "http://localhost:11434/api/chat"; method := Some "POST";
         headers := [("Content-Type", "application/json");
                     ("Authorization", "Bearer static-api-key")];
         body := Some (chat_body Sample.token_session Sample.question None)
      |} ].
Proof.
  refine (proj1 (chat_survives_token_failure Json.parse Json.to_number unit tt Sample.decoder_step Sample.decoder_end
                   no_token_server Sample.latency Sample.question None
                   Sample.token_session Sample.start Sample.token_url
                   _ _ _ _));
    by_computation.
Defined.

Lemma unreadable_lifetime_never_cached_witness :
  let first :=
    token_with (serving Sample.odd_token_response Sample.chat_response)
      Sample.token_session Sample.start in
  tokenExpiry (self first) = Some NaN
  /\ requests (world (token_with
                        (serving Sample.odd_token_response
                           Sample.chat_response)
                        (self first) Sample.later))
     = requests Sample.later ++ [token_request Sample.token_url].
Proof.
  cbv zeta.
  refine (proj2 (proj2
            (unreadable_lifetime_never_cached Json.parse Json.to_number unit tt Sample.decoder_step Sample.decoder_end
               (serving Sample.odd_token_response Sample.chat_response)
               Sample.latency
               Sample.token_session Sample.start Sample.later
               Sample.token_url Sample.odd_token_response
               (JObj [("access_token", JStr "oauth-token");
                      ("expires_in", JObj [])])
               (JStr "oauth-token") (JObj [])
               _ _ _ _ _ _ _ _ _)));
    by_computation.
Defined.

Lemma records_yielded_in_order_witness :
  lines_of [Sample.delta_line; Sample.late_line] Sample.session Sample.start
  = Out (inr Continue) Sample.session
        (extend [Sample.hello; Sample.late] [] Sample.start).
Proof.
  refine (records_yielded_in_order Json.parse
            [Sample.delta_line; Sample.late_line]
            [Sample.hello; Sample.late] Sample.session Sample.start _).
  apply Forall2_cons;
    [exists Sample.delta_record, Sample.delta_message; by_split|].
  apply Forall2_cons; [|apply Forall2_nil].
  exists [("model", JStr "llama2");
          ("message", JObj [("role", JStr "assistant");
                            ("content", JStr "late")]);
          ("done", JBool false)],
         [("role", JStr "assistant"); ("content", JStr "late")].
  by_split.
Defined.

Lemma calls_keep_settings_witness :
  self (models_with chat_server Sample.keyed_session Sample.start)
  = Sample.keyed_session
  /\ self (chat_with chat_server Sample.question None
             Sample.keyed_session Sample.start)
     = Sample.keyed_session.
Proof.
  refine (proj2 (proj2
            (calls_keep_settings Json.parse Json.to_number unit tt Sample.decoder_step Sample.decoder_end
               chat_server Sample.latency Sample.question None
               Sample.keyed_session Sample.start)) _).
  by_computation.
Defined.

(** ** The provider's own tests, run on the embedding *)

Example getToolFormat_llama :
  getToolFormat (setModel "llama2" Sample.session) = "llama".
Proof. reflexivity. Qed.

Example getToolFormat_deepseek :
  getToolFormat (setModel "deepseek-coder" Sample.session) = "deepseek".
Proof. reflexivity. Qed.

Example getToolFormat_qwen :
  getToolFormat (setModel "qwen2.5-coder" Sample.session) = "qwen".
Proof. reflexivity. Qed.

Example getToolFormat_default :
  getToolFormat (setModel "unknown-model" Sample.session) = "llama".
Proof. reflexivity. Qed.

Example getModels_not_found :
  value (models_with
           (Sample.network (Rejected (NetworkError "unused"))
                           (Resolved Sample.missing_response))
           Sample.session Sample.start)
  = inr default_models.
Proof. vm_compute. reflexivity. Qed.

(** A listing whose body is cut short is no listing. *)
Example getModels_interrupted :
  value (models_with
           (Sample.network (Rejected (NetworkError "unused"))
              (Interrupted 200 "OK" [] (NetworkError "terminated")))
           Sample.session Sample.start)
  = inr default_models.
Proof. vm_compute. reflexivity. Qed.

(** A chat whose body is cut short after its final record has returned
    before the failing read. *)
Example chat_interrupted_after_final_record :
  value (chat_with
           (Sample.network (Rejected (NetworkError "unused"))
              (Interrupted 200 "OK" Sample.reads (NetworkError "terminated")))
           Sample.question None Sample.session Sample.start)
  = inr tt.
Proof. vm_compute. reflexivity. Qed.

(** A listing that arrives and holds no model is returned as it is. *)
Example getModels_empty_listing :
  value (models_with
           (Sample.network (Rejected (NetworkError "unused"))
                           (Resolved Sample.empty_listing))
           Sample.session Sample.start)
  = inr [].
Proof. vm_compute. reflexivity. Qed.

Example getBearerToken_static_key :
  value (token_with unreachable_server Sample.keyed_session Sample.start)
  = inr (JStr "static-api-key").
Proof. reflexivity. Qed.

Example includes_ex : Str.includes "llama" "codellama:7b" = true.
Proof. reflexivity. Qed.

Example split_ex :
  Str.split_nl ("a" ++ String Str.nl ("bc" ++ String Str.nl ""))%string
  = ["a"; "bc"; ""].
Proof. reflexivity. Qed.

Example add_ex :
  Js.add (JNum (Int 62)) (JNum (Int 23)) = inr (JNum (Int 85))
  /\ Js.add (JStr "62") (JNum (Int 23)) = inr (JStr "6223")
  /\ Js.add (JArr [JNum (Int 1); JNull; JStr "a"]) (JNum (Int 0))
     = inr (JStr "1,,a0").
Proof. repeat split. Qed.
